(** * Excel merge tool: normalisation, grouping and export of [gui_main.py]

    A shallow embedding of the data pipeline of [gui_main.py]
    ([format_excel_date] and [ExcelMergerApp.process_data]) together with
    the properties its specification states about it.

    Modelling conventions.
    - A Python [str] is a Rocq [string] holding its UTF-8 bytes.  Substring,
      prefix and suffix tests against ASCII patterns are exact on UTF-8
      text.  Character classes ([str.isdigit], the whitespace removed by
      [str.strip] and skipped by [float] and [int], the digits they read)
      are the ASCII ones.  Python's own classes are wider: they also hold
      the digits and the white space of other scripts.  Statements that
      depend on a text not being a number, or on its having no white
      space around it, are therefore made for text of ASCII characters
      and CJK ideographs ([ascii_or_cjk_text]), on which the two agree;
      numeric-looking text and date text are ASCII by their shape.
    - The table is loaded with [dtype=str], so a cell is either the pandas
      missing marker NaN or a [str].
    - A Python [float] is an IEEE binary64 value, kept exactly as
      [m * 2^e]; decimal text is rounded to the nearest such value the way
      [float()] does.
    - [pd.to_datetime] belongs to pandas; it is a parameter
      [to_datetime : string -> option string] yielding the [%Y-%m-%d]
      rendering of the parsed timestamp, or [None] for NaT or a raised
      exception.
    - A Python [dict] is an association list in insertion order.
    - Dialogs and file writes are events appended to a log; the outcome of
      each file-system call is read from a [World], including whether a
      call that raised had already begun to write.
    - The worksheet is the grid of cell values that [wb.save] receives:
      [ws.merge_cells] empties every cell of a merged block but the top
      one. *)

From Stdlib Require Import ZArith List String Ascii Bool Lia.
From Stdlib Require Import DecimalString Permutation.
Import ListNotations.

Open Scope string_scope.
Open Scope Z_scope.

(** ** Python [str] builtins *)

Module Str.

Definition is_digit (c : ascii) : bool :=
  let n := N_of_ascii c in ((48 <=? n) && (n <=? 57))%N.

Definition digit_val (c : ascii) : Z := Z.of_N (N_of_ascii c) - 48.

Fixpoint all_digits (s : string) : bool :=
  match s with
  | EmptyString => true
  | String c r => is_digit c && all_digits r
  end.

(** [s.isdigit()]: false on the empty string. *)
Definition isdigit (s : string) : bool :=
  match s with
  | EmptyString => false
  | String _ _ => all_digits s
  end.

Definition to_lower (c : ascii) : ascii :=
  let n := N_of_ascii c in
  if ((65 <=? n) && (n <=? 90))%N then ascii_of_N (n + 32) else c.

(** [s.lower()] *)
Fixpoint lower (s : string) : string :=
  match s with
  | EmptyString => EmptyString
  | String c r => String (to_lower c) (lower r)
  end.

(** Whitespace of [str.strip()]: TAB..CR, FS..US and the space. *)
Definition is_space (c : ascii) : bool :=
  let n := N_of_ascii c in
  (((9 <=? n) && (n <=? 13)) || ((28 <=? n) && (n <=? 32)))%N.

(** Whitespace that [int] and [float] skip around a number: TAB..CR and
    the space. *)
Definition is_number_space (c : ascii) : bool :=
  let n := N_of_ascii c in
  (((9 <=? n) && (n <=? 13)) || (n =? 32))%N.

Fixpoint lstrip_by (sp : ascii -> bool) (s : string) : string :=
  match s with
  | EmptyString => EmptyString
  | String c r => if sp c then lstrip_by sp r else s
  end.

Fixpoint rstrip_by (sp : ascii -> bool) (s : string) : string :=
  match s with
  | EmptyString => EmptyString
  | String c r =>
      match rstrip_by sp r with
      | EmptyString => if sp c then EmptyString else String c EmptyString
      | r' => String c r'
      end
  end.

Definition strip_by (sp : ascii -> bool) (s : string) : string :=
  lstrip_by sp (rstrip_by sp s).

(** [s.strip()] *)
Definition strip (s : string) : string := strip_by is_space s.

(** The text of a number without the whitespace around it. *)
Definition number_strip (s : string) : string := strip_by is_number_space s.

(** [s.replace(c, '', 1)]: drop the first occurrence of the character. *)
Fixpoint replace_first (c : ascii) (s : string) : string :=
  match s with
  | EmptyString => EmptyString
  | String a r => if Ascii.eqb a c then r else String a (replace_first c r)
  end.

(** [sub in s] *)
Fixpoint contains (sub s : string) : bool :=
  match s with
  | EmptyString => String.prefix sub EmptyString
  | String _ r => String.prefix sub s || contains sub r
  end.

(** [s.endswith(suf)] *)
Fixpoint endswith (s suf : string) : bool :=
  match s with
  | EmptyString => String.eqb EmptyString suf
  | String _ r => String.eqb s suf || endswith r suf
  end.

(** [s[:-2]] *)
Definition drop_last2 (s : string) : string :=
  substring 0 (String.length s - 2) s.

(** [sep.join(parts)] *)
Definition join (sep : string) (parts : list string) : string :=
  String.concat sep parts.

(** [str(n)] for an [int]. *)
Definition of_Z (z : Z) : string := NilZero.string_of_int (Z.to_int z).

(** Optional sign in front of a number. *)
Definition split_sign (s : string) : bool * string :=
  match s with
  | String "+" r => (false, r)
  | String "-" r => (true, r)
  | _ => (false, s)
  end.

(** Longest prefix [digit (["_"] digit)*] of [s], read in base ten:
    accumulated value, number of digits, remaining text.  An underscore
    is taken only between two digits. *)
Fixpoint scan_digits (acc : Z) (cnt : nat) (s : string) : Z * nat * string :=
  match s with
  | EmptyString => (acc, cnt, s)
  | String c r =>
      if is_digit c then scan_digits (10 * acc + digit_val c) (S cnt) r
      else if Ascii.eqb c "_" && negb (Nat.eqb cnt 0) then
        match r with
        | String c2 _ => if is_digit c2 then scan_digits acc cnt r else (acc, cnt, s)
        | EmptyString => (acc, cnt, s)
        end
      else (acc, cnt, s)
  end.

(** [sys.get_int_max_str_digits()], CPython's default. *)
Definition int_max_str_digits : nat := 4300.

(** [int(s)]: [None] stands for ValueError, raised on malformed text and
    on more than [int_max_str_digits] digits. *)
Definition py_int (s : string) : option Z :=
  let '(neg, u) := split_sign (number_strip s) in
  let '(v, cnt, rest) := scan_digits 0 0 u in
  if negb (Nat.eqb cnt 0) && String.eqb rest EmptyString
     && Nat.leb cnt int_max_str_digits
  then Some (if neg then - v else v)
  else None.

End Str.

(** ** Python [float]: IEEE binary64 *)

Module Float.

Inductive t : Type :=
| Fin (m e : Z)      (* the real number m * 2^e *)
| Inf (neg : bool)
| NaN.

(** Quotient of [a] by [b] rounded to nearest, ties to even
    ([0 <= a], [0 < b]). *)
Definition div_rne (a b : Z) : Z :=
  let q := a / b in
  let r := a mod b in
  if 2 * r <? b then q
  else if b <? 2 * r then q + 1
  else if Z.even q then q else q + 1.

(** [floor (log2 (n / d))] for positive [n] and [d]. *)
Definition ilog2_ratio (n d : Z) : Z :=
  let e0 := Z.log2 n - Z.log2 d in
  let reached := if 0 <=? e0 then d * 2 ^ e0 <=? n else d <=? n * 2 ^ (- e0) in
  if reached then e0 else e0 - 1.

(** The binary64 value nearest to [n / d] ([0 <= n], [0 < d]), with the
    sign [neg]: 53 significant bits, least exponent -1074, overflow to
    infinity from [2^1024]. *)
Definition round_nearest (neg : bool) (n d : Z) : t :=
  if n =? 0 then Fin 0 0
  else
    let e := ilog2_ratio n d in
    let q := Z.max (e - 52) (-1074) in
    let m := if 0 <=? q then div_rne n (d * 2 ^ q) else div_rne (n * 2 ^ (- q)) d in
    if (0 <=? q) && (2 ^ 1024 <=? m * 2 ^ q) then Inf neg
    else Fin (if neg then - m else m) q.

(** [int(f)]: truncation towards zero; [None] stands for the
    OverflowError or ValueError raised on an infinity or a NaN. *)
Definition to_int (f : t) : option Z :=
  match f with
  | Fin m e => Some (if 0 <=? e then m * 2 ^ e else Z.quot m (2 ^ (- e)))
  | Inf _ => None
  | NaN => None
  end.

(** [f > k] for an integer [k]. *)
Definition gtb (f : t) (k : Z) : bool :=
  match f with
  | Fin m e => if 0 <=? e then k <? m * 2 ^ e else k * 2 ^ (- e) <? m
  | Inf neg => negb neg
  | NaN => false
  end.

(** Decimal literal [[digitpart] "." digitpart | digitpart ["."]]
    followed by an optional exponent [("e"|"E") [sign] digitpart]. *)
Definition parse_decimal (neg : bool) (u : string) : option t :=
  let '(ip, ic, r1) := Str.scan_digits 0 0 u in
  let '(fp, fc, r2) :=
    match r1 with
    | String "." r => Str.scan_digits 0 0 r
    | _ => (0, 0%nat, r1)
    end in
  if Nat.eqb (ic + fc) 0 then None
  else
    let mant := ip * 10 ^ Z.of_nat fc + fp in
    let finish (ex : Z) : option t :=
      let x := ex - Z.of_nat fc in
      Some (if 0 <=? x then round_nearest neg (mant * 10 ^ x) 1
            else round_nearest neg mant (10 ^ (- x))) in
    match r2 with
    | EmptyString => finish 0
    | String c r =>
        if Ascii.eqb c "e" || Ascii.eqb c "E" then
          let '(eneg, r') := Str.split_sign r in
          let '(ev, ec, r3) := Str.scan_digits 0 0 r' in
          if negb (Nat.eqb ec 0) && String.eqb r3 EmptyString
          then finish (if eneg then - ev else ev)
          else None
        else None
    end.

(** [float(s)]: [None] stands for ValueError. *)
Definition of_string (s : string) : option t :=
  let '(neg, u) := Str.split_sign (Str.number_strip s) in
  let l := Str.lower u in
  if String.eqb l "inf" || String.eqb l "infinity" then Some (Inf neg)
  else if String.eqb l "nan" then Some NaN
  else parse_decimal neg u.

End Float.

(** ** [datetime]: proleptic Gregorian calendar and [timedelta] *)

Module Date.

Definition DI400Y : Z := 146097.
Definition DI100Y : Z := 36524.
Definition DI4Y : Z := 1461.

Definition DAYS_IN_MONTH : list Z :=
  [-1; 31; 28; 31; 30; 31; 30; 31; 31; 30; 31; 30; 31].

Definition DAYS_BEFORE_MONTH : list Z :=
  [-1; 0; 31; 59; 90; 120; 151; 181; 212; 243; 273; 304; 334].

Definition Z_of_bool (b : bool) : Z := if b then 1 else 0.

(** [datetime._ord2ymd]: ordinal (day 1 is 0001-01-01) to year, month,
    day. *)
Definition ord2ymd (ordinal : Z) : Z * Z * Z :=
  let n := ordinal - 1 in
  let n400 := n / DI400Y in
  let n := n mod DI400Y in
  let year := n400 * 400 + 1 in
  let n100 := n / DI100Y in
  let n := n mod DI100Y in
  let n4 := n / DI4Y in
  let n := n mod DI4Y in
  let n1 := n / 365 in
  let n := n mod 365 in
  let year := year + n100 * 100 + n4 * 4 + n1 in
  if (n1 =? 4) || (n100 =? 4) then (year - 1, 12, 31)
  else
    let leapyear := (n1 =? 3) && (negb (n4 =? 24) || (n100 =? 3)) in
    let month := Z.shiftr (n + 50) 5 in
    let preceding :=
      nth (Z.to_nat month) DAYS_BEFORE_MONTH 0
      + Z_of_bool ((2 <? month) && leapyear) in
    if n <? preceding then
      let month := month - 1 in
      let preceding :=
        preceding - (nth (Z.to_nat month) DAYS_IN_MONTH 0
                     + Z_of_bool ((month =? 2) && leapyear)) in
      (year, month, n - preceding + 1)
    else (year, month, n - preceding + 1).

(** Ordinal of [datetime(1899, 12, 30)] and of [datetime.max]. *)
Definition excel_epoch : Z := 693594.
Definition max_ordinal : Z := 3652059.

Definition us_per_day : Z := 86400000000.
Definition max_delta_days : Z := 999999999.

(** Nearest integer, ties to even, of a finite binary64 value. *)
Definition rne_int (f : Float.t) : Z :=
  match f with
  | Float.Fin m e =>
      if 0 <=? e then m * 2 ^ e
      else Z.sgn m * Float.div_rne (Z.abs m) (2 ^ (- e))
  | _ => 0
  end.

(** [timedelta(days=f).days].  The whole days are converted exactly; the
    fractional day is multiplied by the microseconds per day in binary64
    and rounded to a whole microsecond, ties to even.  [None] stands for
    the OverflowError or ValueError of a non-finite argument and for the
    OverflowError beyond 999999999 days. *)
Definition timedelta_days (f : Float.t) : option Z :=
  match f with
  | Float.Fin m e =>
      let den := if 0 <=? e then 1 else 2 ^ (- e) in
      let num := if 0 <=? e then m * 2 ^ e else m in
      let intpart := Z.quot num den in
      let frac := Z.rem num den in
      let us :=
        if frac =? 0 then intpart * us_per_day
        else
          intpart * us_per_day
          + rne_int (Float.round_nearest (frac <? 0) (us_per_day * Z.abs frac) den) in
      let days := us / us_per_day in
      if Z.abs days <=? max_delta_days then Some days else None
  | _ => None
  end.

(** [datetime(1899, 12, 30) + timedelta(days=f)], as year, month, day;
    [None] stands for OverflowError. *)
Definition excel_serial (f : Float.t) : option (Z * Z * Z) :=
  match timedelta_days f with
  | Some days =>
      let ordinal := excel_epoch + days in
      if (1 <=? ordinal) && (ordinal <=? max_ordinal) then Some (ord2ymd ordinal)
      else None
  | None => None
  end.

(** The decimal digit of [n] at the units place, as a character. *)
Definition digit_char (n : Z) : ascii := ascii_of_N (Z.to_N (48 + n mod 10)).

(** [%m] and [%d]: two digits. *)
Definition two_digits (n : Z) : string :=
  String (digit_char (n / 10)) (String (digit_char n) EmptyString).

(** [%Y] for the years 1000 to 9999; the dates of [excel_serial] that
    pass the 10000-day threshold start in 1927. *)
Definition four_digits (n : Z) : string :=
  String (digit_char (n / 1000))
    (String (digit_char (n / 100))
       (String (digit_char (n / 10)) (String (digit_char n) EmptyString))).

(** [dt.strftime('%Y-%m-%d')] *)
Definition strftime (ymd : Z * Z * Z) : string :=
  let '(y, m, d) := ymd in
  four_digits y ++ "-" ++ two_digits m ++ "-" ++ two_digits d.

End Date.

(** ** Python [dict]: association lists in insertion order *)

Section Dict.

Context {K V : Type} (eqb : K -> K -> bool).

(** [k in d] *)
Fixpoint dict_mem (d : list (K * V)) (k : K) : bool :=
  match d with
  | [] => false
  | (k', _) :: r => eqb k' k || dict_mem r k
  end.

(** [d.get(k)] *)
Fixpoint dict_get (d : list (K * V)) (k : K) : option V :=
  match d with
  | [] => None
  | (k', v) :: r => if eqb k' k then Some v else dict_get r k
  end.

(** [d[k] = v]: an existing key keeps its place, a new one goes last. *)
Fixpoint dict_set (d : list (K * V)) (k : K) (v : V) : list (K * V) :=
  match d with
  | [] => [(k, v)]
  | (k', v') :: r =>
      if eqb k' k then (k', v) :: r else (k', v') :: dict_set r k v
  end.

End Dict.

Section DictOfLists.

Context {K A : Type} (eqb : K -> K -> bool).

(** [if k not in d: d[k] = []] *)
Definition dict_ensure (d : list (K * list A)) (k : K) : list (K * list A) :=
  if dict_mem eqb d k then d else (d ++ [(k, [])])%list.

(** [d[k].append(x)] for a key that is present. *)
Fixpoint dict_append (d : list (K * list A)) (k : K) (x : A) : list (K * list A) :=
  match d with
  | [] => []
  | (k', l) :: r =>
      if eqb k' k then (k', (l ++ [x])%list) :: r
      else (k', l) :: dict_append r k x
  end.

End DictOfLists.

(** Equality of tuples of strings. *)
Fixpoint tuple_eqb (a b : list string) : bool :=
  match a, b with
  | [], [] => true
  | x :: a', y :: b' => String.eqb x y && tuple_eqb a' b'
  | _, _ => false
  end.

(** ** The table and the fixed configuration *)

(** A cell of the loaded frame ([dtype=str]): NaN or text. *)
Inductive Cell : Type :=
| CNaN
| CStr (s : string).

Record DataFrame : Type := {
  columns : list string;
  rows : list (list Cell)
}.

(** A row of the processed frame: every column with its canonical text.
    Column names of a frame are distinct. *)
Definition Row : Type := list (string * string).

(** [row[col]]; the columns asked for always come from the header. *)
Definition row_get (row : Row) (col : string) : string :=
  match dict_get String.eqb row col with
  | Some v => v
  | None => ""
  end.

Definition STANDARD_KEY_COLUMNS : list string :=
  ["日期"; "清美出库日期"; "运单号码"; "清美系统订单号";
   "寄件地区"; "到件地区"; "对方公司名称"; "箱数"; "计费重量"; "产品类型"].

Definition COLUMN_MAPPING : list (string * string) :=
  [("费用(元)", "费用")].

Definition date_keywords : list string := ["日期"; "时间"; "Date"; "Time"].

Definition monetary_columns : list string := ["费用"; "单票折扣"; "应付金额"].

Definition str_in (x : string) (l : list string) : bool :=
  existsb (String.eqb x) l.

(** [COLUMN_MAPPING.get(col, col)] *)
Definition output_name (col : string) : string :=
  match dict_get String.eqb COLUMN_MAPPING col with
  | Some n => n
  | None => col
  end.

(** ** Cell normalisation *)

(** [any(keyword in str(col) for keyword in date_keywords)] *)
Definition is_date_column (col : string) : bool :=
  existsb (fun keyword => Str.contains keyword col) date_keywords.

(** The serial-number block of [format_excel_date]; [None] when the block
    falls through, by its condition or by a swallowed exception. *)
Definition excel_serial_text (val_str : string) : option string :=
  if Str.isdigit (Str.replace_first "." val_str) then
    match Float.of_string val_str with
    | Some float_val =>
        if Float.gtb float_val 10000
        then option_map Date.strftime (Date.excel_serial float_val)
        else None
    | None => None
    end
  else None.

(** [series.astype(str)] on one cell. *)
Definition astype_str (c : Cell) : string :=
  match c with
  | CNaN => "nan"
  | CStr s => s
  end.

(** [lambda x: "" if x == "nan" else (x[:-2] if x.endswith('.0') else x)] *)
Definition trim_nan (x : string) : string :=
  if String.eqb x "nan" then ""
  else if Str.endswith x ".0" then Str.drop_last2 x else x.

(** [str(int(float(val)))], [None] when any of the three raises. *)
Definition int_text_of_float_text (val : string) : option string :=
  match Float.of_string val with
  | Some f =>
      match Float.to_int f with
      | Some z => Some (Str.of_Z z)
      | None => None
      end
  | None => None
  end.

Definition fix_sci (val : string) : string :=
  if Str.contains "e+" (Str.lower val) then
    match int_text_of_float_text val with
    | Some r => r
    | None => val
    end
  else val.

Section Normalizer.

Variable to_datetime : string -> option string.

(** [format_excel_date] on a cell of the frame.  A cell is NaN or a
    [str], so the branches for [datetime] objects and for numbers are not
    entered, and [hasattr(value, 'strftime')] is false. *)
Definition format_excel_date (value : Cell) : string :=
  match value with
  | CNaN => ""
  | CStr v =>
      if String.eqb v "" || String.eqb (Str.lower v) "nan" then ""
      else
        let val_str := Str.strip v in
        match excel_serial_text val_str with
        | Some d => d
        | None =>
            if negb (Str.isdigit val_str) then
              match to_datetime val_str with
              | Some d => d
              | None => val_str
              end
            else val_str
        end
  end.

(** One cell through the three column passes of [process_data]. *)
Definition normalize (col : string) (value : Cell) : string :=
  let dated :=
    if is_date_column col then CStr (format_excel_date value) else value in
  fix_sci (trim_nan (astype_str dated)).

Fixpoint normalize_row (cols : list string) (cells : list Cell) : Row :=
  match cols, cells with
  | col :: cols', c :: cells' => (col, normalize col c) :: normalize_row cols' cells'
  | _, _ => []
  end.

(** [processed_df], row by row. *)
Definition process_frame (df : DataFrame) : list Row :=
  map (normalize_row (columns df)) (rows df).

End Normalizer.

(** ** Key and detail columns *)

(** The checkbox loop: checked columns and unchecked columns, each in
    table order.  There is one checkbox per column of the frame. *)
Fixpoint split_columns (cols : list string) (checks : list bool)
  : list string * list string :=
  match cols, checks with
  | col :: cols', cb :: checks' =>
      let '(selected, detail) := split_columns cols' checks' in
      if cb then (col :: selected, detail) else (selected, col :: detail)
  | _, _ => ([], [])
  end.

(** Standard key columns first, in their standard order, then the other
    selected columns in table order. *)
Definition order_key_columns (selected_columns : list string) : list string :=
  let key_columns :=
    filter (fun std_col => str_in std_col selected_columns) STANDARD_KEY_COLUMNS in
  let remaining_keys :=
    filter (fun col => negb (str_in col key_columns)) selected_columns in
  (key_columns ++ remaining_keys)%list.

(** ** Detail records *)

Inductive PyVal : Type :=
| VStr (s : string)
| VInt (z : Z)
| VFloat (f : Float.t)
| VNone.             (* None: the value of a cell that holds nothing *)

Definition Detail : Type := list (string * PyVal).

(** The conversion of one detail value.  [val] is always a [str] here;
    an exception leaves [final_val] as last assigned. *)
Definition coerce (output_col_name val : string) : PyVal :=
  if Str.isdigit (Str.replace_first "." val) then
    if Str.contains "." val then
      match Float.of_string val with
      | Some f => VFloat f
      | None => VStr val
      end
    else
      match Str.py_int val with
      | Some z =>
          if str_in output_col_name monetary_columns then
            match Float.of_string val with
            | Some f => VFloat f
            | None => VInt z
            end
          else VInt z
      | None => VStr val
      end
  else VStr val.

(** [detail_item], filled column by column. *)
Definition build_detail (detail_columns : list string) (row : Row) : Detail :=
  fold_left
    (fun detail_item col =>
       let output_col_name := output_name col in
       dict_set String.eqb detail_item output_col_name
                (coerce output_col_name (row_get row col)))
    detail_columns [].

(** ** Grouping *)

Definition key_tuple_of (key_columns : list string) (row : Row) : list string :=
  map (row_get row) key_columns.

Definition key_str_of (key_columns : list string) (row : Row) : string :=
  Str.join "_" (map (row_get row) key_columns).

Section Grouping.

(** The record appended for a row; [build_detail] in [process_data]. *)
Context {A : Type} (item_of : Row -> A).

Definition Groups : Type := list (list string * list A).
Definition JsonDict : Type := list (string * list A).

Definition group_step (key_columns : list string)
  (st : Groups * JsonDict) (row : Row) : Groups * JsonDict :=
  let '(groups, json_data_dict) := st in
  let key_tuple := key_tuple_of key_columns row in
  let key_str := key_str_of key_columns row in
  let groups := dict_ensure tuple_eqb groups key_tuple in
  let json_data_dict := dict_ensure String.eqb json_data_dict key_str in
  let detail_item := item_of row in
  (dict_append tuple_eqb groups key_tuple detail_item,
   dict_append String.eqb json_data_dict key_str detail_item).

Definition grouping_pass (key_columns : list string) (processed : list Row)
  : Groups * JsonDict :=
  fold_left (group_step key_columns) processed ([], []).

End Grouping.

(** ** The result sheet *)

(** The worksheet as [wb.save] receives it: the value of every cell, row
    by row ([VNone] for a cell emptied by a merge), the merged regions and
    the cells that were given the centred alignment. *)
Record Sheet : Type := {
  sheet_rows : list (list PyVal);
  merged : list (Z * Z * Z * Z);   (* start_row, start_column, end_row, end_column *)
  centered : list (Z * Z)          (* row, column *)
}.

(** [item.get(col_name, "")] *)
Definition detail_get (item : Detail) (col_name : string) : PyVal :=
  match dict_get String.eqb item col_name with
  | Some v => v
  | None => VStr ""
  end.

(** The cells written for one detail record. *)
Definition sheet_row (group_index : Z) (key_tuple : list string)
  (output_detail_headers : list string) (item : Detail) : list PyVal :=
  (VInt group_index :: map VStr key_tuple
   ++ map (detail_get item) output_detail_headers)%list.

(** Columns [2 .. len(key_columns) + 1]. *)
Definition key_column_indexes (key_columns : list string) : list Z :=
  map (fun i => Z.of_nat i + 2) (seq 0 (List.length key_columns)).

(** [f] applied to every element together with its position, counted
    from [i]. *)
Fixpoint map_indexed {X : Type} (f : Z -> X -> X) (i : Z) (l : list X) : list X :=
  match l with
  | [] => []
  | x :: r => f i x :: map_indexed f (i + 1) r
  end.

(** What [ws.merge_cells] does to the cells: every cell of the block
    [start_row .. end_row] by [start_column .. end_column] except the one
    at the top left is replaced by an empty [MergedCell], so its value is
    lost.  Rows and columns are counted from 1. *)
Definition clean_merge_range (m : Z * Z * Z * Z) (cells : list (list PyVal))
  : list (list PyVal) :=
  let '(start_row, start_column, end_row, end_column) := m in
  map_indexed
    (fun r row =>
       map_indexed
         (fun c v =>
            if (start_row <=? r) && (r <=? end_row)
               && (start_column <=? c) && (c <=? end_column)
               && negb ((r =? start_row) && (c =? start_column))
            then VNone else v)
         1 row)
    1 cells.

(** One turn of the loop over [groups.items()]; the state is [row_num],
    [group_index] and the sheet.  The rows of the group are written first
    ([row_num] is the row after the last one of the sheet), then the
    sequence column and the key columns are merged over them when the
    group has more than one row. *)
Definition write_group (key_columns output_detail_headers : list string)
  (st : Z * Z * Sheet) (g : list string * list Detail) : Z * Z * Sheet :=
  let '(row_num, group_index, ws) := st in
  let '(key_tuple, items) := g in
  let start_row := row_num in
  let row_num := row_num + Z.of_nat (List.length items) in
  let end_row := row_num - 1 in
  let spans := start_row <? end_row in
  let cols := key_column_indexes key_columns in
  (row_num, group_index + 1,
   {| sheet_rows :=
        fold_left (fun cells m => clean_merge_range m cells)
          (if spans
           then (start_row, 1, end_row, 1)
                :: map (fun c => (start_row, c, end_row, c)) cols
           else [])
          (sheet_rows ws
           ++ map (sheet_row group_index key_tuple output_detail_headers) items)%list;
      merged :=
        (merged ws
         ++ (if spans then [(start_row, 1, end_row, 1)] else [])
         ++ (if spans then map (fun c => (start_row, c, end_row, c)) cols else []))%list;
      centered :=
        (centered ws ++ (start_row, 1) :: map (fun c => (start_row, c)) cols)%list |}).

Definition build_sheet (key_columns detail_columns : list string)
  (groups : list (list string * list Detail)) : Sheet :=
  let output_detail_headers := map output_name detail_columns in
  let headers :=
    (VStr "序号" :: map VStr key_columns ++ map VStr output_detail_headers)%list in
  let ws := {| sheet_rows := [headers]; merged := []; centered := [] |} in
  snd (fold_left (write_group key_columns output_detail_headers) groups (2, 1, ws)).

(** ** Dialogs and files *)

Inductive Event : Type :=
| EvWarning (text : string)
| EvCritical (text : string)
| EvInformation (text : string)
| EvSaveXlsx (path : string) (ws : Sheet)
| EvPartial (path : string)     (* left at [path] by a call that raised *)
| EvMakedirs (path : string)
| EvOpenWrite (path : string)
| EvJsonDump (path : string) (data : list (string * list Detail)).

(** What the surroundings answer during one run. *)
Record World : Type := {
  save_file_dialog : string;               (* QFileDialog.getSaveFileName; empty when cancelled *)
  path_stem : string -> string;            (* os.path.splitext(os.path.basename(p))[0] *)
  path_join : string -> string -> string;  (* os.path.join *)
  wb_save_error : option string;           (* exception of wb.save *)
  wb_save_partial : bool;                  (* ... raised after the file was created *)
  makedirs_error : option string;          (* exception of os.makedirs *)
  makedirs_partial : bool;                 (* ... raised after some directory was created *)
  open_error : option string;              (* exception of open(json_path, 'w') *)
  json_dump_error : option string;         (* exception of json.dump *)
  json_dump_partial : bool                 (* ... raised after some text was written *)
}.

Inductive Res (A : Type) : Type :=
| Ok (a : A)
| Raised (msg : string).

Arguments Ok {A} a.
Arguments Raised {A} msg.

(** Computations that append to the event log and may raise. *)
Definition IO (A : Type) : Type := list Event -> Res A * list Event.

Definition ret {A : Type} (a : A) : IO A := fun log => (Ok a, log).

Definition bind {A B : Type} (c : IO A) (k : A -> IO B) : IO B :=
  fun log =>
    match c log with
    | (Ok a, log') => k a log'
    | (Raised msg, log') => (Raised msg, log')
    end.

Notation "c1 ;; c2" := (bind c1 (fun _ => c2))
  (at level 61, right associativity).

Definition emit (e : Event) : IO unit := fun log => (Ok tt, (log ++ [e])%list).

Definition raise {A : Type} (msg : string) : IO A := fun log => (Raised msg, log).

(** A call into the file system.  When it returns, its effect is logged.
    When it raises, nothing it has done so far is undone: [wb.save]
    creates the file before it writes the sheet into it, [os.makedirs]
    creates the missing directories one after the other, [json.dump]
    writes the text piece by piece.  [partial] tells whether the call had
    begun to write when it raised; what it left behind is logged as
    [EvPartial]. *)
Definition sys_call (error : option string) (partial : bool) (path : string)
  (effect : Event) : IO unit :=
  match error with
  | Some msg => (if partial then emit (EvPartial path) else ret tt) ;; raise msg
  | None => emit effect
  end.

(** [try: body except Exception as e: handler(str(e))] *)
Definition try_except (body : IO unit) (handler : string -> IO unit) : IO unit :=
  fun log =>
    match body log with
    | (Ok a, log') => (Ok a, log')
    | (Raised msg, log') => handler msg log'
    end.

Definition newline : string := String (ascii_of_nat 10) EmptyString.

Definition json_output_dir : string :=
  "d:\I_LOVE_KUNKUN\12月\华东3组-董谷-清美-合单需求\json数据".

Section ProcessData.

Variable to_datetime : string -> option string.
Variable world : World.

(** Steps 3 to 6 of [process_data], after a save path was chosen. *)
Definition export_all (df : DataFrame) (key_columns detail_columns : list string)
  (save_path : string) : IO unit :=
  let processed_df := process_frame to_datetime df in
  let '(groups, json_data_dict) :=
    grouping_pass (build_detail detail_columns) key_columns processed_df in
  let ws := build_sheet key_columns detail_columns groups in
  sys_call (wb_save_error world) (wb_save_partial world) save_path
    (EvSaveXlsx save_path ws) ;;
  sys_call (makedirs_error world) (makedirs_partial world) json_output_dir
    (EvMakedirs json_output_dir) ;;
  let base_filename := path_stem world save_path in
  let json_filename := base_filename ++ "_data.json" in
  let json_path := path_join world json_output_dir json_filename in
  sys_call (open_error world) false json_path (EvOpenWrite json_path) ;;
  sys_call (json_dump_error world) (json_dump_partial world) json_path
    (EvJsonDump json_path json_data_dict) ;;
  emit (EvInformation
          ("Excel文件已保存至:" ++ newline ++ save_path ++ newline ++ newline
           ++ "JSON文件已保存至:" ++ newline ++ json_path)).

Definition process_data_io (df : option DataFrame) (checks : list bool) : IO unit :=
  match df with
  | None => ret tt
  | Some df =>
      let '(selected_columns, detail_columns) := split_columns (columns df) checks in
      let key_columns := order_key_columns selected_columns in
      match key_columns with
      | [] => emit (EvWarning "请至少选择一列作为合并依据（Key）")
      | _ :: _ =>
          try_except
            (let save_path := save_file_dialog world in
             if String.eqb save_path "" then ret tt
             else export_all df key_columns detail_columns save_path)
            (fun msg => emit (EvCritical ("处理失败: " ++ msg)))
      end
  end.

(** Everything one click on the export button does. *)
Definition process_data (df : option DataFrame) (checks : list bool) : list Event :=
  snd (process_data_io df checks []).

End ProcessData.

(** Which artefacts a run left behind: the spreadsheet and the JSON
    export are written when their call returned; a file or directory is
    touched by every call that wrote something, whether it returned or
    not. *)
Definition xlsx_written (log : list Event) : bool :=
  existsb (fun e => match e with EvSaveXlsx _ _ => true | _ => false end) log.

Definition json_written (log : list Event) : bool :=
  existsb (fun e => match e with EvJsonDump _ _ => true | _ => false end) log.

Definition file_touched (log : list Event) : bool :=
  existsb (fun e =>
             match e with
             | EvSaveXlsx _ _ | EvPartial _ | EvMakedirs _ | EvOpenWrite _
             | EvJsonDump _ _ => true
             | _ => false
             end) log.

(** ** Vocabulary of the specification *)

Fixpoint all_chars (P : ascii -> bool) (s : string) : bool :=
  match s with
  | EmptyString => true
  | String c r => P c && all_chars P r
  end.

Fixpoint count_char (c : ascii) (s : string) : nat :=
  match s with
  | EmptyString => O
  | String a r => if Ascii.eqb a c then S (count_char c r) else count_char c r
  end.

Definition digit_or_dot (c : ascii) : bool := Str.is_digit c || Ascii.eqb c ".".

Definition digit_or_dash (c : ascii) : bool := Str.is_digit c || Ascii.eqb c "-".

(** Characters left alone by every text test of the normaliser. *)
Definition plain_char (c : ascii) : bool :=
  Str.is_digit c || Ascii.eqb c "." || Ascii.eqb c "-".

(** A CJK unified ideograph, U+4E00 to U+9FFF: in UTF-8 the three bytes
    from E4 B8 80 to E9 BF BF. *)
Definition is_ideograph (a b c : ascii) : bool :=
  let x := N_of_ascii a in
  let y := N_of_ascii b in
  let z := N_of_ascii c in
  (((x =? 228) && (184 <=? y) && (y <=? 191))
   || ((229 <=? x) && (x <=? 233) && (128 <=? y) && (y <=? 191)))%N
  && ((128 <=? z) && (z <=? 191))%N.

(** Text of ASCII characters and CJK unified ideographs.  On such text
    the character classes of [Str] are exactly those of Python's [str]
    methods, of [int] and of [float]: no ideograph is a digit, white space
    or a cased letter for Python.  Beyond it Python also counts the digits
    and the white space of other scripts (the full-width digits,
    U+3000). *)
Fixpoint ascii_or_cjk_text (s : string) : bool :=
  match s with
  | EmptyString => true
  | String a r =>
      if (N_of_ascii a <? 128)%N then ascii_or_cjk_text r
      else
        match r with
        | String b (String c r') => is_ideograph a b c && ascii_or_cjk_text r'
        | _ => false
        end
  end.

(** "Digits with at most one decimal point": only digits and points, at
    most one point, at least one digit. *)
Definition numeric_looking (s : string) : bool :=
  all_chars digit_or_dot s
  && Nat.leb (count_char "." s) 1
  && negb (all_chars (fun c => negb (Str.is_digit c)) s).

(** Text of the shape YYYY-MM-DD. *)
Definition iso_date_shape (s : string) : bool :=
  match s with
  | String y1 (String y2 (String y3 (String y4 (String h1
      (String m1 (String m2 (String h2 (String d1 (String d2 EmptyString))))))))) =>
      Ascii.eqb h1 "-" && Ascii.eqb h2 "-"
      && forallb Str.is_digit [y1; y2; y3; y4; m1; m2; d1; d2]
  | _ => false
  end.

(** Text of an integer: an optional minus sign and digits. *)
Definition integer_text (s : string) : bool :=
  match s with
  | String "-" r => Str.isdigit r
  | _ => Str.isdigit s
  end.

(** The exponent marker of scientific notation: the letter [e], in either
    letter case. *)
Definition has_exponent_marker (s : string) : bool :=
  Str.contains "e" (Str.lower s).

(** The last column of [cols] written under the output name [name]. *)
Definition last_source (cols : list string) (name : string) : option string :=
  fold_left
    (fun found col => if String.eqb (output_name col) name then Some col else found)
    cols None.

(** The filling loop of [detail_item], started from any record. *)
Definition fill_detail (row : Row) (detail_item : Detail) (cols : list string) : Detail :=
  fold_left
    (fun detail_item col =>
       let output_col_name := output_name col in
       dict_set String.eqb detail_item output_col_name
                (coerce output_col_name (row_get row col)))
    cols detail_item.

Definition last_source_from (found : option string) (cols : list string)
  (name : string) : option string :=
  fold_left
    (fun found col => if String.eqb (output_name col) name then Some col else found)
    cols found.

(** One index built on its own: what [group_step] does to each of its
    two dictionaries. *)
Definition index_step {K A : Type} (eqb : K -> K -> bool)
  (key_of : Row -> K) (item_of : Row -> A)
  (d : list (K * list A)) (row : Row) : list (K * list A) :=
  dict_append eqb (dict_ensure eqb d (key_of row)) (key_of row) (item_of row).

(** The string index obtained from a tuple index by joining each key. *)
Definition join_keys {A : Type} (groups : list (list string * list A))
  : list (string * list A) :=
  map (fun g => (Str.join "_" (fst g), snd g)) groups.

(** A key tuple of [n] parts, none of which holds the separator. *)
Definition clean_key (n : nat) (k : list string) : Prop :=
  List.length k = n /\ Forall (fun v => Str.contains "_" v = false) k.

Definition clean_keys {A : Type} (n : nat)
  (groups : list (list string * list A)) : Prop :=
  Forall (fun g => clean_key n (fst g)) groups.

(** The record of [row] sits in the group filed under the key of [row]. *)
Definition filed {K A : Type} (eqb : K -> K -> bool)
  (key_of : Row -> K) (item_of : Row -> A)
  (d : list (K * list A)) (row : Row) : Prop :=
  exists items, dict_get eqb d (key_of row) = Some items /\ In (item_of row) items.

(** What a call that raised has left at [path]. *)
Definition partial_trace (partial : bool) (path : string) : list Event :=
  if partial then [EvPartial path] else [].

(** A [pd.to_datetime] that recognises no text. *)
Definition no_dates (s : string) : option string := None.

(** A world in which every file-system call succeeds. *)
Definition calm_world (save_path : string) : World :=
  {| save_file_dialog := save_path;
     path_stem := fun p => p;
     path_join := fun a b => a ++ "\" ++ b;
     wb_save_error := None;
     wb_save_partial := false;
     makedirs_error := None;
     makedirs_partial := false;
     open_error := None;
     json_dump_error := None;
     json_dump_partial := false |}.

(** ** [format_excel_date] on values that are not text *)

(** The values [format_excel_date] distinguishes, apart from [float]
    objects (whose fallback text is their [repr]) and [bool]: a missing
    marker, text, a [datetime] (only its date matters) and an [int]. *)
Inductive PyAny : Type :=
| ANaN
| AStr (s : string)
| ADatetime (year month day : Z)
| AInt (n : Z).

(** [float(n)] for an [int]: the nearest binary64 value.  An [int] too
    large for a float raises OverflowError in Python; here it rounds to an
    infinity, on which [timedelta] raises as well. *)
Definition float_of_int (n : Z) : Float.t :=
  Float.round_nearest (n <? 0) (Z.abs n) 1.

(** [str(n)] for an [int]: [None] stands for the ValueError raised when
    the number has more than [Str.int_max_str_digits] digits, that is from
    [10 ^ 4300] on in absolute value. *)
Definition str_of_int (n : Z) : option string :=
  if Z.abs n <? 10 ^ Z.of_nat Str.int_max_str_digits
  then Some (Str.of_Z n) else None.

Section FormatAny.

Variable to_datetime : string -> option string.

(** [format_excel_date] on any of these values; [None] stands for an
    exception that leaves the function.  The first test evaluates
    [str(value)] outside every [try], so an [int] too long to be printed
    makes the function raise; the number branch prints the number again in
    its handler.  Years below 1000 are padded to four digits, as the C
    library of the program's platform does. *)
Definition format_excel_date_any (value : PyAny) : option string :=
  match value with
  | ANaN => Some (format_excel_date to_datetime CNaN)
  | AStr s => Some (format_excel_date to_datetime (CStr s))
  | ADatetime y m d => Some (Date.strftime (y, m, d))
  | AInt n =>
      match str_of_int n with
      | None => None
      | Some text =>
          match Date.excel_serial (float_of_int n) with
          | Some ymd => Some (Date.strftime ymd)
          | None => Some text
          end
      end
  end.

End FormatAny.

(** ** The window: files, sheets, check boxes, preview *)

Record App : Type := {
  file_path : string;
  df : option DataFrame;
  column_checkboxes : list (string * bool);   (* label, checked *)
  combo_sheet : list string;                  (* items of the sheet selector *)
  combo_current : string;                     (* combo_sheet.currentText() *)
  spin_header_row : Z;
  table_preview : list string * list (list string);   (* header labels, rows *)
  btn_process_enabled : bool
}.

(** The state built by [__init__]. *)
Definition initial_app : App :=
  {| file_path := "";
     df := None;
     column_checkboxes := [];
     combo_sheet := [];
     combo_current := "";
     spin_header_row := 2;
     table_preview := ([], []);
     btn_process_enabled := false |}.

(** One check box per column, checked when the column is a standard key
    column. *)
Definition update_column_selectors (a : App) : App :=
  {| file_path := file_path a;
     df := df a;
     column_checkboxes :=
       match df a with
       | Some d => map (fun col => (col, str_in col STANDARD_KEY_COLUMNS)) (columns d)
       | None => []
       end;
     combo_sheet := combo_sheet a;
     combo_current := combo_current a;
     spin_header_row := spin_header_row a;
     table_preview := table_preview a;
     btn_process_enabled := btn_process_enabled a |}.

Definition toggle_all (checked : bool) (a : App) : App :=
  {| file_path := file_path a;
     df := df a;
     column_checkboxes := map (fun cb => (fst cb, checked)) (column_checkboxes a);
     combo_sheet := combo_sheet a;
     combo_current := combo_current a;
     spin_header_row := spin_header_row a;
     table_preview := table_preview a;
     btn_process_enabled := btn_process_enabled a |}.

(** The text shown for a cell: empty for a missing value. *)
Definition preview_text (c : Cell) : string :=
  match c with
  | CNaN => ""
  | CStr s => s
  end.

(** The first 50 rows. *)
Definition update_preview (a : App) : App :=
  match df a with
  | None => a
  | Some d =>
      {| file_path := file_path a;
         df := df a;
         column_checkboxes := column_checkboxes a;
         combo_sheet := combo_sheet a;
         combo_current := combo_current a;
         spin_header_row := spin_header_row a;
         table_preview := (columns d, map (map preview_text) (firstn 50 (rows d)));
         btn_process_enabled := btn_process_enabled a |}
  end.

Definition is_nan (c : Cell) : bool :=
  match c with
  | CNaN => true
  | CStr _ => false
  end.

(** [df.dropna(how='all', axis=0)]: rows whose cells are all missing are
    removed. *)
Definition dropna_all (d : DataFrame) : DataFrame :=
  {| columns := columns d;
     rows := filter (fun r => negb (forallb is_nan r)) (rows d) |}.

(** [load_sheets]; [excel_file] answers [pd.ExcelFile(path).sheet_names]. *)
Definition load_sheets (excel_file : string -> Res (list string)) (a : App)
  : App * list Event :=
  match excel_file (file_path a) with
  | Ok names =>
      ({| file_path := file_path a;
          df := df a;
          column_checkboxes := column_checkboxes a;
          combo_sheet := names;
          combo_current := hd "" names;
          spin_header_row := spin_header_row a;
          table_preview := table_preview a;
          btn_process_enabled := btn_process_enabled a |}, [])
  | Raised msg => (a, [EvCritical ("读取文件失败: " ++ msg)])
  end.

(** [select_file]; [chosen] is the path returned by the file dialog, empty
    when it is cancelled. *)
Definition select_file (chosen : string)
  (excel_file : string -> Res (list string)) (a : App) : App * list Event :=
  if String.eqb chosen "" then (a, [])
  else
    load_sheets excel_file
      {| file_path := chosen;
         df := df a;
         column_checkboxes := column_checkboxes a;
         combo_sheet := combo_sheet a;
         combo_current := combo_current a;
         spin_header_row := spin_header_row a;
         table_preview := table_preview a;
         btn_process_enabled := btn_process_enabled a |}.

(** [load_data]; [read_excel] answers [pd.read_excel] for a path, a sheet
    name and a zero-based header row. *)
Definition load_data (read_excel : string -> string -> Z -> Res DataFrame)
  (a : App) : App * list Event :=
  if String.eqb (file_path a) "" then (a, [])
  else
    let sheet_name := combo_current a in
    let header_row := spin_header_row a - 1 in
    match read_excel (file_path a) sheet_name header_row with
    | Ok loaded =>
        let d := dropna_all loaded in
        let a1 :=
          {| file_path := file_path a;
             df := Some d;
             column_checkboxes := column_checkboxes a;
             combo_sheet := combo_sheet a;
             combo_current := combo_current a;
             spin_header_row := spin_header_row a;
             table_preview := table_preview a;
             btn_process_enabled := btn_process_enabled a |} in
        let a3 := update_preview (update_column_selectors a1) in
        ({| file_path := file_path a3;
            df := df a3;
            column_checkboxes := column_checkboxes a3;
            combo_sheet := combo_sheet a3;
            combo_current := combo_current a3;
            spin_header_row := spin_header_row a3;
            table_preview := table_preview a3;
            btn_process_enabled := true |},
         [EvInformation
            ("成功加载 " ++ Str.of_Z (Z.of_nat (List.length (rows d))) ++ " 行数据")])
    | Raised msg => (a, [EvCritical ("加载数据失败: " ++ msg)])
    end.

(** What the user does to the widgets themselves. *)
Fixpoint set_checked (i : nat) (checked : bool) (cbs : list (string * bool))
  : list (string * bool) :=
  match cbs, i with
  | [], _ => []
  | cb :: r, O => (fst cb, checked) :: r
  | cb :: r, S i' => cb :: set_checked i' checked r
  end.

(** An action on the window, with what the surroundings answer to it. *)
Inductive Action : Type :=
| ActSelectFile (chosen : string) (excel_file : string -> Res (list string))
| ActLoadData (read_excel : string -> string -> Z -> Res DataFrame)
| ActToggleAll (checked : bool)
| ActSetChecked (i : nat) (checked : bool)
| ActChooseSheet (name : string)
| ActSetHeaderRow (n : Z).

Definition step (a : App) (act : Action) : App :=
  match act with
  | ActSelectFile chosen excel_file => fst (select_file chosen excel_file a)
  | ActLoadData read_excel => fst (load_data read_excel a)
  | ActToggleAll checked => toggle_all checked a
  | ActSetChecked i checked =>
      {| file_path := file_path a;
         df := df a;
         column_checkboxes := set_checked i checked (column_checkboxes a);
         combo_sheet := combo_sheet a;
         combo_current := combo_current a;
         spin_header_row := spin_header_row a;
         table_preview := table_preview a;
         btn_process_enabled := btn_process_enabled a |}
  | ActChooseSheet name =>
      {| file_path := file_path a;
         df := df a;
         column_checkboxes := column_checkboxes a;
         combo_sheet := combo_sheet a;
         combo_current := name;
         spin_header_row := spin_header_row a;
         table_preview := table_preview a;
         btn_process_enabled := btn_process_enabled a |}
  | ActSetHeaderRow n =>
      {| file_path := file_path a;
         df := df a;
         column_checkboxes := column_checkboxes a;
         combo_sheet := combo_sheet a;
         combo_current := combo_current a;
         spin_header_row := n;
         table_preview := table_preview a;
         btn_process_enabled := btn_process_enabled a |}
  end.

(** The states the window can be in. *)
Definition reachable (a : App) : Prop :=
  exists acts, a = fold_left step acts initial_app.

(** A click on the export button in the state [a]. *)
Definition click_process (to_datetime : string -> option string) (world : World)
  (a : App) : list Event :=
  process_data to_datetime world (df a) (map snd (column_checkboxes a)).

(** ** More vocabulary *)

(** The distinct elements of a list, in the order of their first
    occurrence. *)
Definition first_seen {K : Type} (eqb : K -> K -> bool) (l : list K) : list K :=
  fold_left (fun acc k => if existsb (eqb k) acc then acc else (acc ++ [k])%list) l [].

(** A row without its cell in column [c], counted from 1. *)
Definition clear_column (c : Z) (row : list PyVal) : list PyVal :=
  map_indexed (fun j v => if j =? c then VNone else v) 1 row.

(** The number of records held by an index. *)
Definition record_count {K A : Type} (d : list (K * list A)) : nat :=
  List.length (List.concat (map snd d)).

(** The rows of one group in the saved sheet: the first record's row is
    complete; in the rows of the other records the merges have emptied the
    sequence cell and the key cells, and the detail cells remain. *)
Definition group_block (group_index : Z) (output_detail_headers : list string)
  (g : list string * list Detail) : list (list PyVal) :=
  match snd g with
  | [] => []
  | item :: items =>
      sheet_row group_index (fst g) output_detail_headers item
      :: map (fun item =>
                (repeat VNone (1 + List.length (fst g))
                 ++ map (detail_get item) output_detail_headers)%list)
           items
  end.

(** The rows below the header: the blocks of the groups, numbered from
    [group_index]. *)
Fixpoint sheet_blocks (group_index : Z) (output_detail_headers : list string)
  (groups : list (list string * list Detail)) : list (list PyVal) :=
  match groups with
  | [] => []
  | g :: r =>
      (group_block group_index output_detail_headers g
       ++ sheet_blocks (group_index + 1) output_detail_headers r)%list
  end.

(** The sequence column below the header: group [i] contributes its
    number once, followed by one empty cell for each further record. *)
Fixpoint sequence_column {K A : Type} (group_index : Z) (d : list (K * list A))
  : list PyVal :=
  match d with
  | [] => []
  | g :: r =>
      (match snd g with
       | [] => []
       | _ :: items => VInt group_index :: repeat VNone (List.length items)
       end
       ++ sequence_column (group_index + 1) r)%list
  end.

(** A frame whose rows have one cell per column. *)
Definition rectangular (d : DataFrame) : Prop :=
  Forall (fun r => List.length r = List.length (columns d)) (rows d).

(** A merged region lies in one column among the sequence and key
    columns, and spans more than one row between [lo] and [hi]. *)
Definition region_ok (nkeys lo hi : Z) (m : Z * Z * Z * Z) : Prop :=
  let '(sr, sc, er, ec) := m in
  sc = ec /\ 1 <= sc <= 1 + nkeys /\ lo <= sr /\ sr < er /\ er <= hi.

Definition cell_ok (nkeys lo hi : Z) (p : Z * Z) : Prop :=
  let '(r, c) := p in lo <= r <= hi /\ 1 <= c <= 1 + nkeys.

(** What holds of the window in every state. *)
Definition app_invariant (a : App) : Prop :=
  match df a with
  | Some d =>
      map fst (column_checkboxes a) = columns d
      /\ Forall (fun r => forallb is_nan r = false) (rows d)
      /\ file_path a <> ""
      /\ btn_process_enabled a = true
  | None => column_checkboxes a = [] /\ btn_process_enabled a = false
  end.

(** * Properties *)

(** ** Characters and strings *)

Ltac ascii_cases c :=
  destruct c as [[|] [|] [|] [|] [|] [|] [|] [|]].

Lemma digit_or_dot_cases (c : ascii) :
  digit_or_dot c = true -> Str.is_digit c = true \/ c = "."%char.
Proof.
  unfold digit_or_dot. intros H. apply orb_true_iff in H.
  destruct H as [H | H]; [now left | right; now apply Ascii.eqb_eq].
Qed.

Lemma digit_or_dash_cases (c : ascii) :
  digit_or_dash c = true -> Str.is_digit c = true \/ c = "-"%char.
Proof.
  unfold digit_or_dash. intros H. apply orb_true_iff in H.
  destruct H as [H | H]; [now left | right; now apply Ascii.eqb_eq].
Qed.

Lemma plain_char_facts (c : ascii) :
  plain_char c = true ->
  (Str.is_space c = false /\ Str.is_number_space c = false) /\ Str.to_lower c = c
  /\ c <> "e"%char /\ c <> "n"%char /\ c <> "+"%char /\ c <> "_"%char.
Proof.
  ascii_cases c; vm_compute; intros H; try discriminate H;
    repeat split; congruence.
Qed.

Lemma all_chars_weaken (P Q : ascii -> bool) (s : string) :
  (forall c, P c = true -> Q c = true) ->
  all_chars P s = true -> all_chars Q s = true.
Proof.
  intros HPQ. induction s as [|c r IH]; simpl; [easy|].
  intros H. apply andb_true_iff in H. destruct H as [Hc Hr].
  rewrite (HPQ c Hc). simpl. now apply IH.
Qed.

Lemma all_chars_app (P : ascii -> bool) (a b : string) :
  all_chars P (a ++ b) = all_chars P a && all_chars P b.
Proof.
  induction a as [|c r IH]; simpl; [reflexivity|].
  now rewrite IH, andb_assoc.
Qed.

Lemma digit_plain (c : ascii) : Str.is_digit c = true -> plain_char c = true.
Proof. unfold plain_char. now intros ->. Qed.

Lemma digit_or_dot_plain (c : ascii) : digit_or_dot c = true -> plain_char c = true.
Proof.
  unfold plain_char, digit_or_dot. intros H. apply orb_true_iff in H.
  destruct H as [-> | ->]; [reflexivity | apply orb_true_iff; left; apply orb_true_r].
Qed.

Lemma digit_or_dash_plain (c : ascii) : digit_or_dash c = true -> plain_char c = true.
Proof.
  unfold plain_char, digit_or_dash. intros H. apply orb_true_iff in H.
  destruct H as [-> | ->]; [reflexivity | apply orb_true_r].
Qed.

Lemma plain_lower (s : string) : all_chars plain_char s = true -> Str.lower s = s.
Proof.
  induction s as [|c r IH]; simpl; [reflexivity|].
  intros H. apply andb_true_iff in H. destruct H as [Hc Hr].
  destruct (plain_char_facts c Hc) as (_ & Hl & _).
  now rewrite Hl, IH.
Qed.

Section PlainStrip.

Variable sp : ascii -> bool.
Hypothesis sp_plain : forall c, plain_char c = true -> sp c = false.

Lemma plain_lstrip (s : string) :
  all_chars plain_char s = true -> Str.lstrip_by sp s = s.
Proof.
  destruct s as [|c r]; simpl; [reflexivity|].
  intros H. apply andb_true_iff in H. destruct H as [Hc _].
  now rewrite (sp_plain c Hc).
Qed.

Lemma plain_rstrip (s : string) :
  all_chars plain_char s = true -> Str.rstrip_by sp s = s.
Proof.
  induction s as [|c r IH]; simpl; [reflexivity|].
  intros H. apply andb_true_iff in H. destruct H as [Hc Hr].
  rewrite (IH Hr). destruct r; [now rewrite (sp_plain c Hc) | reflexivity].
Qed.

Lemma plain_strip_by (s : string) :
  all_chars plain_char s = true -> Str.strip_by sp s = s.
Proof.
  intros H. unfold Str.strip_by. rewrite (plain_rstrip s H). now apply plain_lstrip.
Qed.

End PlainStrip.

Lemma plain_strip (s : string) : all_chars plain_char s = true -> Str.strip s = s.
Proof.
  apply plain_strip_by. intros c Hc. now destruct (plain_char_facts c Hc) as ((H & _) & _).
Qed.

Lemma plain_number_strip (s : string) :
  all_chars plain_char s = true -> Str.number_strip s = s.
Proof.
  apply plain_strip_by. intros c Hc. now destruct (plain_char_facts c Hc) as ((_ & H) & _).
Qed.

Lemma plain_no_exponent (s : string) :
  all_chars plain_char s = true -> Str.contains "e+" s = false.
Proof.
  induction s as [|c r IH]; [reflexivity|].
  cbn -[Ascii.ascii_dec].
  intros H. apply andb_true_iff in H. destruct H as [Hc Hr].
  rewrite (IH Hr), orb_false_r.
  destruct (plain_char_facts c Hc) as (_ & _ & He & _).
  destruct (Ascii.ascii_dec "e" c) as [E | E]; [congruence | reflexivity].
Qed.

Lemma plain_not_nan (s : string) :
  all_chars plain_char s = true -> String.eqb s "nan" = false.
Proof.
  destruct s as [|c r]; [reflexivity|]. simpl all_chars.
  intros H. apply andb_true_iff in H. destruct H as [Hc _].
  destruct (plain_char_facts c Hc) as (_ & _ & _ & Hn & _).
  apply String.eqb_neq. congruence.
Qed.

Lemma plain_fix_sci (s : string) : all_chars plain_char s = true -> fix_sci s = s.
Proof.
  intros H. unfold fix_sci.
  now rewrite (plain_lower s H), (plain_no_exponent s H).
Qed.

Lemma all_digits_all_chars (s : string) :
  Str.all_digits s = all_chars Str.is_digit s.
Proof. induction s as [|c r IH]; simpl; [reflexivity | now rewrite IH]. Qed.

Lemma endswith_split (s suf : string) :
  Str.endswith s suf = true -> exists p, s = p ++ suf.
Proof.
  induction s as [|c r IH]; cbn [Str.endswith]; intros H.
  - apply String.eqb_eq in H. exists EmptyString. now subst.
  - apply orb_true_iff in H. destruct H as [H | H].
    + apply String.eqb_eq in H. exists EmptyString. now subst.
    + destruct (IH H) as [p Hp]. exists (String c p). simpl. now rewrite <- Hp.
Qed.

Lemma endswith_app (p suf : string) : Str.endswith (p ++ suf) suf = true.
Proof.
  induction p as [|c r IH]; simpl.
  - destruct suf as [|a suf']; simpl.
    + reflexivity.
    + rewrite Ascii.eqb_refl, String.eqb_refl. reflexivity.
  - rewrite IH. apply orb_true_r.
Qed.

Lemma substring_prefix (p q : string) :
  substring 0 (String.length p) (p ++ q) = p.
Proof.
  induction p as [|c r IH]; simpl.
  - now destruct q.
  - now rewrite IH.
Qed.

Lemma length_app (p q : string) :
  String.length (p ++ q) = (String.length p + String.length q)%nat.
Proof. induction p as [|c r IH]; simpl; [reflexivity | now rewrite IH]. Qed.

Lemma drop_last2_app (p : string) (a b : ascii) :
  Str.drop_last2 (p ++ String a (String b EmptyString)) = p.
Proof.
  unfold Str.drop_last2. rewrite length_app. simpl String.length.
  replace (String.length p + 2 - 2)%nat with (String.length p) by lia.
  apply substring_prefix.
Qed.

Lemma count_char_app (c : ascii) (p q : string) :
  count_char c (p ++ q) = (count_char c p + count_char c q)%nat.
Proof.
  induction p as [|a r IH]; simpl; [reflexivity|].
  destruct (Ascii.eqb a c); simpl; now rewrite IH.
Qed.

Lemma endswith_dot0_has_dot (s : string) :
  Str.endswith s ".0" = true -> count_char "." s <> O.
Proof.
  intros H. destruct (endswith_split _ _ H) as [p ->].
  rewrite count_char_app. simpl. lia.
Qed.

Lemma dashed_no_dot (s : string) :
  all_chars digit_or_dash s = true -> count_char "." s = O.
Proof.
  induction s as [|c r IH]; simpl; [reflexivity|].
  intros H. apply andb_true_iff in H. destruct H as [Hc Hr].
  rewrite (IH Hr).
  destruct (Ascii.eqb c ".") eqn:E; [|reflexivity].
  apply Ascii.eqb_eq in E. subst c. discriminate Hc.
Qed.

Lemma dashed_trim_nan (s : string) :
  all_chars digit_or_dash s = true -> trim_nan s = s.
Proof.
  intros H. unfold trim_nan.
  rewrite (plain_not_nan s (all_chars_weaken _ _ s digit_or_dash_plain H)).
  destruct (Str.endswith s ".0") eqn:E; [|reflexivity].
  apply endswith_dot0_has_dot in E. now rewrite (dashed_no_dot s H) in E.
Qed.

(** Text of digits and dashes is a fixed point of the two general passes. *)
Lemma dashed_passes (s : string) :
  all_chars digit_or_dash s = true -> fix_sci (trim_nan s) = s.
Proof.
  intros H. rewrite (dashed_trim_nan s H).
  apply plain_fix_sci. exact (all_chars_weaken _ _ s digit_or_dash_plain H).
Qed.

Lemma endswith_dot0_not_nan (s : string) :
  Str.endswith s ".0" = true -> String.eqb s "nan" = false.
Proof.
  intros H. destruct (String.eqb s "nan") eqn:E; [|reflexivity].
  apply String.eqb_eq in E. subst s. discriminate H.
Qed.

Lemma normalize_plain_column (td : string -> option string) (col : string) (c : Cell) :
  is_date_column col = false ->
  normalize td col c = fix_sci (trim_nan (astype_str c)).
Proof. intros H. unfold normalize. now rewrite H. Qed.

(** ** The trailing [.0] trim *)

(** C9.  A cell text that ends with [.0] loses exactly its last two
    characters in the trim pass, whatever precedes them; in a column
    without a date keyword that is the normalised value unless the
    shortened text is a scientific-notation text.  The trim happens once:
    ["v1.0"] gives ["v1"], [".0"] gives the empty text and ["1.0.0"] gives
    ["1.0"], which still ends with [.0]. *)
Theorem trailing_dot0_trimmed_once (s : string)
  (Hs : Str.endswith s ".0" = true) :
  trim_nan s = Str.drop_last2 s
  /\ s = Str.drop_last2 s ++ ".0"
  /\ (forall td col,
        is_date_column col = false ->
        Str.contains "e+" (Str.lower (Str.drop_last2 s)) = false ->
        normalize td col (CStr s) = Str.drop_last2 s)
  /\ (forall td, normalize td "运单号码" (CStr "v1.0") = "v1")
  /\ (forall td, normalize td "运单号码" (CStr ".0") = "")
  /\ (forall td, normalize td "运单号码" (CStr "1.0.0") = "1.0")
  /\ Str.endswith "1.0" ".0" = true.
Proof.
  assert (Ht : trim_nan s = Str.drop_last2 s).
  { unfold trim_nan. now rewrite (endswith_dot0_not_nan s Hs), Hs. }
  repeat split; try reflexivity.
  - exact Ht.
  - destruct (endswith_split _ _ Hs) as [p Hp].
    rewrite Hp at 2. now rewrite Hp, drop_last2_app.
  - intros td col Hcol He.
    rewrite (normalize_plain_column td col _ Hcol). simpl astype_str.
    rewrite Ht. unfold fix_sci. now rewrite He.
Qed.

Lemma trailing_dot0_trimmed_once_witness :
  Str.endswith "45932.0" ".0" = true
  /\ trim_nan "45932.0" = Str.drop_last2 "45932.0".
Proof.
  split; [reflexivity|].
  exact (proj1 (trailing_dot0_trimmed_once "45932.0" eq_refl)).
Defined.

(** ** Missing values and the text [nan] *)

Lemma to_lower_n (c : ascii) :
  Str.to_lower c = "n"%char -> c = "n"%char \/ c = "N"%char.
Proof. ascii_cases c; vm_compute; intros H; try discriminate H; auto. Qed.

Lemma to_lower_a (c : ascii) :
  Str.to_lower c = "a"%char -> c = "a"%char \/ c = "A"%char.
Proof. ascii_cases c; vm_compute; intros H; try discriminate H; auto. Qed.

Lemma lower_nan_cases (s : string) :
  Str.lower s = "nan" ->
  exists c1 c2 c3,
    s = String c1 (String c2 (String c3 EmptyString))
    /\ (c1 = "n" \/ c1 = "N")%char /\ (c2 = "a" \/ c2 = "A")%char
    /\ (c3 = "n" \/ c3 = "N")%char.
Proof.
  destruct s as [|c1 [|c2 [|c3 [|c4 r]]]]; simpl; intros H; try discriminate H.
  injection H as H1 H2 H3.
  exists c1, c2, c3. repeat split;
    [now apply to_lower_n | now apply to_lower_a | now apply to_lower_n].
Qed.

(** C7, as the code has it.  A missing cell, an empty text and the exact
    text ["nan"] normalise to the empty text in every column.  Another
    letter case of ["nan"] normalises to the empty text in a column whose
    name holds a date keyword, and is kept as it is in every other
    column. *)
Theorem nan_normalizes_to_empty (td : string -> option string)
  (col s : string) (Hs : Str.lower s = "nan") :
  normalize td col CNaN = ""
  /\ normalize td col (CStr "") = ""
  /\ normalize td col (CStr "nan") = ""
  /\ (is_date_column col = true -> normalize td col (CStr s) = "")
  /\ (is_date_column col = false -> s <> "nan" -> normalize td col (CStr s) = s).
Proof.
  unfold normalize.
  destruct (is_date_column col) eqn:Hcol.
  - repeat split; try reflexivity; try discriminate.
    intros _. unfold format_excel_date. rewrite Hs.
    rewrite String.eqb_refl, orb_true_r. reflexivity.
  - repeat split; try reflexivity; try discriminate.
    intros _ Hne. simpl astype_str.
    destruct (lower_nan_cases s Hs) as (c1 & c2 & c3 & -> & H1 & H2 & H3).
    destruct H1 as [-> | ->], H2 as [-> | ->], H3 as [-> | ->];
      solve [reflexivity | now elim Hne].
Qed.

Lemma nan_normalizes_to_empty_witness :
  Str.lower "NAN" = "nan"
  /\ normalize no_dates "清美出库日期" (CStr "NAN") = "".
Proof.
  split; [reflexivity|].
  exact (proj1 (proj2 (proj2 (proj2
           (nan_normalizes_to_empty no_dates "清美出库日期" "NAN" eq_refl))))
         eq_refl).
Defined.

(** C7 as stated fails: in a column without a date keyword the text
    ["NAN"] is a letter case of ["nan"] and is not turned into the empty
    text.  (Of the letter cases, [pd.read_excel] itself reads ["nan"] and
    ["NaN"] as missing cells; ["NAN"] reaches the normaliser as text.) *)
Lemma nan_case_kept_in_plain_column :
  is_date_column "运单号码" = false
  /\ Str.lower "NAN" = "nan"
  /\ normalize no_dates "运单号码" (CStr "NAN") = "NAN"
  /\ normalize no_dates "运单号码" (CStr "NAN") <> ""
  /\ normalize no_dates "日期" (CStr "NAN") = "".
Proof. repeat split; try reflexivity. discriminate. Qed.

(** ** Key columns and the validation guard *)

Lemma filter_nil_all {X : Type} (f : X -> bool) (l : list X) :
  filter f l = [] -> forall x, In x l -> f x = false.
Proof.
  induction l as [|a l IH]; simpl; intros H x Hx; [easy|].
  destruct (f a) eqn:Ha; [discriminate H|].
  destruct Hx as [<- | Hx]; [exact Ha | now apply IH].
Qed.

Lemma order_key_columns_nil (selected : list string) :
  order_key_columns selected = [] -> selected = [].
Proof.
  unfold order_key_columns. intros H.
  apply app_eq_nil in H. destruct H as [H1 H2].
  rewrite H1 in H2. simpl in H2.
  destruct selected as [|c r]; [reflexivity|]. discriminate H2.
Qed.

(** C3.  When no key column results from the selection, the run shows
    the validation warning and does nothing else: no save dialog, no
    normalisation or grouping, no file or directory touched.  The key list
    is empty exactly when no column is checked. *)
Theorem empty_key_selection_rejected (td : string -> option string)
  (w : World) (df : DataFrame) (checks : list bool)
  (Hempty : order_key_columns (fst (split_columns (columns df) checks)) = []) :
  process_data td w (Some df) checks
    = [EvWarning "请至少选择一列作为合并依据（Key）"]
  /\ file_touched (process_data td w (Some df) checks) = false
  /\ xlsx_written (process_data td w (Some df) checks) = false
  /\ json_written (process_data td w (Some df) checks) = false
  /\ fst (split_columns (columns df) checks) = [].
Proof.
  assert (E : process_data td w (Some df) checks
              = [EvWarning "请至少选择一列作为合并依据（Key）"]).
  { unfold process_data, process_data_io.
    destruct (split_columns (columns df) checks) as [sel det].
    simpl in Hempty. rewrite Hempty. reflexivity. }
  rewrite E. repeat split.
  now apply order_key_columns_nil.
Qed.

Lemma empty_key_selection_rejected_witness :
  process_data no_dates (calm_world "out.xlsx")
    (Some {| columns := ["运单号码"; "备注"];
             rows := [[CStr "A1"; CStr "x"]] |})
    [false; false]
  = [EvWarning "请至少选择一列作为合并依据（Key）"].
Proof.
  exact (proj1 (empty_key_selection_rejected no_dates (calm_world "out.xlsx")
                  {| columns := ["运单号码"; "备注"];
                     rows := [[CStr "A1"; CStr "x"]] |}
                  [false; false] eq_refl)).
Defined.

(** ** Order of the two writes *)

(** The log of the export steps, by the first call that raises. *)
Lemma export_all_log (td : string -> option string) (w : World)
  (df : DataFrame) (kc dc : list string) (p : string) :
  exists ws jp data,
    export_all td w df kc dc p []
    = match wb_save_error w with
      | Some m => (Raised m, partial_trace (wb_save_partial w) p)
      | None =>
          match makedirs_error w with
          | Some m =>
              (Raised m,
               EvSaveXlsx p ws :: partial_trace (makedirs_partial w) json_output_dir)
          | None =>
              match open_error w with
              | Some m => (Raised m, [EvSaveXlsx p ws; EvMakedirs json_output_dir])
              | None =>
                  match json_dump_error w with
                  | Some m =>
                      (Raised m,
                       EvSaveXlsx p ws :: EvMakedirs json_output_dir :: EvOpenWrite jp
                       :: partial_trace (json_dump_partial w) jp)
                  | None =>
                      (Ok tt,
                       [EvSaveXlsx p ws; EvMakedirs json_output_dir; EvOpenWrite jp;
                        EvJsonDump jp data;
                        EvInformation
                          ("Excel文件已保存至:" ++ newline ++ p ++ newline ++ newline
                           ++ "JSON文件已保存至:" ++ newline ++ jp)])
                  end
              end
          end
      end.
Proof.
  unfold export_all.
  destruct (grouping_pass (build_detail dc) kc (process_frame td df)) as [groups json].
  exists (build_sheet kc dc groups),
         (path_join w json_output_dir (path_stem w p ++ "_data.json")),
         json.
  unfold bind, sys_call, emit, raise, ret, partial_trace.
  destruct (wb_save_error w), (wb_save_partial w), (makedirs_error w),
    (makedirs_partial w), (open_error w), (json_dump_error w),
    (json_dump_partial w); reflexivity.
Qed.





(** ** Scientific notation *)

Lemma uint_text_digits (d : Decimal.uint) :
  Str.all_digits (NilEmpty.string_of_uint d) = true.
Proof. induction d; simpl; auto. Qed.

Lemma uint_text_nonempty (d : Decimal.uint) :
  d <> Decimal.Nil -> NilEmpty.string_of_uint d <> EmptyString.
Proof. destruct d; simpl; congruence. Qed.

Lemma nilzero_uint_isdigit (d : Decimal.uint) :
  Str.isdigit (NilZero.string_of_uint d) = true.
Proof.
  unfold NilZero.string_of_uint.
  destruct d; try reflexivity;
    unfold Str.isdigit; apply (uint_text_digits (_ d)).
Qed.

Lemma isdigit_head (s : string) :
  Str.isdigit s = true ->
  exists c r, s = String c r /\ Str.is_digit c = true /\ Str.all_digits r = true.
Proof.
  destruct s as [|c r]; simpl; [discriminate|].
  intros H. apply andb_true_iff in H. destruct H. now exists c, r.
Qed.

Lemma isdigit_integer_text (s : string) :
  Str.isdigit s = true -> integer_text s = true.
Proof.
  intros H. destruct (isdigit_head s H) as (c & r & -> & Hc & Hr).
  unfold integer_text.
  destruct (Ascii.ascii_dec c "-") as [-> | Hne]; [discriminate Hc|].
  ascii_cases c; try exact H; now elim Hne.
Qed.

(** [str(n)] is an optional minus sign followed by digits. *)
Lemma of_Z_integer_text (z : Z) : integer_text (Str.of_Z z) = true.
Proof.
  unfold Str.of_Z. destruct z as [|p|p]; simpl.
  - reflexivity.
  - apply isdigit_integer_text, nilzero_uint_isdigit.
  - apply nilzero_uint_isdigit.
Qed.

Lemma isdigit_all_digits (s : string) :
  Str.isdigit s = true -> Str.all_digits s = true.
Proof. destruct s; simpl; [discriminate | easy]. Qed.

Lemma integer_text_dashed (s : string) :
  integer_text s = true -> all_chars digit_or_dash s = true.
Proof.
  assert (D : forall t, Str.isdigit t = true -> all_chars digit_or_dash t = true).
  { intros t Ht. apply isdigit_all_digits in Ht.
    rewrite all_digits_all_chars in Ht.
    apply (all_chars_weaken Str.is_digit); [|exact Ht].
    intros c Hc. unfold digit_or_dash. now rewrite Hc. }
  destruct s as [|c r]; [discriminate|].
  unfold integer_text.
  destruct (Ascii.ascii_dec c "-") as [-> | Hne].
  - intros H. simpl. now apply D.
  - intros H. apply D. ascii_cases c; try exact H; now elim Hne.
Qed.

Lemma of_Z_dashed (z : Z) : all_chars digit_or_dash (Str.of_Z z) = true.
Proof. apply integer_text_dashed, of_Z_integer_text. Qed.

Lemma int_text_is_integer (s r : string) :
  int_text_of_float_text s = Some r -> integer_text r = true.
Proof.
  unfold int_text_of_float_text.
  destruct (Float.of_string s) as [f|]; [|discriminate].
  destruct (Float.to_int f) as [z|]; [|discriminate].
  intros [= <-]. apply of_Z_integer_text.
Qed.

(** C6, as the code has it.  The repair pass runs on every cell of every
    column, after the date pass and the trim.  A text holding [e+], an
    exponent marker followed by a plus sign, in either letter case, is
    read as a float and written back as the text of its integer part when
    [float], [int] and [str] all succeed, and is left as it is when one of
    them raises; a text without [e+] is left as it is, whatever other
    exponent it holds.  ["1.23e+10"] normalises to ["12300000000"]: in
    every column without a date keyword, and in a date column as soon as
    the general date parser does not recognise the text. *)
Theorem sci_notation_repaired (s : string)
  (Hs : Str.contains "e+" (Str.lower s) = true) :
  (forall r, int_text_of_float_text s = Some r ->
             fix_sci s = r /\ integer_text r = true)
  /\ (int_text_of_float_text s = None -> fix_sci s = s)
  /\ (forall s', Str.contains "e+" (Str.lower s') = false -> fix_sci s' = s')
  /\ (forall td col c,
        normalize td col c
        = fix_sci (trim_nan (astype_str
            (if is_date_column col then CStr (format_excel_date td c) else c))))
  /\ int_text_of_float_text "1.23e+10" = Some "12300000000"
  /\ (forall td col, is_date_column col = false ->
        normalize td col (CStr "1.23e+10") = "12300000000")
  /\ (forall (td : string -> option string) col, is_date_column col = true ->
        td "1.23e+10" = None ->
        normalize td col (CStr "1.23e+10") = "12300000000").
Proof.
  repeat split.
  - unfold fix_sci. now rewrite Hs, H.
  - now apply (int_text_is_integer s).
  - intros H. unfold fix_sci. now rewrite Hs, H.
  - intros s' H. unfold fix_sci. now rewrite H.
  - intros td col Hcol. unfold normalize. now rewrite Hcol.
  - intros td col Hcol Htd. unfold normalize. rewrite Hcol.
    unfold format_excel_date.
    change (Str.strip "1.23e+10") with "1.23e+10".
    change (excel_serial_text "1.23e+10") with (@None string).
    change (Str.isdigit "1.23e+10") with false.
    cbn [String.eqb Ascii.eqb Bool.eqb Str.lower orb negb].
    rewrite Htd. reflexivity.
Qed.

Lemma sci_notation_repaired_witness :
  Str.contains "e+" (Str.lower "2.5E+3") = true
  /\ fix_sci "2.5E+3" = "2500".
Proof.
  split; [reflexivity|].
  exact (proj1 (proj1 (sci_notation_repaired "2.5E+3" eq_refl) "2500" eq_refl)).
Defined.

(** C6 as stated fails: ["1e5"] and ["1.2E4"] hold an exponent marker, and
    [float], [int] and [str] succeed on them, yet the cells are left as
    they are, because the marker is not followed by a plus sign. *)
Lemma exponent_without_plus_kept :
  has_exponent_marker "1e5" = true
  /\ int_text_of_float_text "1e5" = Some "100000"
  /\ normalize no_dates "运单号码" (CStr "1e5") = "1e5"
  /\ normalize no_dates "运单号码" (CStr "1e5") <> "100000"
  /\ has_exponent_marker "1.2E4" = true
  /\ int_text_of_float_text "1.2E4" = Some "12000"
  /\ normalize no_dates "运单号码" (CStr "1.2E4") = "1.2E4".
Proof. repeat split. discriminate. Qed.

(** ** Detail records under the rename map *)

Lemma dict_get_set (d : Detail) (k k' : string) (v : PyVal) :
  dict_get String.eqb (dict_set String.eqb d k v) k'
  = if String.eqb k k' then Some v else dict_get String.eqb d k'.
Proof.
  induction d as [|[a x] r IH]; simpl.
  - reflexivity.
  - destruct (String.eqb a k) eqn:Eak; simpl.
    + apply String.eqb_eq in Eak. subst a.
      destruct (String.eqb k k'); reflexivity.
    + rewrite IH. destruct (String.eqb a k') eqn:Eak'; [|reflexivity].
      apply String.eqb_eq in Eak'. subst a.
      now rewrite String.eqb_sym, Eak.
Qed.

Lemma dict_set_keys (d : Detail) (k : string) (v : PyVal) :
  map fst (dict_set String.eqb d k v)
  = if dict_mem String.eqb d k then map fst d else (map fst d ++ [k])%list.
Proof.
  induction d as [|[a x] r IH]; simpl.
  - reflexivity.
  - destruct (String.eqb a k) eqn:Eak; simpl; [reflexivity|].
    rewrite IH. now destruct (dict_mem String.eqb r k).
Qed.

Lemma dict_mem_false_notin (d : Detail) (k : string) :
  dict_mem String.eqb d k = false -> ~ In k (map fst d).
Proof.
  induction d as [|[a x] r IH]; simpl; [tauto|].
  intros H. apply orb_false_iff in H. destruct H as [Hak Hr].
  apply String.eqb_neq in Hak. intros [E | Hin]; [congruence | now apply IH].
Qed.

Lemma dict_set_nodup (d : Detail) (k : string) (v : PyVal) :
  NoDup (map fst d) -> NoDup (map fst (dict_set String.eqb d k v)).
Proof.
  intros H. rewrite dict_set_keys.
  destruct (dict_mem String.eqb d k) eqn:E; [exact H|].
  apply NoDup_app; [exact H | repeat constructor; easy |].
  intros x Hx [Hk | []]. subst x. now apply (dict_mem_false_notin d k).
Qed.

Lemma fill_detail_nodup (row : Row) (cols : list string) (d : Detail) :
  NoDup (map fst d) -> NoDup (map fst (fill_detail row d cols)).
Proof.
  revert d. induction cols as [|c cols IH]; intros d H; simpl; [exact H|].
  apply IH. now apply dict_set_nodup.
Qed.

Lemma fill_detail_get (row : Row) (cols : list string) (name : string) :
  forall (d : Detail) (found : option string),
    dict_get String.eqb d name
    = option_map (fun col => coerce name (row_get row col)) found ->
    dict_get String.eqb (fill_detail row d cols) name
    = option_map (fun col => coerce name (row_get row col))
        (last_source_from found cols name).
Proof.
  induction cols as [|c cols IH]; intros d found H; simpl; [exact H|].
  apply IH. rewrite dict_get_set.
  destruct (String.eqb (output_name c) name) eqn:E; [|exact H].
  apply String.eqb_eq in E. now rewrite E.
Qed.

Lemma build_detail_get (cols : list string) (row : Row) (name : string) :
  dict_get String.eqb (build_detail cols row) name
  = option_map (fun col => coerce name (row_get row col)) (last_source cols name).
Proof. now apply (fill_detail_get row cols name [] None). Qed.

Lemma last_source_from_spec (cols : list string) (name : string) :
  forall found,
    (forall src, found = Some src -> output_name src = name) ->
    match last_source_from found cols name with
    | Some src => output_name src = name /\ (In src cols \/ found = Some src)
    | None => found = None /\ forall col, In col cols -> output_name col <> name
    end.
Proof.
  induction cols as [|c cols IH]; intros found Hf; simpl.
  - destruct found as [src|]; [split; [now apply Hf | now right] | now split].
  - destruct (String.eqb (output_name c) name) eqn:E.
    + apply String.eqb_eq in E. specialize (IH (Some c)).
      destruct (last_source_from (Some c) cols name) as [src|].
      * destruct IH as [H1 H2]; [now intros ? [= <-]|]. split; [exact H1|].
        left. destruct H2 as [H2 | [= ->]]; [now right | now left].
      * destruct IH as [H1 _]; [now intros ? [= <-] | discriminate H1].
    + apply String.eqb_neq in E. specialize (IH found Hf).
      destruct (last_source_from found cols name) as [src|].
      * destruct IH as [H1 H2]. split; [exact H1|]. tauto.
      * destruct IH as [H1 H2]. split; [exact H1|].
        intros col [<- | Hc]; [exact E | now apply H2].
Qed.



(** C10.  A detail record has one entry per output name.  The entry for
    an output name holds the converted value of the last detail column,
    in table order, that is written under that name; so the cell under
    the header of an earlier column with the same output name shows the
    later column's value, and the JSON export, which stores the record
    itself, has lost the earlier value as well.  With both ["费用(元)"] and
    ["费用"] as detail columns, the single ["费用"] entry holds the value of
    whichever of the two comes later. *)
Theorem renamed_duplicate_last_wins (detail_columns : list string) (row : Row) :
  NoDup (map fst (build_detail detail_columns row))
  /\ (forall name,
        dict_get String.eqb (build_detail detail_columns row) name
        = option_map (fun col => coerce name (row_get row col))
            (last_source detail_columns name))
  /\ (forall group_index key_tuple,
        sheet_row group_index key_tuple (map output_name detail_columns)
          (build_detail detail_columns row)
        = (VInt group_index :: map VStr key_tuple
           ++ map (fun col =>
                     match last_source detail_columns (output_name col) with
                     | Some src => coerce (output_name col) (row_get row src)
                     | None => VStr ""
                     end) detail_columns)%list)
  /\ output_name "费用(元)" = "费用"
  /\ last_source ["费用(元)"; "备注"; "费用"] "费用" = Some "费用"
  /\ last_source ["费用"; "备注"; "费用(元)"] "费用" = Some "费用(元)"
  /\ build_detail ["费用(元)"; "备注"; "费用"]
       [("运单号码", "A1"); ("费用(元)", "10"); ("备注", "x"); ("费用", "7")]
     = [("费用", VFloat (Float.Fin 7881299347898368 (-50))); ("备注", VStr "x")]
  /\ process_data no_dates (calm_world "out")
       (Some {| columns := ["运单号码"; "费用(元)"; "备注"; "费用"];
                rows := [[CStr "A1"; CStr "10.0"; CStr "x"; CStr "7"]] |})
       [true; false; false; false]
     = [EvSaveXlsx "out"
          {| sheet_rows :=
               [[VStr "序号"; VStr "运单号码"; VStr "费用"; VStr "备注"; VStr "费用"];
                [VInt 1; VStr "A1";
                 VFloat (Float.Fin 7881299347898368 (-50)); VStr "x";
                 VFloat (Float.Fin 7881299347898368 (-50))]];
             merged := [];
             centered := [(2, 1); (2, 2)] |};
        EvMakedirs json_output_dir;
        EvOpenWrite (json_output_dir ++ "\out_data.json");
        EvJsonDump (json_output_dir ++ "\out_data.json")
          [("A1", [[("费用", VFloat (Float.Fin 7881299347898368 (-50)));
                    ("备注", VStr "x")]])];
        EvInformation
          ("Excel文件已保存至:" ++ newline ++ "out" ++ newline ++ newline
           ++ "JSON文件已保存至:" ++ newline
           ++ json_output_dir ++ "\out_data.json")].
Proof.
  split; [|split; [|split]].
  - apply (fill_detail_nodup row detail_columns []). constructor.
  - intros name. apply build_detail_get.
  - intros group_index key_tuple. unfold sheet_row. f_equal. f_equal.
    rewrite map_map. apply map_ext. intros col.
    unfold detail_get. rewrite build_detail_get.
    now destruct (last_source detail_columns (output_name col)).
  - repeat split.
Qed.

(** ** Numeric-looking text *)

Lemma all_digits_dots (r : string) :
  Str.all_digits r = all_chars digit_or_dot r && Nat.eqb (count_char "." r) 0.
Proof.
  induction r as [|a r IH]; simpl; [reflexivity|].
  unfold digit_or_dot at 1.
  destruct (Ascii.eqb a ".") eqn:E.
  - apply Ascii.eqb_eq in E. subst a. simpl. now rewrite andb_false_r.
  - rewrite orb_false_r, IH. now rewrite andb_assoc.
Qed.

Lemma all_digits_replace_dot (r : string) :
  Str.all_digits (Str.replace_first "." r)
  = all_chars digit_or_dot r && Nat.leb (count_char "." r) 1.
Proof.
  induction r as [|a r IH]; simpl; [reflexivity|].
  unfold digit_or_dot at 1.
  destruct (Ascii.eqb a ".") eqn:E.
  - rewrite orb_true_r. simpl. rewrite all_digits_dots.
    now destruct (count_char "." r).
  - rewrite orb_false_r. simpl. now rewrite IH, andb_assoc.
Qed.

Lemma all_digits_has_digit (r : string) :
  Str.all_digits r = true ->
  negb (all_chars (fun c => negb (Str.is_digit c)) r) = Str.isdigit r.
Proof.
  destruct r as [|a r]; simpl; [reflexivity|].
  intros H. apply andb_true_iff in H. destruct H as [Ha Hr].
  now rewrite Ha, Hr.
Qed.

(** The code's test [val.replace('.', '', 1).isdigit()] is the
    specification's "digits with at most one decimal point". *)
Lemma numeric_looking_code (s : string) :
  Str.isdigit (Str.replace_first "." s) = numeric_looking s.
Proof.
  unfold numeric_looking.
  destruct s as [|c r]; [reflexivity|].
  cbn [Str.replace_first all_chars count_char].
  unfold digit_or_dot at 1.
  destruct (Ascii.eqb c ".") eqn:E.
  - apply Ascii.eqb_eq in E. subst c. cbn.
    destruct (Str.all_digits r) eqn:Hd.
    + rewrite <- (all_digits_has_digit r Hd).
      rewrite all_digits_dots in Hd. apply andb_true_iff in Hd.
      destruct Hd as [H1 H2]. rewrite H1.
      apply Nat.eqb_eq in H2. rewrite H2. reflexivity.
    + assert (Hi : Str.isdigit r = false) by (destruct r; [reflexivity | exact Hd]).
      rewrite Hi. rewrite all_digits_dots in Hd.
      destruct (all_chars digit_or_dot r); [|reflexivity].
      destruct (count_char "." r); [discriminate Hd | reflexivity].
  - rewrite orb_false_r. cbn [Str.isdigit Str.all_digits].
    destruct (Str.is_digit c) eqn:Hc; [|reflexivity].
    cbn. rewrite andb_true_r. apply all_digits_replace_dot.
Qed.

Lemma numeric_looking_parts (s : string) :
  numeric_looking s = true ->
  all_chars digit_or_dot s = true
  /\ (count_char "." s <= 1)%nat
  /\ s <> EmptyString.
Proof.
  unfold numeric_looking. intros H.
  apply andb_true_iff in H. destruct H as [H H3].
  apply andb_true_iff in H. destruct H as [H1 H2].
  apply Nat.leb_le in H2. repeat split; try assumption.
  intros ->. discriminate H3.
Qed.

Lemma numeric_looking_plain (s : string) :
  numeric_looking s = true -> all_chars plain_char s = true.
Proof.
  intros H. destruct (numeric_looking_parts s H) as (H1 & _).
  exact (all_chars_weaken _ _ s digit_or_dot_plain H1).
Qed.

Lemma contains_dot_count (s : string) :
  Str.contains "." s = negb (Nat.eqb (count_char "." s) 0).
Proof.
  induction s as [|c r IH]; [reflexivity|].
  cbn -[Ascii.ascii_dec]. rewrite IH.
  destruct (Ascii.ascii_dec "." c) as [<- | Hne].
  - destruct r; reflexivity.
  - assert (E : Ascii.eqb c "." = false) by (apply Ascii.eqb_neq; congruence).
    rewrite E. reflexivity.
Qed.

(** Numeric-looking text without a point is a non-empty run of digits. *)
Lemma numeric_no_dot_isdigit (s : string) :
  numeric_looking s = true -> Str.contains "." s = false -> Str.isdigit s = true.
Proof.
  intros H Hd. destruct (numeric_looking_parts s H) as (H1 & _ & Hne).
  rewrite contains_dot_count in Hd. apply negb_false_iff in Hd.
  assert (A : Str.all_digits s = true) by (rewrite all_digits_dots, H1, Hd; reflexivity).
  destruct s; [now elim Hne | exact A].
Qed.

Lemma isdigit_numeric_looking (s : string) :
  Str.isdigit s = true -> numeric_looking s = true /\ Str.contains "." s = false.
Proof.
  intros H. pose proof (isdigit_all_digits s H) as A.
  pose proof A as A'. rewrite all_digits_dots in A'.
  apply andb_true_iff in A'. destruct A' as [H1 H2].
  split.
  - unfold numeric_looking. rewrite H1, (all_digits_has_digit s A), H.
    apply Nat.eqb_eq in H2. now rewrite H2.
  - rewrite contains_dot_count, H2. reflexivity.
Qed.

(** A numeric-looking text with a point is digits, the point, digits. *)
Lemma numeric_split (s : string) :
  all_chars digit_or_dot s = true ->
  (count_char "." s <= 1)%nat ->
  (Str.all_digits s = true)
  \/ exists a b, s = a ++ String "." b
                 /\ Str.all_digits a = true /\ Str.all_digits b = true.
Proof.
  induction s as [|c r IH]; intros H1 H2; [now left|].
  simpl in H1, H2. apply andb_true_iff in H1. destruct H1 as [Hc Hr].
  destruct (digit_or_dot_cases c Hc) as [Hd | ->].
  - assert (E : Ascii.eqb c "." = false).
    { apply Ascii.eqb_neq. intros ->. discriminate Hd. }
    rewrite E in H2. destruct (IH Hr H2) as [A | (a & b & -> & Ha & Hb)].
    + left. simpl. now rewrite Hd, A.
    + right. exists (String c a), b. simpl. now rewrite Hd, Ha.
  - simpl in H2. right. exists EmptyString, r. repeat split.
    rewrite all_digits_dots, Hr.
    assert (count_char "." r = O) by lia. now rewrite H.
Qed.

Lemma append_empty_r (s : string) : s ++ EmptyString = s.
Proof. induction s as [|c r IH]; simpl; [reflexivity | now rewrite IH]. Qed.

Lemma digit_val_range (c : ascii) :
  Str.is_digit c = true -> 0 <= Str.digit_val c <= 9.
Proof. ascii_cases c; vm_compute; intuition discriminate. Qed.

(** Scanning a run of digits that ends the text or stops at a character
    that is neither a digit nor an underscore. *)
Lemma scan_digits_run (a r : string) :
  Str.all_digits a = true ->
  (r = EmptyString
   \/ exists c r', r = String c r' /\ Str.is_digit c = false /\ c <> "_"%char) ->
  forall acc cnt, 0 <= acc ->
    exists v, Str.scan_digits acc cnt (a ++ r) = (v, (cnt + String.length a)%nat, r)
              /\ 0 <= v.
Proof.
  intros Ha Hr. induction a as [|c a IH]; intros acc cnt Hacc.
  - exists acc. rewrite Nat.add_0_r. split; [|exact Hacc].
    destruct Hr as [-> | (c & r' & -> & Hc & Hu)]; [reflexivity|].
    simpl. rewrite Hc.
    assert (E : Ascii.eqb c "_" = false) by now apply Ascii.eqb_neq.
    now rewrite E.
  - simpl in Ha. apply andb_true_iff in Ha. destruct Ha as [Hc Ha].
    cbn [String.append Str.scan_digits String.length]. rewrite Hc.
    pose proof (digit_val_range c Hc).
    destruct (IH Ha (10 * acc + Str.digit_val c) (S cnt)) as (v & E & Hv); [lia|].
    exists v. rewrite E. split; [|exact Hv]. f_equal. f_equal. lia.
Qed.

Lemma of_string_numeric (s : string) :
  all_chars digit_or_dot s = true ->
  Float.of_string s = Float.parse_decimal false s.
Proof.
  intros H. unfold Float.of_string.
  rewrite (plain_number_strip s (all_chars_weaken _ _ s digit_or_dot_plain H)).
  destruct s as [|c r]; [reflexivity|].
  simpl in H. apply andb_true_iff in H. destruct H as [Hc _].
  destruct (digit_or_dot_cases c Hc) as [Hd | ->]; [|reflexivity].
  ascii_cases c; try discriminate Hd; reflexivity.
Qed.

(** [float] accepts every numeric-looking text. *)
Lemma float_of_numeric (s : string) :
  numeric_looking s = true -> exists f, Float.of_string s = Some f.
Proof.
  intros H. destruct (numeric_looking_parts s H) as (H1 & H2 & Hne).
  rewrite (of_string_numeric s H1). unfold Float.parse_decimal.
  destruct (numeric_split s H1 H2) as [A | (a & b & -> & Ha & Hb)].
  - destruct (scan_digits_run s EmptyString A (or_introl eq_refl) 0 0%nat)
      as (v & E & _); [lia|].
    rewrite append_empty_r in E. rewrite E.
    destruct s as [|c r]; [now elim Hne|].
    cbn [String.length Nat.add Nat.eqb]. eexists. reflexivity.
  - destruct (scan_digits_run a (String "." b) Ha) with (acc := 0) (cnt := 0%nat)
      as (v & E & _); [right; exists "."%char, b; repeat split; discriminate | lia |].
    rewrite E.
    destruct (scan_digits_run b EmptyString Hb (or_introl eq_refl) 0 0%nat)
      as (w & F & _); [lia|].
    rewrite append_empty_r in F. rewrite F.
    destruct (Nat.eqb (0 + String.length a + (0 + String.length b)) 0) eqn:Z0.
    + exfalso. apply Nat.eqb_eq in Z0.
      destruct a; [|simpl in Z0; lia]. destruct b; [|simpl in Z0; lia].
      unfold numeric_looking in H. simpl in H. discriminate H.
    + eexists. reflexivity.
Qed.

Lemma split_sign_digit (s : string) :
  Str.isdigit s = true -> Str.split_sign s = (false, s).
Proof.
  intros H. destruct (isdigit_head s H) as (c & r & -> & Hc & _).
  ascii_cases c; try discriminate Hc; reflexivity.
Qed.

Lemma isdigit_plain (s : string) :
  Str.isdigit s = true -> all_chars plain_char s = true.
Proof.
  intros H. apply isdigit_all_digits in H. rewrite all_digits_all_chars in H.
  exact (all_chars_weaken _ _ s digit_plain H).
Qed.

(** [int] on a run of digits: the scanned value, unless the run is longer
    than the interpreter allows. *)
Lemma py_int_digits (s : string) :
  Str.isdigit s = true ->
  exists v, Str.scan_digits 0 0 s = (v, String.length s, EmptyString)
            /\ 0 <= v
            /\ Str.py_int s
               = if Nat.leb (String.length s) Str.int_max_str_digits
                 then Some v else None.
Proof.
  intros H.
  destruct (scan_digits_run s EmptyString (isdigit_all_digits s H)
              (or_introl eq_refl) 0 0%nat) as (v & E & Hv); [lia|].
  rewrite append_empty_r in E. simpl in E.
  exists v. repeat split; try assumption.
  unfold Str.py_int. rewrite (plain_number_strip s (isdigit_plain s H)).
  rewrite (split_sign_digit s H), E.
  destruct s as [|c r]; [discriminate H|]. reflexivity.
Qed.

(** ** Conversion of detail values *)




(** ** The two group indexes *)

Lemma contains_char_count (c : ascii) (s : string) :
  Str.contains (String c EmptyString) s = negb (Nat.eqb (count_char c s) 0).
Proof.
  induction s as [|a r IH]; [reflexivity|].
  cbn -[Ascii.ascii_dec]. rewrite IH.
  destruct (Ascii.ascii_dec c a) as [<- | Hne].
  - rewrite Ascii.eqb_refl. destruct r; reflexivity.
  - assert (E : Ascii.eqb a c = false) by (apply Ascii.eqb_neq; congruence).
    rewrite E. reflexivity.
Qed.

Lemma no_sep_count (v : string) :
  Str.contains "_" v = false -> count_char "_" v = O.
Proof.
  rewrite contains_char_count. intros H. apply negb_false_iff in H.
  now apply Nat.eqb_eq.
Qed.

(** Text free of the separator is recovered from what precedes the first
    separator. *)
Lemma append_sep_inj (a b x y : string) :
  count_char "_" a = O -> count_char "_" b = O ->
  a ++ String "_" x = b ++ String "_" y -> a = b /\ x = y.
Proof.
  revert b. induction a as [|c a IH]; intros [|d b] Ha Hb E; simpl in *.
  - injection E as E. now split.
  - injection E as E1 E2. subst d. simpl in Hb. discriminate Hb.
  - injection E as E1 E2. subst c. simpl in Ha. discriminate Ha.
  - injection E as E1 E2. subst d.
    destruct (Ascii.eqb c "_") eqn:Ec; [discriminate Ha|].
    destruct (IH b Ha Hb E2) as [-> ->]. now split.
Qed.

Lemma join_cons2 (a b : string) (r : list string) :
  Str.join "_" (a :: b :: r) = a ++ String "_" (Str.join "_" (b :: r)).
Proof. reflexivity. Qed.

(** Joining with the separator is injective on clean keys of one
    length. *)
Lemma join_injective (n : nat) (k1 k2 : list string) :
  clean_key n k1 -> clean_key n k2 ->
  Str.join "_" k1 = Str.join "_" k2 -> k1 = k2.
Proof.
  revert n k2. induction k1 as [|a k1 IH]; intros n k2 [L1 F1] [L2 F2] E.
  - destruct k2; [reflexivity | simpl in *; congruence].
  - destruct k2 as [|b k2]; [simpl in *; congruence|].
    inversion F1 as [|? ? Ha F1']; subst. inversion F2 as [|? ? Hb F2']; subst.
    destruct k1 as [|a' k1], k2 as [|b' k2]; simpl in L2; try discriminate L2.
    + simpl in E. now subst.
    + rewrite !join_cons2 in E.
      apply append_sep_inj in E; try now apply no_sep_count.
      destruct E as [-> E]. f_equal.
      apply (IH (List.length (a' :: k1))); [now split | split | exact E];
        [simpl in *; lia | exact F2'].
Qed.

Lemma tuple_eqb_eq (a b : list string) : tuple_eqb a b = true <-> a = b.
Proof.
  revert b. induction a as [|x a IH]; intros [|y b]; simpl; try easy.
  rewrite andb_true_iff, String.eqb_eq, IH. split.
  - now intros [-> ->].
  - intros [= -> ->]. now split.
Qed.

Lemma join_eqb (n : nat) (k1 k2 : list string) :
  clean_key n k1 -> clean_key n k2 ->
  String.eqb (Str.join "_" k1) (Str.join "_" k2) = tuple_eqb k1 k2.
Proof.
  intros H1 H2.
  destruct (tuple_eqb k1 k2) eqn:E.
  - apply tuple_eqb_eq in E. subst. apply String.eqb_refl.
  - apply String.eqb_neq. intros J.
    apply (join_injective n k1 k2 H1 H2) in J.
    apply tuple_eqb_eq in J. congruence.
Qed.

Section IndexAgreement.

Context {A : Type} (n : nat).

Lemma join_keys_mem (groups : list (list string * list A)) (k : list string) :
  clean_keys n groups -> clean_key n k ->
  dict_mem String.eqb (join_keys groups) (Str.join "_" k)
  = dict_mem tuple_eqb groups k.
Proof.
  intros Hg Hk. induction groups as [|[k' l] r IH]; simpl; [reflexivity|].
  inversion Hg as [|? ? Hk' Hr]; subst. simpl in Hk'.
  now rewrite (join_eqb n k' k Hk' Hk), (IH Hr).
Qed.

Lemma join_keys_get (groups : list (list string * list A)) (k : list string) :
  clean_keys n groups -> clean_key n k ->
  dict_get String.eqb (join_keys groups) (Str.join "_" k)
  = dict_get tuple_eqb groups k.
Proof.
  intros Hg Hk. induction groups as [|[k' l] r IH]; simpl; [reflexivity|].
  inversion Hg as [|? ? Hk' Hr]; subst. simpl in Hk'.
  now rewrite (join_eqb n k' k Hk' Hk), (IH Hr).
Qed.

Lemma join_keys_ensure (groups : list (list string * list A)) (k : list string) :
  clean_keys n groups -> clean_key n k ->
  dict_ensure String.eqb (join_keys groups) (Str.join "_" k)
  = join_keys (dict_ensure tuple_eqb groups k).
Proof.
  intros Hg Hk. unfold dict_ensure. rewrite (join_keys_mem groups k Hg Hk).
  destruct (dict_mem tuple_eqb groups k); [reflexivity|].
  unfold join_keys. now rewrite map_app.
Qed.

Lemma join_keys_append (groups : list (list string * list A))
  (k : list string) (x : A) :
  clean_keys n groups -> clean_key n k ->
  dict_append String.eqb (join_keys groups) (Str.join "_" k) x
  = join_keys (dict_append tuple_eqb groups k x).
Proof.
  intros Hg Hk. induction groups as [|[k' l] r IH]; simpl; [reflexivity|].
  inversion Hg as [|? ? Hk' Hr]; subst. simpl in Hk'.
  rewrite (join_eqb n k' k Hk' Hk).
  destruct (tuple_eqb k' k); simpl; [reflexivity|].
  now rewrite (IH Hr).
Qed.

Lemma clean_keys_ensure (groups : list (list string * list A)) (k : list string) :
  clean_keys n groups -> clean_key n k ->
  clean_keys n (dict_ensure tuple_eqb groups k).
Proof.
  intros Hg Hk. unfold dict_ensure.
  destruct (dict_mem tuple_eqb groups k); [exact Hg|].
  apply Forall_app. split; [exact Hg|].
  constructor; [exact Hk | constructor].
Qed.

Lemma clean_keys_append (groups : list (list string * list A))
  (k : list string) (x : A) :
  clean_keys n groups -> clean_keys n (dict_append tuple_eqb groups k x).
Proof.
  intros Hg. induction groups as [|[k' l] r IH]; simpl; [constructor|].
  inversion Hg as [|? ? Hk' Hr]; subst.
  destruct (tuple_eqb k' k); constructor; solve [exact Hk' | exact Hr | exact (IH Hr)].
Qed.

End IndexAgreement.

Section OneIndex.

Context {K A : Type} (eqb : K -> K -> bool).
Hypothesis eqb_eq : forall x y, eqb x y = true <-> x = y.
Context (key_of : Row -> K) (item_of : Row -> A).

Lemma dict_append_keys (d : list (K * list A)) (k : K) (x : A) :
  map fst (dict_append eqb d k x) = map fst d.
Proof.
  induction d as [|[k' l] r IH]; simpl; [reflexivity|].
  destruct (eqb k' k); simpl; [reflexivity | now rewrite IH].
Qed.

Lemma dict_mem_In (d : list (K * list A)) (k : K) :
  dict_mem eqb d k = true <-> In k (map fst d).
Proof.
  induction d as [|[k' l] r IH]; simpl; [easy|].
  rewrite orb_true_iff, eqb_eq, IH. tauto.
Qed.

Lemma dict_ensure_nodup (d : list (K * list A)) (k : K) :
  NoDup (map fst d) -> NoDup (map fst (dict_ensure eqb d k)).
Proof.
  intros H. unfold dict_ensure.
  destruct (dict_mem eqb d k) eqn:E; [exact H|].
  rewrite map_app. apply NoDup_app; [exact H | repeat constructor; easy |].
  intros x Hx [Hk | []]. simpl in Hk. subst x.
  apply dict_mem_In in Hx. congruence.
Qed.

Lemma dict_mem_ensure (d : list (K * list A)) (k : K) :
  dict_mem eqb (dict_ensure eqb d k) k = true.
Proof.
  unfold dict_ensure. destruct (dict_mem eqb d k) eqn:E; [exact E|].
  apply dict_mem_In. rewrite map_app. apply in_or_app. right. now left.
Qed.

Lemma dict_get_ensure (d : list (K * list A)) (k k' : K) (l : list A) :
  dict_get eqb d k' = Some l -> dict_get eqb (dict_ensure eqb d k) k' = Some l.
Proof.
  intros H. unfold dict_ensure. destruct (dict_mem eqb d k); [exact H|].
  induction d as [|[a x] r IH]; simpl in *; [discriminate H|].
  destruct (eqb a k'); [exact H | now apply IH].
Qed.

Lemma dict_get_append_same (d : list (K * list A)) (k : K) (x : A) :
  dict_mem eqb d k = true ->
  exists l, dict_get eqb d k = Some l
            /\ dict_get eqb (dict_append eqb d k x) k = Some (l ++ [x])%list.
Proof.
  induction d as [|[a l] r IH]; simpl; [discriminate|].
  intros H. destruct (eqb a k) eqn:E.
  - exists l. simpl. now rewrite E.
  - simpl in H. destruct (IH H) as (l' & H1 & H2).
    exists l'. simpl. now rewrite E.
Qed.

Lemma dict_get_append_other (d : list (K * list A)) (k k' : K) (x : A) :
  k <> k' -> dict_get eqb (dict_append eqb d k x) k' = dict_get eqb d k'.
Proof.
  intros Hne. induction d as [|[a l] r IH]; simpl; [reflexivity|].
  destruct (eqb a k) eqn:E; simpl.
  - apply eqb_eq in E. subst a.
    destruct (eqb k k') eqn:E'; [|reflexivity].
    apply eqb_eq in E'. congruence.
  - destruct (eqb a k'); [reflexivity | exact IH].
Qed.

Lemma filed_step (d : list (K * list A)) (r row : Row) :
  filed eqb key_of item_of d row ->
  filed eqb key_of item_of (index_step eqb key_of item_of d r) row.
Proof.
  intros (items & Hg & Hin). unfold index_step, filed.
  pose proof (dict_get_ensure d (key_of r) _ _ Hg) as Hg'.
  destruct (eqb (key_of r) (key_of row)) eqn:E.
  - apply eqb_eq in E.
    destruct (dict_get_append_same (dict_ensure eqb d (key_of r)) (key_of r)
                (item_of r) (dict_mem_ensure d (key_of r))) as (l & H1 & H2).
    rewrite <- E. rewrite <- E in Hg'. rewrite Hg' in H1. injection H1 as <-.
    exists (items ++ [item_of r])%list. split; [exact H2|].
    apply in_or_app. now left.
  - exists items. split; [|exact Hin].
    rewrite dict_get_append_other; [exact Hg'|].
    intros Heq. apply eqb_eq in Heq. congruence.
Qed.

Lemma filed_new (d : list (K * list A)) (r : Row) :
  filed eqb key_of item_of (index_step eqb key_of item_of d r) r.
Proof.
  unfold index_step, filed.
  destruct (dict_get_append_same (dict_ensure eqb d (key_of r)) (key_of r)
              (item_of r) (dict_mem_ensure d (key_of r))) as (l & H1 & H2).
  exists (l ++ [item_of r])%list. split; [exact H2|].
  apply in_or_app. right. now left.
Qed.

Lemma index_fold_filed (rows : list Row) :
  forall d row, filed eqb key_of item_of d row \/ In row rows ->
    filed eqb key_of item_of (fold_left (index_step eqb key_of item_of) rows d) row.
Proof.
  induction rows as [|r rows IH]; intros d row H; simpl.
  - destruct H as [H | []]. exact H.
  - apply IH. destruct H as [H | [-> | H]].
    + left. now apply filed_step.
    + left. apply filed_new.
    + now right.
Qed.

Lemma index_fold_nodup (rows : list Row) :
  forall d, NoDup (map fst d) ->
    NoDup (map fst (fold_left (index_step eqb key_of item_of) rows d)).
Proof.
  induction rows as [|r rows IH]; intros d H; simpl; [exact H|].
  apply IH. unfold index_step. rewrite dict_append_keys.
  now apply dict_ensure_nodup.
Qed.

End OneIndex.

(** The pass builds each of its two indexes as if alone. *)
Lemma grouping_pass_split {A : Type} (item_of : Row -> A)
  (key_columns : list string) (processed : list Row) :
  forall st,
    fold_left (group_step item_of key_columns) processed st
    = (fold_left (index_step tuple_eqb (key_tuple_of key_columns) item_of)
         processed (fst st),
       fold_left (index_step String.eqb (key_str_of key_columns) item_of)
         processed (snd st)).
Proof.
  induction processed as [|r rows IH]; intros [g j]; simpl; [reflexivity|].
  rewrite IH. reflexivity.
Qed.

Lemma key_tuple_clean (key_columns : list string) (row : Row) :
  (forall col, In col key_columns -> Str.contains "_" (row_get row col) = false) ->
  clean_key (List.length key_columns) (key_tuple_of key_columns row).
Proof.
  intros H. split.
  - unfold key_tuple_of. apply length_map.
  - unfold key_tuple_of. apply Forall_forall. intros v Hv.
    apply in_map_iff in Hv. destruct Hv as (col & <- & Hcol). now apply H.
Qed.

Lemma string_index_is_joined_tuple_index {A : Type} (item_of : Row -> A)
  (key_columns : list string) (processed : list Row) :
  (forall row col, In row processed -> In col key_columns ->
                   Str.contains "_" (row_get row col) = false) ->
  forall groups, clean_keys (List.length key_columns) groups ->
    fold_left (index_step String.eqb (key_str_of key_columns) item_of)
      processed (join_keys groups)
    = join_keys (fold_left (index_step tuple_eqb (key_tuple_of key_columns) item_of)
                   processed groups)
    /\ clean_keys (List.length key_columns)
         (fold_left (index_step tuple_eqb (key_tuple_of key_columns) item_of)
            processed groups).
Proof.
  induction processed as [|r rows IH]; intros Hsep groups Hg; simpl.
  - now split.
  - assert (Hk : clean_key (List.length key_columns) (key_tuple_of key_columns r)).
    { apply key_tuple_clean. intros col Hcol. apply Hsep; [now left | exact Hcol]. }
    assert (Hg1 : clean_keys (List.length key_columns)
                    (dict_ensure tuple_eqb groups (key_tuple_of key_columns r)))
      by now apply clean_keys_ensure.
    assert (E : index_step String.eqb (key_str_of key_columns) item_of
                  (join_keys groups) r
                = join_keys (index_step tuple_eqb (key_tuple_of key_columns)
                               item_of groups r)).
    { unfold index_step, key_str_of.
      change (map (row_get r) key_columns) with (key_tuple_of key_columns r).
      rewrite (join_keys_ensure _ groups _ Hg Hk).
      now rewrite (join_keys_append _ _ _ (item_of r) Hg1 Hk). }
    rewrite E. apply IH.
    + intros row col Hrow Hcol. apply Hsep; [now right | exact Hcol].
    + unfold index_step. now apply clean_keys_append.
Qed.

(** C1.  When no canonical key value of any row holds the separator
    ["_"], the string index is the tuple index with every key joined:
    the same groups in the same first-seen order, each with the same
    records in the same append order.  Keys are not repeated in either
    index, two rows have equal key tuples exactly when they have equal
    key strings, and the record of every row sits in the tuple group of
    its key tuple and in the string group of its key string, which hold
    the same list of records.  (This holds for every list of key columns;
    [process_data] runs the pass only on a non-empty one.) *)
Theorem tuple_and_string_index_agree {A : Type} (item_of : Row -> A)
  (key_columns : list string) (processed : list Row)
  (Hsep : forall row col, In row processed -> In col key_columns ->
                          Str.contains "_" (row_get row col) = false) :
  let groups := fst (grouping_pass item_of key_columns processed) in
  let json_data_dict := snd (grouping_pass item_of key_columns processed) in
  json_data_dict = join_keys groups
  /\ map snd json_data_dict = map snd groups
  /\ map fst json_data_dict = map (Str.join "_") (map fst groups)
  /\ NoDup (map fst groups)
  /\ NoDup (map fst json_data_dict)
  /\ (forall r1 r2, In r1 processed -> In r2 processed ->
        (key_tuple_of key_columns r1 = key_tuple_of key_columns r2
         <-> key_str_of key_columns r1 = key_str_of key_columns r2))
  /\ (forall row, In row processed ->
        exists items,
          dict_get tuple_eqb groups (key_tuple_of key_columns row) = Some items
          /\ dict_get String.eqb json_data_dict (key_str_of key_columns row)
             = Some items
          /\ In (item_of row) items).
Proof.
  intros groups json_data_dict. subst groups json_data_dict.
  unfold grouping_pass. rewrite grouping_pass_split. cbn [fst snd].
  set (groups := fold_left (index_step tuple_eqb (key_tuple_of key_columns) item_of)
                   processed []).
  destruct (string_index_is_joined_tuple_index item_of key_columns processed
              Hsep [] (Forall_nil _)) as [E Hclean].
  change (join_keys (@nil (list string * list A)))
    with (@nil (string * list A)) in E.
  fold groups in E, Hclean. rewrite E.
  assert (Hkeys : forall row, In row processed ->
            clean_key (List.length key_columns) (key_tuple_of key_columns row)).
  { intros row Hrow. apply key_tuple_clean. intros col. now apply Hsep. }
  split; [reflexivity|].
  split; [unfold join_keys; rewrite map_map; reflexivity|].
  split; [unfold join_keys; rewrite !map_map; reflexivity|].
  split; [apply index_fold_nodup; [exact tuple_eqb_eq | constructor]|].
  split.
  { rewrite <- E. apply index_fold_nodup; [exact String.eqb_eq | constructor]. }
  split.
  - intros r1 r2 H1 H2. unfold key_str_of.
    change (map (row_get r1) key_columns) with (key_tuple_of key_columns r1).
    change (map (row_get r2) key_columns) with (key_tuple_of key_columns r2).
    split; [now intros -> |].
    apply (join_injective (List.length key_columns)); auto.
  - intros row Hrow.
    destruct (index_fold_filed tuple_eqb tuple_eqb_eq (key_tuple_of key_columns)
                item_of processed [] row (or_intror Hrow)) as (items & Hg & Hin).
    fold groups in Hg. exists items. repeat split; try assumption.
    unfold key_str_of.
    change (map (row_get row) key_columns) with (key_tuple_of key_columns row).
    rewrite (join_keys_get _ groups _ Hclean (Hkeys row Hrow)). exact Hg.
Qed.

(** Without the condition on the separator the two indexes can differ:
    two distinct key tuples with one key string. *)
Example separator_collision :
  let key_columns := ["寄件地区"; "到件地区"] in
  let r1 := [("寄件地区", "a_b"); ("到件地区", "c")] in
  let r2 := [("寄件地区", "a"); ("到件地区", "b_c")] in
  key_tuple_of key_columns r1 <> key_tuple_of key_columns r2
  /\ key_str_of key_columns r1 = key_str_of key_columns r2
  /\ List.length (fst (grouping_pass (fun r => r) key_columns [r1; r2])) = 2%nat
  /\ List.length (snd (grouping_pass (fun r => r) key_columns [r1; r2])) = 1%nat.
Proof. repeat split. discriminate. Qed.

Lemma tuple_and_string_index_agree_witness :
  let key_columns := ["日期"; "运单号码"] in
  let processed :=
    [[("日期", "2025-10-02"); ("运单号码", "A1"); ("费用", "10")];
     [("日期", "2025-10-02"); ("运单号码", "A1"); ("费用", "5")];
     [("日期", "2025-01-02"); ("运单号码", "B2"); ("费用", "3.5")]] in
  snd (grouping_pass (build_detail ["费用"]) key_columns processed)
  = join_keys (fst (grouping_pass (build_detail ["费用"]) key_columns processed)).
Proof.
  intros key_columns processed.
  refine (proj1 (tuple_and_string_index_agree (build_detail ["费用"])
                   key_columns processed _)).
  intros row col Hrow Hcol. simpl in Hrow, Hcol.
  destruct Hrow as [<- | [<- | [<- | []]]];
    destruct Hcol as [<- | [<- | []]]; reflexivity.
Defined.

(** ** Dates from serial numbers *)

Lemma digit_char_is_digit (n : Z) : Str.is_digit (Date.digit_char n) = true.
Proof.
  unfold Date.digit_char.
  assert (H : 0 <= n mod 10 < 10) by (apply Z.mod_pos_bound; lia).
  assert (C : n mod 10 = 0 \/ n mod 10 = 1 \/ n mod 10 = 2 \/ n mod 10 = 3
              \/ n mod 10 = 4 \/ n mod 10 = 5 \/ n mod 10 = 6 \/ n mod 10 = 7
              \/ n mod 10 = 8 \/ n mod 10 = 9) by lia.
  repeat (destruct C as [-> | C]; [reflexivity|]). now rewrite C.
Qed.

(** [strftime] always yields text of the shape YYYY-MM-DD. *)
Lemma strftime_shape (ymd : Z * Z * Z) : iso_date_shape (Date.strftime ymd) = true.
Proof.
  destruct ymd as [[y m] d].
  unfold Date.strftime, Date.four_digits, Date.two_digits.
  cbn [String.append iso_date_shape forallb].
  now rewrite !digit_char_is_digit.
Qed.

Lemma iso_date_shape_parts (s : string) :
  iso_date_shape s = true ->
  all_chars digit_or_dash s = true
  /\ Str.isdigit s = false
  /\ numeric_looking s = false
  /\ String.eqb s "" = false.
Proof.
  destruct s as [|y1 [|y2 [|y3 [|y4 [|h1 [|m1 [|m2 [|h2 [|d1 [|d2 [|x r]]]]]]]]]]];
    try (simpl; intros H; discriminate H).
  cbn [iso_date_shape forallb]. intros H.
  repeat (apply andb_true_iff in H; destruct H as [?H H]).
  apply andb_true_iff in H0. destruct H0 as [E1 E2].
  apply Ascii.eqb_eq in E1, E2. subst h1 h2.
  repeat split.
  - cbn [all_chars]. unfold digit_or_dash. rewrite H1, H2, H3, H4, H5, H6, H7, H8.
    reflexivity.
  - cbn [Str.isdigit Str.all_digits]. rewrite H1, H2, H3, H4. reflexivity.
  - unfold numeric_looking. cbn [all_chars]. unfold digit_or_dot.
    rewrite H1, H2, H3, H4. reflexivity.
Qed.

Lemma excel_serial_text_shape (s d : string) :
  excel_serial_text s = Some d -> iso_date_shape d = true.
Proof.
  unfold excel_serial_text.
  destruct (Str.isdigit (Str.replace_first "." s)); [|discriminate].
  destruct (Float.of_string s) as [f|]; [|discriminate].
  destruct (Float.gtb f 10000); [|discriminate].
  destruct (Date.excel_serial f) as [ymd|]; [|discriminate].
  intros [= <-]. apply strftime_shape.
Qed.

(** A date text passes the two general passes unchanged. *)
Lemma date_text_passes (d : string) :
  iso_date_shape d = true -> fix_sci (trim_nan d) = d.
Proof.
  intros H. apply dashed_passes. now destruct (iso_date_shape_parts d H).
Qed.

Lemma numeric_passes (s : string) :
  numeric_looking s = true ->
  fix_sci (trim_nan s) = if Str.endswith s ".0" then Str.drop_last2 s else s.
Proof.
  intros H. pose proof (numeric_looking_plain s H) as Hp.
  unfold trim_nan. rewrite (plain_not_nan s Hp).
  destruct (Str.endswith s ".0") eqn:E.
  - apply plain_fix_sci.
    destruct (endswith_split _ _ E) as [p Hs].
    rewrite Hs, drop_last2_app. rewrite Hs, all_chars_app in Hp.
    now apply andb_true_iff in Hp.
  - now apply plain_fix_sci.
Qed.

Lemma digits_passes (s : string) :
  Str.isdigit s = true -> fix_sci (trim_nan s) = s.
Proof.
  intros H. apply dashed_passes.
  apply isdigit_all_digits in H. rewrite all_digits_all_chars in H.
  apply (all_chars_weaken Str.is_digit); [|exact H].
  intros c Hc. unfold digit_or_dash. now rewrite Hc.
Qed.

(** [format_excel_date] on numeric-looking text: the serial block, then the
    general parser unless the text is digits only. *)
Lemma format_excel_date_numeric (td : string -> option string) (s : string) :
  numeric_looking s = true ->
  format_excel_date td (CStr s)
  = match excel_serial_text s with
    | Some d => d
    | None =>
        if negb (Str.isdigit s)
        then match td s with Some d => d | None => s end
        else s
    end.
Proof.
  intros H. pose proof (numeric_looking_plain s H) as Hp.
  destruct (numeric_looking_parts s H) as (_ & _ & Hne).
  unfold format_excel_date.
  rewrite (plain_lower s Hp), (plain_not_nan s Hp), (plain_strip s Hp).
  destruct s as [|c r]; [now elim Hne|]. reflexivity.
Qed.

Lemma excel_serial_text_numeric (s : string) :
  numeric_looking s = true ->
  excel_serial_text s
  = match Float.of_string s with
    | Some f =>
        if Float.gtb f 10000
        then option_map Date.strftime (Date.excel_serial f)
        else None
    | None => None
    end.
Proof. intros H. unfold excel_serial_text. now rewrite numeric_looking_code, H. Qed.

(** ** Whole numbers as binary64 values *)

Lemma div_rne_one (a : Z) : Float.div_rne a 1 = a.
Proof.
  unfold Float.div_rne. rewrite Z.div_1_r, Z.mod_1_r. reflexivity.
Qed.

Lemma div_rne_floor (a b : Z) : 0 < b -> a / b <= Float.div_rne a b.
Proof.
  intros Hb. unfold Float.div_rne.
  destruct (2 * (a mod b) <? b); [lia|].
  destruct (b <? 2 * (a mod b)); [lia|].
  destruct (Z.even (a / b)); lia.
Qed.

Lemma ilog2_ratio_one (n : Z) : 0 < n -> Float.ilog2_ratio n 1 = Z.log2 n.
Proof.
  intros Hn. unfold Float.ilog2_ratio.
  change (Z.log2 1) with 0. rewrite Z.sub_0_r.
  pose proof (Z.log2_nonneg n) as H0.
  destruct (Z.log2_spec n Hn) as [Hlo _].
  assert (E : (0 <=? Z.log2 n) = true) by now apply Z.leb_le.
  rewrite E.
  assert (F : (1 * 2 ^ Z.log2 n <=? n) = true) by (apply Z.leb_le; lia).
  now rewrite F.
Qed.

(** A whole number below [2^53] is a binary64 value. *)
Lemma round_nearest_small (n : Z) :
  0 < n < 2 ^ 53 ->
  exists k, 0 <= k /\ Float.round_nearest false n 1 = Float.Fin (n * 2 ^ k) (- k).
Proof.
  intros [Hpos Hlt]. unfold Float.round_nearest.
  assert (E0 : (n =? 0) = false) by (apply Z.eqb_neq; lia). rewrite E0.
  rewrite (ilog2_ratio_one n Hpos).
  pose proof (Z.log2_nonneg n) as Hl0.
  assert (Hl : Z.log2 n < 53) by (apply Z.log2_lt_pow2; lia).
  assert (Em : Z.max (Z.log2 n - 52) (-1074) = Z.log2 n - 52) by lia.
  rewrite Em. set (q := Z.log2 n - 52).
  exists (- q). split; [lia|]. rewrite Z.opp_involutive.
  destruct (0 <=? q) eqn:Eq.
  - apply Z.leb_le in Eq. assert (q = 0) by lia.
    replace q with 0 by lia. cbn [Z.opp Z.pow]. rewrite !Z.mul_1_r, div_rne_one.
    assert (F : (2 ^ 1024 <=? n) = false).
    { apply Z.leb_gt. assert (2 ^ 53 < 2 ^ 1024) by (vm_compute; reflexivity). lia. }
    cbn [andb]. change (Z.pow_pos 2 1024) with (2 ^ 1024). now rewrite F.
  - cbn [andb]. now rewrite div_rne_one.
Qed.

Lemma gtb_whole (n k c : Z) :
  0 <= k -> Float.gtb (Float.Fin (n * 2 ^ k) (- k)) c = (c <? n).
Proof.
  intros Hk. unfold Float.gtb.
  assert (Hp : 0 < 2 ^ k) by (apply Z.pow_pos_nonneg; lia).
  destruct (0 <=? - k) eqn:E.
  - apply Z.leb_le in E. assert (k = 0) by lia. subst k.
    cbn [Z.opp Z.pow]. now rewrite !Z.mul_1_r.
  - rewrite Z.opp_involutive.
    destruct (c <? n) eqn:F.
    + apply Z.ltb_lt in F. apply Z.ltb_lt. nia.
    + apply Z.ltb_ge in F. apply Z.ltb_ge. nia.
Qed.

Lemma timedelta_days_whole (n k : Z) :
  0 <= k -> 0 <= n ->
  Date.timedelta_days (Float.Fin (n * 2 ^ k) (- k))
  = if n <=? Date.max_delta_days then Some n else None.
Proof.
  intros Hk Hn. unfold Date.timedelta_days.
  assert (Hp : 0 < 2 ^ k) by (apply Z.pow_pos_nonneg; lia).
  assert (Q : Z.quot (if 0 <=? - k then n * 2 ^ k * 2 ^ (- k) else n * 2 ^ k)
                     (if 0 <=? - k then 1 else 2 ^ (- - k)) = n
              /\ Z.rem (if 0 <=? - k then n * 2 ^ k * 2 ^ (- k) else n * 2 ^ k)
                       (if 0 <=? - k then 1 else 2 ^ (- - k)) = 0).
  { destruct (0 <=? - k) eqn:E.
    - apply Z.leb_le in E. assert (k = 0) by lia. subst k.
      cbn [Z.opp Z.pow]. rewrite !Z.mul_1_r, Z.quot_1_r, Z.rem_1_r. now split.
    - rewrite Z.opp_involutive. split.
      + apply Z.quot_mul; lia.
      + apply Z.rem_mul; lia. }
  destruct Q as [Q1 Q2]. rewrite Q1, Q2. cbn [Z.eqb].
  unfold Date.us_per_day. rewrite Z.div_mul by lia.
  rewrite (Z.abs_eq n Hn). reflexivity.
Qed.

(** A whole number from [2^53] on rounds to an infinity or to a value of
    at least [2^53], too many days for a [timedelta]. *)
Lemma round_nearest_large (n : Z) :
  2 ^ 53 <= n -> Date.excel_serial (Float.round_nearest false n 1) = None.
Proof.
  intros Hn.
  assert (P53 : 0 < 2 ^ 53) by (vm_compute; reflexivity).
  assert (Hpos : 0 < n) by lia.
  unfold Float.round_nearest.
  assert (E0 : (n =? 0) = false) by (apply Z.eqb_neq; lia). rewrite E0.
  rewrite (ilog2_ratio_one n Hpos).
  assert (Hl : 53 <= Z.log2 n) by (apply Z.log2_le_pow2; lia).
  destruct (Z.log2_spec n Hpos) as [Hlo _].
  assert (Em : Z.max (Z.log2 n - 52) (-1074) = Z.log2 n - 52) by lia.
  rewrite Em. set (q := Z.log2 n - 52). fold q in Hlo.
  assert (Hq : 1 <= q) by (unfold q; lia).
  assert (Eq : (0 <=? q) = true) by (apply Z.leb_le; lia). rewrite Eq.
  assert (Hp : 0 < 2 ^ q) by (apply Z.pow_pos_nonneg; lia).
  assert (Hp2 : 2 <= 2 ^ q).
  { change 2 with (2 ^ 1) at 1. apply Z.pow_le_mono_r; lia. }
  set (m := Float.div_rne n (1 * 2 ^ q)).
  assert (Hm : 2 ^ 52 <= m).
  { unfold m. rewrite Z.mul_1_l.
    apply Z.le_trans with (n / 2 ^ q); [|now apply div_rne_floor].
    apply Z.div_le_lower_bound; [exact Hp|].
    replace (Z.log2 n) with (q + 52) in Hlo by (unfold q; lia).
    rewrite Z.pow_add_r in Hlo by lia. lia. }
  assert (P52 : 0 < 2 ^ 52) by (vm_compute; reflexivity).
  cbn [andb]. destruct (2 ^ 1024 <=? m * 2 ^ q); [reflexivity|].
  unfold Date.excel_serial, Date.timedelta_days.
  rewrite Eq, Z.quot_1_r, Z.rem_1_r. cbn [Z.eqb].
  unfold Date.us_per_day. rewrite Z.div_mul by lia.
  assert (Hbig : (Z.abs (m * 2 ^ q) <=? Date.max_delta_days) = false).
  { apply Z.leb_gt. unfold Date.max_delta_days.
    assert (999999999 < 2 ^ 52) by (vm_compute; reflexivity).
    rewrite Z.abs_eq by nia. nia. }
  now rewrite Hbig.
Qed.

(** [float] on a run of digits rounds the value that [int] reads. *)
Lemma float_of_digits (s : string) (v : Z) :
  Str.isdigit s = true ->
  Str.scan_digits 0 0 s = (v, String.length s, EmptyString) ->
  Float.of_string s = Some (Float.round_nearest false v 1).
Proof.
  intros H E.
  destruct (isdigit_numeric_looking s H) as [Hn _].
  destruct (numeric_looking_parts s Hn) as (H1 & _ & Hne).
  rewrite (of_string_numeric s H1). unfold Float.parse_decimal. rewrite E.
  destruct s as [|c r]; [now elim Hne|].
  cbn [String.length Nat.add Nat.eqb Z.of_nat Z.sub Z.leb Z.compare Z.pow].
  now rewrite !Z.mul_1_r, Z.add_0_r.
Qed.

(** The serial block on a run of digits, by the number it denotes. *)
Lemma excel_serial_text_digits (s : string) (n : Z) :
  Str.isdigit s = true -> Str.py_int s = Some n ->
  excel_serial_text s
  = if (10000 <? n) && (n <=? Date.max_ordinal - Date.excel_epoch)
    then Some (Date.strftime (Date.ord2ymd (Date.excel_epoch + n)))
    else None.
Proof.
  intros H Hi.
  destruct (py_int_digits s H) as (v & E & Hv & Hp).
  rewrite Hi in Hp.
  destruct (Nat.leb (String.length s) Str.int_max_str_digits); [|discriminate Hp].
  injection Hp as ->.
  destruct (isdigit_numeric_looking s H) as [Hn _].
  rewrite (excel_serial_text_numeric s Hn), (float_of_digits s v H E).
  assert (P53 : 2 ^ 53 = 9007199254740992) by reflexivity.
  unfold Date.max_ordinal, Date.excel_epoch.
  destruct (Z.eq_dec v 0) as [-> | Hnz]; [reflexivity|].
  destruct (Z_lt_le_dec v (2 ^ 53)) as [Hsmall | Hlarge].
  - destruct (round_nearest_small v) as (k & Hk & ->); [lia|].
    rewrite (gtb_whole v k 10000 Hk).
    destruct (10000 <? v) eqn:G; [|reflexivity].
    unfold Date.excel_serial. rewrite (timedelta_days_whole v k Hk Hv).
    unfold Date.max_delta_days, Date.max_ordinal, Date.excel_epoch.
    apply Z.ltb_lt in G.
    destruct (v <=? 3652059 - 693594) eqn:R.
    + apply Z.leb_le in R.
      assert (R1 : (v <=? 999999999) = true) by (apply Z.leb_le; lia).
      assert (R2 : (1 <=? 693594 + v) = true) by (apply Z.leb_le; lia).
      assert (R3 : (693594 + v <=? 3652059) = true) by (apply Z.leb_le; lia).
      now rewrite R1, R2, R3.
    + apply Z.leb_gt in R.
      destruct (v <=? 999999999); [|reflexivity].
      assert (R3 : (693594 + v <=? 3652059) = false) by (apply Z.leb_gt; lia).
      now rewrite R3, andb_false_r.
  - rewrite (round_nearest_large v Hlarge).
    assert (R : (v <=? 3652059 - 693594) = false) by (apply Z.leb_gt; lia).
    rewrite R, andb_false_r.
    now destruct (Float.gtb (Float.round_nearest false v 1) 10000).
Qed.

(** ** Numeric-looking cells *)

Lemma normalize_date_column (td : string -> option string) (col : string) (c : Cell) :
  is_date_column col = true ->
  normalize td col c = fix_sci (trim_nan (format_excel_date td c)).
Proof. intros H. unfold normalize. now rewrite H. Qed.

(** In a date column, numeric-looking text that the serial block turns
    into a date is normalised to that date. *)
Lemma normalize_serial_date (td : string -> option string) (col s d : string) :
  is_date_column col = true -> numeric_looking s = true ->
  excel_serial_text s = Some d -> normalize td col (CStr s) = d.
Proof.
  intros Hcol Hs Hd.
  rewrite (normalize_date_column td col _ Hcol), (format_excel_date_numeric td s Hs), Hd.
  apply date_text_passes. now apply (excel_serial_text_shape s).
Qed.

(** In a date column, digits that the serial block lets through stay as
    they are. *)
Lemma normalize_digits_kept (td : string -> option string) (col s : string) :
  is_date_column col = true -> Str.isdigit s = true ->
  excel_serial_text s = None -> normalize td col (CStr s) = s.
Proof.
  intros Hcol Hs Hd. destruct (isdigit_numeric_looking s Hs) as [Hn _].
  rewrite (normalize_date_column td col _ Hcol), (format_excel_date_numeric td s Hn), Hd.
  rewrite Hs. cbn [negb]. now apply digits_passes.
Qed.

(** C5, as the code has it.  For numeric-looking text [s]:
    - in a column without a date keyword only the trailing [.0] is
      trimmed;
    - in a date column, when the value is above 10000 and 1899-12-30 plus
      that many days is a date up to 9999-12-31, the cell becomes that
      date as YYYY-MM-DD; for digits-only text this is the case exactly
      from 10001 to 2958465;
    - in a date column, digits-only text at or below 10000 or above
      2958465 is left as it is;
    - in a date column, text with a decimal point whose value is at or
      below 10000, or too large for a date, goes to the general date
      parser and, when that does not recognise it, keeps its text with
      only the trailing [.0] trimmed.
    ["45932.0"] gives ["2025-10-02"] in a date column and ["45932"]
    elsewhere. *)
Theorem numeric_text_normalized (td : string -> option string)
  (col s : string) (Hs : numeric_looking s = true) :
  (is_date_column col = false ->
     normalize td col (CStr s)
     = if Str.endswith s ".0" then Str.drop_last2 s else s)
  /\ (is_date_column col = true ->
      forall f ymd,
        Float.of_string s = Some f -> Float.gtb f 10000 = true ->
        Date.excel_serial f = Some ymd ->
        normalize td col (CStr s) = Date.strftime ymd
        /\ iso_date_shape (Date.strftime ymd) = true)
  /\ (is_date_column col = true ->
      forall n,
        Str.isdigit s = true -> Str.py_int s = Some n ->
        10000 < n <= 2958465 ->
        normalize td col (CStr s)
        = Date.strftime (Date.ord2ymd (Date.excel_epoch + n)))
  /\ (is_date_column col = true ->
      forall n,
        Str.isdigit s = true -> Str.py_int s = Some n ->
        n <= 10000 \/ 2958465 < n ->
        normalize td col (CStr s) = s)
  /\ (is_date_column col = true ->
      forall f,
        Str.isdigit s = true -> Float.of_string s = Some f ->
        Float.gtb f 10000 = false \/ Date.excel_serial f = None ->
        normalize td col (CStr s) = s)
  /\ (is_date_column col = true ->
      forall f,
        Str.isdigit s = false -> Float.of_string s = Some f ->
        Float.gtb f 10000 = false \/ Date.excel_serial f = None ->
        td s = None ->
        normalize td col (CStr s)
        = if Str.endswith s ".0" then Str.drop_last2 s else s)
  /\ normalize td "日期" (CStr "45932.0") = "2025-10-02"
  /\ normalize td "运单号码" (CStr "45932.0") = "45932"
  /\ normalize td "日期" (CStr "10000") = "10000"
  /\ normalize td "日期" (CStr "10001") = "1927-05-19"
  /\ normalize td "日期" (CStr "2958465") = "9999-12-31"
  /\ normalize td "日期" (CStr "2958466") = "2958466".
Proof.
  assert (Fall : forall f, Float.of_string s = Some f ->
            Float.gtb f 10000 = false \/ Date.excel_serial f = None ->
            excel_serial_text s = None).
  { intros f Hf Hor. rewrite (excel_serial_text_numeric s Hs), Hf.
    destruct Hor as [-> | ->]; [reflexivity|].
    now destruct (Float.gtb f 10000). }
  split; [|split; [|split; [|split; [|split; [|split]]]]].
  - intros Hcol. rewrite (normalize_plain_column td col _ Hcol).
    apply (numeric_passes s Hs).
  - intros Hcol f ymd Hf Hg Hd. split; [|apply strftime_shape].
    apply (normalize_serial_date td col s _ Hcol Hs).
    now rewrite (excel_serial_text_numeric s Hs), Hf, Hg, Hd.
  - intros Hcol n Hdig Hn Hrange.
    apply (normalize_serial_date td col s _ Hcol Hs).
    rewrite (excel_serial_text_digits s n Hdig Hn).
    unfold Date.max_ordinal, Date.excel_epoch.
    assert (R1 : (10000 <? n) = true) by (apply Z.ltb_lt; lia).
    assert (R2 : (n <=? 3652059 - 693594) = true) by (apply Z.leb_le; lia).
    now rewrite R1, R2.
  - intros Hcol n Hdig Hn Hrange.
    apply (normalize_digits_kept td col s Hcol Hdig).
    rewrite (excel_serial_text_digits s n Hdig Hn).
    unfold Date.max_ordinal, Date.excel_epoch.
    destruct Hrange as [R | R].
    + assert (R1 : (10000 <? n) = false) by (apply Z.ltb_ge; lia). now rewrite R1.
    + assert (R2 : (n <=? 3652059 - 693594) = false) by (apply Z.leb_gt; lia).
      now rewrite R2, andb_false_r.
  - intros Hcol f Hdig Hf Hor.
    apply (normalize_digits_kept td col s Hcol Hdig). now apply (Fall f).
  - intros Hcol f Hdig Hf Hor Htd.
    rewrite (normalize_date_column td col _ Hcol), (format_excel_date_numeric td s Hs).
    rewrite (Fall f Hf Hor), Hdig, Htd. cbn [negb].
    apply (numeric_passes s Hs).
  - repeat split.
Qed.

Lemma numeric_text_normalized_witness :
  numeric_looking "45658" = true
  /\ is_date_column "清美出库日期" = true
  /\ normalize no_dates "清美出库日期" (CStr "45658") = "2025-01-01".
Proof.
  split; [reflexivity|]. split; [reflexivity|].
  refine (proj1 (proj2 (proj2
            (numeric_text_normalized no_dates "清美出库日期" "45658" eq_refl)))
          eq_refl 45658 eq_refl eq_refl _).
  lia.
Defined.

(** C5 as stated fails twice: ["45932.0"] in a date column gives
    ["2025-10-02"], not ["2025-09-01"]; and ["2958466"], numeric-looking
    and above 10000, is not rendered as a date, because 1899-12-30 plus
    2958466 days lies beyond 9999-12-31. *)
Lemma serial_example_and_range :
  is_date_column "日期" = true
  /\ normalize no_dates "日期" (CStr "45932.0") = "2025-10-02"
  /\ normalize no_dates "日期" (CStr "45932.0") <> "2025-09-01"
  /\ numeric_looking "2958466" = true
  /\ option_map (fun f => Float.gtb f 10000) (Float.of_string "2958466") = Some true
  /\ normalize no_dates "日期" (CStr "2958466") = "2958466"
  /\ iso_date_shape (normalize no_dates "日期" (CStr "2958466")) = false.
Proof. repeat split. intros H. vm_compute in H. discriminate H. Qed.

(** ** Normalising twice *)









(** * Further properties of the code *)

(** ** Selected and detail columns *)

Lemma str_in_In (x : string) (l : list string) : str_in x l = true <-> In x l.
Proof.
  unfold str_in. rewrite existsb_exists. split.
  - intros (y & Hy & E). apply String.eqb_eq in E. now subst.
  - intros H. exists x. split; [exact H | apply String.eqb_refl].
Qed.

Lemma split_columns_filter (cols : list string) (checks : list bool) :
  split_columns cols checks
  = (map fst (filter snd (combine cols checks)),
     map fst (filter (fun p => negb (snd p)) (combine cols checks))).
Proof.
  revert checks. induction cols as [|c cols IH]; intros [|b checks]; try reflexivity.
  simpl. rewrite IH. now destruct b.
Qed.

Lemma split_columns_perm (cols : list string) (checks : list bool) :
  List.length checks = List.length cols ->
  Permutation (fst (split_columns cols checks) ++ snd (split_columns cols checks)) cols.
Proof.
  revert checks. induction cols as [|c cols IH]; intros [|b checks] H;
    try discriminate H; [constructor|].
  injection H as H. specialize (IH checks H). simpl.
  destruct (split_columns cols checks) as [sel det]. simpl in IH.
  destruct b; simpl.
  - now constructor.
  - apply Permutation_sym. apply Permutation_cons_app. now apply Permutation_sym.
Qed.

(** X1.  With one check box per column, the check-box loop puts every
    column of the table into exactly one of the two lists, selected or
    detail, and keeps the table order inside each list. *)
Theorem columns_split_exactly (cols : list string) (checks : list bool)
  (Hlen : List.length checks = List.length cols) :
  let selected := fst (split_columns cols checks) in
  let detail := snd (split_columns cols checks) in
  Permutation (selected ++ detail) cols
  /\ selected = map fst (filter snd (combine cols checks))
  /\ detail = map fst (filter (fun p => negb (snd p)) (combine cols checks))
  /\ (NoDup cols ->
      NoDup selected /\ NoDup detail
      /\ forall c, In c cols -> (In c selected <-> ~ In c detail)).
Proof.
  intros selected detail.
  pose proof (split_columns_perm cols checks Hlen) as P. fold selected detail in P.
  split; [exact P|].
  split; [unfold selected; now rewrite split_columns_filter|].
  split; [unfold detail; now rewrite split_columns_filter|].
  intros Hnd.
  assert (Hnd' : NoDup (selected ++ detail)).
  { apply (Permutation_NoDup (Permutation_sym P) Hnd). }
  split; [now apply NoDup_app_remove_r in Hnd'|].
  split; [now apply NoDup_app_remove_l in Hnd'|].
  intros c Hc. split.
  - intros Hs Hd. revert Hnd' Hs Hd. clear. induction selected as [|x l IH]; simpl.
    + tauto.
    + intros Hnd [-> | Hs] Hd.
      * inversion Hnd as [|? ? Hnot _]; subst. apply Hnot. apply in_or_app. now right.
      * inversion Hnd; subst. now apply IH.
  - intros Hd. apply (Permutation_in _ (Permutation_sym P)) in Hc.
    apply in_app_or in Hc. tauto.
Qed.

Lemma columns_split_exactly_witness :
  Permutation (fst (split_columns ["日期"; "备注"; "运单号码"] [true; false; true])
               ++ snd (split_columns ["日期"; "备注"; "运单号码"] [true; false; true]))
    ["日期"; "备注"; "运单号码"].
Proof.
  exact (proj1 (columns_split_exactly ["日期"; "备注"; "运单号码"]
                  [true; false; true] eq_refl)).
Defined.

Lemma standard_key_columns_nodup : NoDup STANDARD_KEY_COLUMNS.
Proof.
  unfold STANDARD_KEY_COLUMNS.
  repeat (constructor; [simpl; intuition discriminate|]). constructor.
Qed.

Lemma remaining_keys_filter (selected : list string) :
  filter (fun col =>
            negb (str_in col
                    (filter (fun std_col => str_in std_col selected)
                       STANDARD_KEY_COLUMNS))) selected
  = filter (fun col => negb (str_in col STANDARD_KEY_COLUMNS)) selected.
Proof.
  apply filter_ext_in. intros col Hcol. f_equal.
  destruct (str_in col STANDARD_KEY_COLUMNS) eqn:E.
  - apply str_in_In. apply filter_In. split; [now apply str_in_In|].
    now apply str_in_In.
  - destruct (str_in col (filter _ STANDARD_KEY_COLUMNS)) eqn:F; [|reflexivity].
    apply str_in_In, filter_In in F. destruct F as [F _].
    apply str_in_In in F. congruence.
Qed.

(** X2.  The key columns are the selected standard columns in the order
    of the standard list, followed by the other selected columns in table
    order.  When the selected names are distinct, every selected column
    is a key column exactly once. *)
Theorem key_columns_ordered (selected : list string) :
  order_key_columns selected
  = (filter (fun std_col => str_in std_col selected) STANDARD_KEY_COLUMNS
     ++ filter (fun col => negb (str_in col STANDARD_KEY_COLUMNS)) selected)%list
  /\ (forall c, In c (order_key_columns selected) <-> In c selected)
  /\ (NoDup selected ->
      NoDup (order_key_columns selected)
      /\ Permutation (order_key_columns selected) selected).
Proof.
  assert (E : order_key_columns selected
              = (filter (fun std_col => str_in std_col selected) STANDARD_KEY_COLUMNS
                 ++ filter (fun col => negb (str_in col STANDARD_KEY_COLUMNS))
                      selected)%list).
  { unfold order_key_columns. now rewrite remaining_keys_filter. }
  assert (M : forall c, In c (order_key_columns selected) <-> In c selected).
  { intros c. rewrite E, in_app_iff, !filter_In. split.
    - intros [[_ H] | [H _]]; [now apply str_in_In | exact H].
    - intros H. destruct (str_in c STANDARD_KEY_COLUMNS) eqn:S.
      + left. split; [now apply str_in_In | now apply str_in_In].
      + right. split; [exact H | reflexivity]. }
  split; [exact E|]. split; [exact M|].
  intros Hnd.
  assert (N : NoDup (order_key_columns selected)).
  { rewrite E. apply NoDup_app.
    - apply NoDup_filter, standard_key_columns_nodup.
    - now apply NoDup_filter.
    - intros c H1 H2. apply filter_In in H1, H2.
      destruct H1 as [H1 _], H2 as [_ H2].
      apply str_in_In in H1. apply negb_true_iff in H2. congruence. }
  split; [exact N|]. now apply NoDup_Permutation.
Qed.

Lemma key_columns_ordered_witness :
  Permutation (order_key_columns ["备注"; "运单号码"; "日期"]) ["备注"; "运单号码"; "日期"].
Proof.
  refine (proj2 (proj2 (proj2 (key_columns_ordered ["备注"; "运单号码"; "日期"])) _)).
  repeat (constructor; [simpl; intuition discriminate|]). constructor.
Defined.

(** ** What the two indexes hold *)

Section IndexContents.

Context {K A : Type} (eqb : K -> K -> bool).
Hypothesis eqb_eq : forall x y, eqb x y = true <-> x = y.
Context (key_of : Row -> K) (item_of : Row -> A).

Lemma eqb_refl_true (k : K) : eqb k k = true.
Proof. now apply eqb_eq. Qed.

Lemma eqb_false_neq (x y : K) : eqb x y = false <-> x <> y.
Proof.
  split.
  - intros H E. apply eqb_eq in E. congruence.
  - intros H. destruct (eqb x y) eqn:E; [|reflexivity]. apply eqb_eq in E. congruence.
Qed.

Lemma dict_get_none_mem (d : list (K * list A)) (k : K) :
  dict_get eqb d k = None <-> dict_mem eqb d k = false.
Proof.
  induction d as [|[a l] r IH]; simpl; [easy|].
  destruct (eqb a k); simpl; [easy | exact IH].
Qed.

Lemma dict_get_snoc_new (d : list (K * list A)) (k k' : K) (l : list A) :
  dict_get eqb d k' = None ->
  dict_get eqb (d ++ [(k, l)]) k' = if eqb k k' then Some l else None.
Proof.
  induction d as [|[a x] r IH]; simpl; [reflexivity|].
  destruct (eqb a k'); [discriminate | exact IH].
Qed.

Lemma dict_get_snoc_old (d : list (K * list A)) (k k' : K) (l x : list A) :
  dict_get eqb d k' = Some x -> dict_get eqb (d ++ [(k, l)]) k' = Some x.
Proof.
  induction d as [|[a y] r IH]; simpl; [discriminate|].
  destruct (eqb a k'); [easy | exact IH].
Qed.

(** Looking a key up after one row has been filed. *)
Lemma index_step_get (d : list (K * list A)) (r : Row) (k : K) :
  dict_get eqb (index_step eqb key_of item_of d r) k
  = if eqb (key_of r) k
    then Some (match dict_get eqb d k with Some l => l | None => [] end
               ++ [item_of r])%list
    else dict_get eqb d k.
Proof.
  unfold index_step.
  destruct (eqb (key_of r) k) eqn:E.
  - apply eqb_eq in E. subst k.
    destruct (dict_get_append_same eqb (dict_ensure eqb d (key_of r)) (key_of r)
                (item_of r) (dict_mem_ensure eqb eqb_eq d (key_of r)))
      as (l & H1 & H2).
    rewrite H2. f_equal. f_equal.
    unfold dict_ensure in H1.
    destruct (dict_mem eqb d (key_of r)) eqn:M.
    + now rewrite H1.
    + apply dict_get_none_mem in M.
      rewrite (dict_get_snoc_new d _ _ _ M), eqb_refl_true in H1.
      injection H1 as <-. now rewrite M.
  - apply eqb_false_neq in E.
    rewrite (dict_get_append_other eqb eqb_eq _ _ _ _ E).
    unfold dict_ensure. destruct (dict_mem eqb d (key_of r)) eqn:M; [reflexivity|].
    destruct (dict_get eqb d k) as [x|] eqn:G.
    + now apply dict_get_snoc_old.
    + rewrite (dict_get_snoc_new d _ _ _ G).
      apply eqb_false_neq in E. now rewrite E.
Qed.

Lemma index_step_keys (d : list (K * list A)) (r : Row) :
  map fst (index_step eqb key_of item_of d r)
  = if existsb (eqb (key_of r)) (map fst d) then map fst d
    else (map fst d ++ [key_of r])%list.
Proof.
  unfold index_step. rewrite dict_append_keys. unfold dict_ensure.
  assert (E : dict_mem eqb d (key_of r) = existsb (eqb (key_of r)) (map fst d)).
  { induction d as [|[a l] d' IH]; simpl; [reflexivity|]. rewrite IH. f_equal.
    destruct (eqb a (key_of r)) eqn:E1, (eqb (key_of r) a) eqn:E2; try reflexivity.
    - apply eqb_eq in E1. subst a. now rewrite eqb_refl_true in E2.
    - apply eqb_eq in E2. rewrite E2 in E1. now rewrite eqb_refl_true in E1. }
  rewrite <- E. destruct (dict_mem eqb d (key_of r)); [reflexivity|].
  rewrite map_app. reflexivity.
Qed.

Lemma record_count_step (d : list (K * list A)) (r : Row) :
  record_count (index_step eqb key_of item_of d r) = S (record_count d).
Proof.
  unfold index_step.
  assert (Happ : forall (d0 : list (K * list A)) k x, dict_mem eqb d0 k = true ->
            record_count (dict_append eqb d0 k x) = S (record_count d0)).
  { intros d0 k x. unfold record_count.
    induction d0 as [|[a l] d' IH]; simpl; [discriminate|].
    destruct (eqb a k); simpl; intros H.
    - rewrite !List.length_app. simpl. lia.
    - rewrite !List.length_app. rewrite (IH H). lia. }
  rewrite Happ by apply (dict_mem_ensure eqb eqb_eq).
  f_equal. unfold dict_ensure, record_count.
  destruct (dict_mem eqb d (key_of r)); [reflexivity|].
  rewrite map_app, List.concat_app, List.length_app. simpl. lia.
Qed.

Lemma nonempty_step (d : list (K * list A)) (r : Row) :
  Forall (fun g => snd g <> []) d ->
  Forall (fun g => snd g <> []) (index_step eqb key_of item_of d r).
Proof.
  intros H. unfold index_step, dict_ensure.
  destruct (dict_mem eqb d (key_of r)) eqn:M.
  - induction d as [|[a l] d' IH]; simpl; [constructor|].
    inversion H; subst. simpl in M.
    destruct (eqb a (key_of r)); constructor; simpl; auto.
    now destruct l.
  - induction d as [|[a l] d' IH]; simpl.
    + rewrite eqb_refl_true. constructor; [simpl; discriminate | constructor].
    + inversion H; subst. simpl in M. apply orb_false_iff in M.
      destruct M as [M1 M2]. rewrite M1. constructor; auto.
Qed.

Lemma fold_left_snoc {X Y : Type} (f : X -> Y -> X) (l : list Y) (y : Y) (x : X) :
  fold_left f (l ++ [y]) x = f (fold_left f l x) y.
Proof. now rewrite fold_left_app. Qed.

Lemma index_fold_count (rows : list Row) :
  record_count (fold_left (index_step eqb key_of item_of) rows [])
  = List.length rows.
Proof.
  induction rows as [|r rows IH] using rev_ind; [reflexivity|].
  rewrite fold_left_snoc, record_count_step, IH, List.length_app. simpl. lia.
Qed.

Lemma index_fold_nonempty (rows : list Row) :
  Forall (fun g => snd g <> [])
    (fold_left (index_step eqb key_of item_of) rows []).
Proof.
  induction rows as [|r rows IH] using rev_ind; [constructor|].
  rewrite fold_left_snoc. now apply nonempty_step.
Qed.

Lemma index_fold_get (rows : list Row) (k : K) :
  dict_get eqb (fold_left (index_step eqb key_of item_of) rows []) k
  = match filter (fun r => eqb (key_of r) k) rows with
    | [] => None
    | l => Some (map item_of l)
    end.
Proof.
  induction rows as [|r rows IH] using rev_ind; [reflexivity|].
  rewrite fold_left_snoc, index_step_get, IH, filter_app. simpl.
  destruct (eqb (key_of r) k).
  - destruct (filter (fun r0 => eqb (key_of r0) k) rows) as [|x l]; simpl.
    + reflexivity.
    + now rewrite map_app.
  - rewrite app_nil_r. reflexivity.
Qed.

Lemma index_fold_keys (rows : list Row) :
  map fst (fold_left (index_step eqb key_of item_of) rows [])
  = first_seen eqb (map key_of rows).
Proof.
  unfold first_seen.
  induction rows as [|r rows IH] using rev_ind; [reflexivity|].
  rewrite fold_left_snoc, index_step_keys, IH, map_app. simpl.
  now rewrite fold_left_snoc.
Qed.

End IndexContents.

Lemma first_seen_incl {K : Type} (eqb : K -> K -> bool) (l : list K) :
  forall k, In k (first_seen eqb l) -> In k l.
Proof.
  unfold first_seen.
  induction l as [|x l IH] using rev_ind; [easy|].
  intros k. rewrite fold_left_snoc.
  destruct (existsb (eqb x) _).
  - intros H. apply in_or_app. left. now apply IH.
  - intros H. apply in_app_or in H. apply in_or_app.
    destruct H as [H | H]; [left; now apply IH | now right].
Qed.

Lemma grouping_keeps_every_row_aux {A : Type} (item_of : Row -> A)
  (key_columns : list string) (processed : list Row) :
  record_count (fst (grouping_pass item_of key_columns processed))
  = List.length processed
  /\ Forall (fun g => snd g <> [])
       (fst (grouping_pass item_of key_columns processed)).
Proof.
  unfold grouping_pass. rewrite grouping_pass_split. cbn [fst].
  split.
  - apply (index_fold_count tuple_eqb tuple_eqb_eq).
  - apply (index_fold_nonempty tuple_eqb tuple_eqb_eq).
Qed.

(** X3.  Grouping loses and invents nothing: each of the two indexes
    holds as many records as there are rows, and no group is empty. *)
Theorem grouping_keeps_every_row {A : Type} (item_of : Row -> A)
  (key_columns : list string) (processed : list Row) :
  record_count (fst (grouping_pass item_of key_columns processed))
  = List.length processed
  /\ record_count (snd (grouping_pass item_of key_columns processed))
     = List.length processed
  /\ Forall (fun g => snd g <> [])
       (fst (grouping_pass item_of key_columns processed))
  /\ Forall (fun g => snd g <> [])
       (snd (grouping_pass item_of key_columns processed)).
Proof.
  unfold grouping_pass. rewrite grouping_pass_split. cbn [fst snd].
  repeat split.
  - apply (index_fold_count tuple_eqb tuple_eqb_eq).
  - apply (index_fold_count String.eqb String.eqb_eq).
  - apply (index_fold_nonempty tuple_eqb tuple_eqb_eq).
  - apply (index_fold_nonempty String.eqb String.eqb_eq).
Qed.

(** X4.  Each index is keyed by the distinct keys of the rows in the order
    of their first occurrence, and the group of a key holds the records
    of exactly the rows with that key, in row order.  This holds for the
    tuple index and for the string index, whatever the key values
    contain. *)
Theorem groups_hold_their_rows_in_order {A : Type} (item_of : Row -> A)
  (key_columns : list string) (processed : list Row) :
  let groups := fst (grouping_pass item_of key_columns processed) in
  let json_data_dict := snd (grouping_pass item_of key_columns processed) in
  map fst groups = first_seen tuple_eqb (map (key_tuple_of key_columns) processed)
  /\ map fst json_data_dict
     = first_seen String.eqb (map (key_str_of key_columns) processed)
  /\ (forall k,
        dict_get tuple_eqb groups k
        = match filter (fun r => tuple_eqb (key_tuple_of key_columns r) k) processed with
          | [] => None
          | l => Some (map item_of l)
          end)
  /\ (forall k,
        dict_get String.eqb json_data_dict k
        = match filter (fun r => String.eqb (key_str_of key_columns r) k) processed with
          | [] => None
          | l => Some (map item_of l)
          end).
Proof.
  intros groups json_data_dict. subst groups json_data_dict.
  unfold grouping_pass. rewrite grouping_pass_split. cbn [fst snd].
  repeat split.
  - apply (index_fold_keys tuple_eqb tuple_eqb_eq).
  - apply (index_fold_keys String.eqb String.eqb_eq).
  - intros k. apply (index_fold_get tuple_eqb tuple_eqb_eq).
  - intros k. apply (index_fold_get String.eqb String.eqb_eq).
Qed.

(** ** Layout of the result sheet *)

Lemma sheet_row_width (gi : Z) (kt hs : list string) (item : Detail) :
  List.length (sheet_row gi kt hs item)
  = (1 + List.length kt + List.length hs)%nat.
Proof.
  unfold sheet_row. simpl. now rewrite List.length_app, !length_map.
Qed.

Lemma key_column_indexes_range (key_columns : list string) (c : Z) :
  In c (key_column_indexes key_columns) ->
  2 <= c <= 1 + Z.of_nat (List.length key_columns).
Proof.
  unfold key_column_indexes. intros H. apply in_map_iff in H.
  destruct H as (i & <- & Hi). apply in_seq in Hi. lia.
Qed.

Lemma region_ok_widen (nkeys lo hi lo' hi' : Z) (m : Z * Z * Z * Z) :
  lo' <= lo -> hi <= hi' -> region_ok nkeys lo hi m -> region_ok nkeys lo' hi' m.
Proof. destruct m as [[[sr sc] er] ec]. unfold region_ok. lia. Qed.

Lemma cell_ok_widen (nkeys lo hi lo' hi' : Z) (p : Z * Z) :
  lo' <= lo -> hi <= hi' -> cell_ok nkeys lo hi p -> cell_ok nkeys lo' hi' p.
Proof. destruct p as [r c]. unfold cell_ok. lia. Qed.

(** *** Cells emptied by a merge *)

Section MapIndexed.

Context {X : Type}.

Lemma map_indexed_length (f : Z -> X -> X) (l : list X) :
  forall i, List.length (map_indexed f i l) = List.length l.
Proof. induction l as [|x l IH]; intros i; simpl; [reflexivity | now rewrite IH]. Qed.

Lemma map_indexed_app (f : Z -> X -> X) (a b : list X) :
  forall i,
    map_indexed f i (a ++ b)
    = (map_indexed f i a ++ map_indexed f (i + Z.of_nat (List.length a)) b)%list.
Proof.
  induction a as [|x a IH]; intros i.
  - simpl. now rewrite Z.add_0_r.
  - cbn [map_indexed app List.length]. rewrite IH. do 3 f_equal. lia.
Qed.

Lemma map_indexed_ext (f g : Z -> X -> X) (l : list X) :
  forall i,
    (forall j x, i <= j < i + Z.of_nat (List.length l) -> f j x = g j x) ->
    map_indexed f i l = map_indexed g i l.
Proof.
  induction l as [|x l IH]; intros i H; [reflexivity|].
  cbn [map_indexed]. rewrite (H i x) by (simpl List.length; lia).
  f_equal. apply IH. intros j y Hj. apply H. simpl List.length. lia.
Qed.

Lemma map_indexed_id (l : list X) : forall i, map_indexed (fun _ x => x) i l = l.
Proof. induction l as [|x l IH]; intros i; simpl; [reflexivity | now rewrite IH]. Qed.

Lemma map_indexed_map (f : X -> X) (l : list X) :
  forall i, map_indexed (fun _ => f) i l = map f l.
Proof. induction l as [|x l IH]; intros i; simpl; [reflexivity | now rewrite IH]. Qed.

Lemma map_indexed_same (f : Z -> X -> X) (l : list X) (i : Z) :
  (forall j x, i <= j < i + Z.of_nat (List.length l) -> f j x = x) ->
  map_indexed f i l = l.
Proof.
  intros H. rewrite (map_indexed_ext f (fun _ x => x) l i H). apply map_indexed_id.
Qed.

End MapIndexed.

Lemma clear_column_length (c : Z) (row : list PyVal) :
  List.length (clear_column c row) = List.length row.
Proof. apply map_indexed_length. Qed.

(** A merge of the cells [sr .. er] of column [c], on a sheet whose rows
    [sr .. er] are the last ones: the first row of the block stays, the
    others lose their cell in column [c]. *)
Lemma clean_column_block (c sr er : Z) (old : list (list PyVal))
  (first : list PyVal) (rest : list (list PyVal)) :
  sr = 1 + Z.of_nat (List.length old) ->
  er = sr + Z.of_nat (List.length rest) ->
  clean_merge_range (sr, c, er, c) (old ++ first :: rest)
  = (old ++ first :: map (clear_column c) rest)%list.
Proof.
  intros Hsr Her. unfold clean_merge_range.
  rewrite map_indexed_app. f_equal.
  - apply map_indexed_same. intros r row Hr.
    apply map_indexed_same. intros j v _.
    assert (E : (sr <=? r) = false) by (apply Z.leb_gt; lia).
    now rewrite E.
  - cbn [map_indexed]. f_equal.
    + apply map_indexed_same. intros j v _.
      replace (1 + Z.of_nat (List.length old)) with sr by lia.
      rewrite Z.eqb_refl.
      destruct (Z.eq_dec j c) as [-> | Hne].
      * rewrite Z.eqb_refl. cbn [andb negb]. now rewrite !andb_false_r.
      * assert (E : (c <=? j) && (j <=? c) = false).
        { destruct (c <=? j) eqn:A; [|reflexivity].
          apply Z.leb_le in A. apply Z.leb_gt. lia. }
        destruct (sr <=? sr), (sr <=? er); cbn [andb]; try reflexivity.
        now rewrite E.
    + rewrite <- (map_indexed_map (clear_column c) rest
                    (1 + Z.of_nat (List.length old) + 1)).
      apply map_indexed_ext. intros r row Hr.
      unfold clear_column. apply map_indexed_ext. intros j v _.
      assert (E1 : (sr <=? r) = true) by (apply Z.leb_le; lia).
      assert (E2 : (r <=? er) = true) by (apply Z.leb_le; lia).
      assert (E3 : (r =? sr) = false) by (apply Z.eqb_neq; lia).
      rewrite E1, E2, E3. cbn [andb negb]. rewrite andb_true_r.
      destruct (Z.eq_dec j c) as [-> | Hne].
      * now rewrite Z.leb_refl, Z.eqb_refl.
      * assert (E4 : (j =? c) = false) by (now apply Z.eqb_neq). rewrite E4.
        destruct (c <=? j) eqn:A; [|reflexivity].
        apply Z.leb_le in A. cbn [andb].
        assert (E5 : (j <=? c) = false) by (apply Z.leb_gt; lia).
        now rewrite E5.
Qed.

(** The same for one merge per column of [cols]. *)
Lemma clean_columns_block (cols : list Z) (sr er : Z) (old : list (list PyVal))
  (first : list PyVal) :
  forall rest : list (list PyVal),
    sr = 1 + Z.of_nat (List.length old) ->
    er = sr + Z.of_nat (List.length rest) ->
    fold_left (fun cells m => clean_merge_range m cells)
      (map (fun c => (sr, c, er, c)) cols) (old ++ first :: rest)%list
    = (old ++ first
         :: map (fun row => fold_left (fun row c => clear_column c row) cols row)
              rest)%list.
Proof.
  induction cols as [|c cols IH]; intros rest Hsr Her.
  - simpl. now rewrite map_id.
  - cbn [map fold_left]. rewrite (clean_column_block c sr er old first rest Hsr Her).
    rewrite IH by (rewrite ?length_map; assumption).
    now rewrite map_map.
Qed.

Lemma clear_column_nones (c : Z) (n : nat) :
  forall i, map_indexed (fun j v => if j =? c then VNone else v) i (repeat VNone n)
            = repeat VNone n.
Proof.
  induction n as [|n IH]; intros i; [reflexivity|].
  cbn [repeat map_indexed]. rewrite IH. now destruct (i =? c).
Qed.

(** Emptying the columns [1 .. n] of a row with at least [n] cells. *)
Lemma clear_first_columns (n : nat) (row : list PyVal) :
  (n <= List.length row)%nat ->
  fold_left (fun row c => clear_column c row)
    (map (fun i => Z.of_nat i + 1) (seq 0 n)) row
  = (repeat VNone n ++ skipn n row)%list.
Proof.
  induction n as [|n IH]; intros Hn; [reflexivity|].
  rewrite seq_S, map_app, fold_left_app. cbn [seq map fold_left Nat.add].
  rewrite IH by lia.
  unfold clear_column. rewrite map_indexed_app, clear_column_nones, repeat_length.
  assert (Hs : exists x, skipn n row = x :: skipn (S n) row).
  { clear IH. revert row Hn. induction n as [|n IHn]; intros [|y row] Hn;
      simpl in Hn; try lia.
    - now exists y.
    - destruct (IHn row) as [x Hx]; [lia|]. exists x. exact Hx. }
  destruct Hs as [x Hx]. rewrite Hx. cbn [map_indexed].
  replace (1 + Z.of_nat n =? Z.of_nat n + 1) with true by (symmetry; apply Z.eqb_eq; lia).
  rewrite map_indexed_same.
  - replace (repeat VNone (S n)) with (repeat VNone n ++ [VNone])%list
      by (rewrite <- repeat_cons; reflexivity).
    now rewrite <- app_assoc.
  - intros j v Hj.
    assert (E : (j =? Z.of_nat n + 1) = false) by (apply Z.eqb_neq; lia).
    now rewrite E.
Qed.

Lemma sequence_and_key_columns (key_columns : list string) :
  (1 :: key_column_indexes key_columns)%list
  = map (fun i => Z.of_nat i + 1) (seq 0 (S (List.length key_columns))).
Proof.
  unfold key_column_indexes. cbn [seq map]. f_equal.
  rewrite <- seq_shift, map_map. apply map_ext. intros i. lia.
Qed.

(** The row of a later record of a group after the merges. *)
Lemma merged_row (key_columns : list string) (gi : Z) (kt hs : list string)
  (item : Detail) :
  List.length kt = List.length key_columns ->
  fold_left (fun row c => clear_column c row)
    (1 :: key_column_indexes key_columns) (sheet_row gi kt hs item)
  = (repeat VNone (1 + List.length kt) ++ map (detail_get item) hs)%list.
Proof.
  intros Hk. rewrite sequence_and_key_columns, clear_first_columns.
  - rewrite <- Hk. f_equal. unfold sheet_row. cbn [Nat.add skipn].
    rewrite skipn_app, length_map, Nat.sub_diag. cbn [skipn].
    rewrite skipn_all2 by (rewrite length_map; lia). reflexivity.
  - rewrite sheet_row_width. lia.
Qed.

Lemma group_block_length (gi : Z) (hs : list string) (g : list string * list Detail) :
  List.length (group_block gi hs g) = List.length (snd g).
Proof.
  unfold group_block. destruct (snd g) as [|x l]; [reflexivity|].
  simpl. now rewrite length_map.
Qed.

(** The rows of a sheet after one turn of the loop. *)
Lemma write_group_cells (key_columns hs : list string) (rn gi : Z) (ws : Sheet)
  (g : list string * list Detail) :
  List.length (fst g) = List.length key_columns ->
  rn = 1 + Z.of_nat (List.length (sheet_rows ws)) ->
  sheet_rows (snd (write_group key_columns hs (rn, gi, ws) g))
  = (sheet_rows ws ++ group_block gi hs g)%list.
Proof.
  destruct g as [kt items]. cbn [fst snd]. intros Hk Hrn.
  unfold write_group. cbn [snd sheet_rows]. unfold group_block. cbn [fst snd].
  destruct items as [|x [|y items]].
  - cbn [List.length map]. replace (rn <? rn + Z.of_nat 0 - 1) with false
      by (symmetry; apply Z.ltb_ge; lia).
    reflexivity.
  - cbn [List.length map]. replace (rn <? rn + Z.of_nat 1 - 1) with false
      by (symmetry; apply Z.ltb_ge; lia).
    reflexivity.
  - set (n := List.length (x :: y :: items)).
    replace (rn <? rn + Z.of_nat n - 1) with true
      by (symmetry; apply Z.ltb_lt; unfold n; simpl List.length; lia).
    change ((rn, 1, rn + Z.of_nat n - 1, 1)
            :: map (fun c => (rn, c, rn + Z.of_nat n - 1, c))
                 (key_column_indexes key_columns))
      with (map (fun c => (rn, c, rn + Z.of_nat n - 1, c))
              (1 :: key_column_indexes key_columns)).
    change (map (sheet_row gi kt hs) (x :: y :: items))
      with (sheet_row gi kt hs x :: map (sheet_row gi kt hs) (y :: items)).
    rewrite clean_columns_block.
    + f_equal. f_equal. rewrite map_map. apply map_ext. intros item.
      now apply merged_row.
    + exact Hrn.
    + unfold n. rewrite length_map. simpl List.length. lia.
Qed.

Lemma sheet_blocks_length (hs : list string)
  (groups : list (list string * list Detail)) :
  forall gi, List.length (sheet_blocks gi hs groups) = record_count groups.
Proof.
  induction groups as [|g groups IH]; intros gi; [reflexivity|].
  cbn [sheet_blocks]. rewrite List.length_app, IH, group_block_length.
  unfold record_count. simpl. now rewrite List.length_app.
Qed.

(** The loop over the groups, from any state. *)
Lemma write_groups_layout (key_columns hs : list string)
  (groups : list (list string * list Detail)) :
  Forall (fun g => List.length (fst g) = List.length key_columns) groups ->
  Forall (fun g => snd g <> []) groups ->
  forall (rn gi : Z) (ws : Sheet),
  exists ws' new_merged new_centered,
    fold_left (write_group key_columns hs) groups (rn, gi, ws)
    = (rn + Z.of_nat (record_count groups),
       gi + Z.of_nat (List.length groups), ws')
    /\ (rn = 1 + Z.of_nat (List.length (sheet_rows ws)) ->
        sheet_rows ws' = (sheet_rows ws ++ sheet_blocks gi hs groups)%list)
    /\ merged ws' = (merged ws ++ new_merged)%list
    /\ Forall (region_ok (Z.of_nat (List.length key_columns)) rn
                 (rn + Z.of_nat (record_count groups) - 1)) new_merged
    /\ centered ws' = (centered ws ++ new_centered)%list
    /\ Forall (cell_ok (Z.of_nat (List.length key_columns)) rn
                 (rn + Z.of_nat (record_count groups) - 1)) new_centered.
Proof.
  intros Hkeys Hne. induction groups as [|[kt items] groups IH]; intros rn gi ws.
  - exists ws, [], []. unfold record_count. simpl.
    rewrite !Z.add_0_r, !app_nil_r. repeat split; auto.
  - inversion Hkeys as [|? ? Hk Hkeys']; subst. inversion Hne as [|? ? Hn Hne']; subst.
    simpl in Hk, Hn.
    assert (Hlen : (1 <= List.length items)%nat) by (destruct items; [easy | simpl; lia]).
    cbn [fold_left].
    pose proof (write_group_cells key_columns hs rn gi ws (kt, items) Hk) as Cells.
    unfold write_group at 2. unfold write_group in Cells. cbn [snd] in Cells.
    set (n := Z.of_nat (List.length items)) in *.
    set (ws1 := {| sheet_rows := _; merged := _; centered := _ |}) in *.
    destruct (IH Hkeys' Hne' (rn + n) (gi + 1) ws1)
      as (ws' & nm & nc & E & S & M & MB & C & CB).
    assert (RC : record_count ((kt, items) :: groups)
                 = (List.length items + record_count groups)%nat).
    { unfold record_count. simpl. now rewrite List.length_app. }
    exists ws',
      ((if rn <? rn + n - 1 then [(rn, 1, rn + n - 1, 1)] else [])
       ++ (if rn <? rn + n - 1
           then map (fun c => (rn, c, rn + n - 1, c)) (key_column_indexes key_columns)
           else []) ++ nm)%list,
      ((rn, 1) :: map (fun c => (rn, c)) (key_column_indexes key_columns) ++ nc)%list.
    rewrite RC. split; [|split; [|split; [|split; [|split]]]].
    + rewrite E.
      replace (rn + n + Z.of_nat (record_count groups))
        with (rn + Z.of_nat (List.length items + record_count groups))
        by (unfold n; lia).
      replace (gi + 1 + Z.of_nat (List.length groups))
        with (gi + Z.of_nat (List.length ((kt, items) :: groups)))
        by (simpl List.length; lia).
      reflexivity.
    + intros Hrn. specialize (Cells Hrn).
      rewrite S.
      * rewrite Cells. cbn [sheet_blocks]. now rewrite <- app_assoc.
      * rewrite Cells, List.length_app, group_block_length. cbn [snd]. unfold n. lia.
    + rewrite M. unfold ws1. simpl merged. now rewrite <- !app_assoc.
    + apply Forall_app. split; [|apply Forall_app; split].
      * destruct (rn <? rn + n - 1) eqn:B; [|constructor].
        apply Z.ltb_lt in B. constructor; [|constructor].
        unfold region_ok. lia.
      * destruct (rn <? rn + n - 1) eqn:B; [|constructor].
        apply Z.ltb_lt in B. apply Forall_forall. intros m Hm.
        apply in_map_iff in Hm. destruct Hm as (c & <- & Hc).
        apply key_column_indexes_range in Hc. unfold region_ok. lia.
      * revert MB. apply Forall_impl. intros m.
        apply region_ok_widen; unfold n; lia.
    + rewrite C. unfold ws1. simpl centered. rewrite <- !app_assoc. reflexivity.
    + constructor; [unfold cell_ok, n; lia|]. apply Forall_app. split.
      * apply Forall_forall. intros p Hp.
        apply in_map_iff in Hp. destruct Hp as (c & <- & Hc).
        apply key_column_indexes_range in Hc. unfold cell_ok, n. lia.
      * revert CB. apply Forall_impl. intros p.
        apply cell_ok_widen; unfold n; lia.
Qed.

Lemma grouped_key_lengths {A : Type} (item_of : Row -> A)
  (key_columns : list string) (processed : list Row) :
  Forall (fun g => List.length (fst g) = List.length key_columns)
    (fst (grouping_pass item_of key_columns processed)).
Proof.
  apply Forall_forall. intros g Hg.
  assert (Hk : In (fst g) (map fst (fst (grouping_pass item_of key_columns processed))))
    by now apply in_map.
  unfold grouping_pass in Hk. rewrite grouping_pass_split in Hk. cbn [fst] in Hk.
  rewrite (index_fold_keys tuple_eqb tuple_eqb_eq) in Hk.
  apply first_seen_incl, in_map_iff in Hk. destruct Hk as (r & <- & _).
  unfold key_tuple_of. apply length_map.
Qed.

Lemma build_sheet_layout (key_columns detail_columns : list string)
  (processed : list Row) :
  let groups :=
    fst (grouping_pass (build_detail detail_columns) key_columns processed) in
  let ws := build_sheet key_columns detail_columns groups in
  let hs := map output_name detail_columns in
  let nkeys := Z.of_nat (List.length key_columns) in
  let last := 1 + Z.of_nat (List.length processed) in
  sheet_rows ws
  = (VStr "序号" :: map VStr key_columns ++ map VStr hs)%list
    :: sheet_blocks 1 hs groups
  /\ Forall (region_ok nkeys 2 last) (merged ws)
  /\ Forall (cell_ok nkeys 2 last) (centered ws).
Proof.
  intros groups ws hs nkeys last.
  pose proof (grouped_key_lengths (build_detail detail_columns) key_columns processed)
    as Hk.
  destruct (grouping_keeps_every_row_aux (build_detail detail_columns)
              key_columns processed) as [Hc Hn].
  fold groups in Hk, Hc, Hn.
  unfold ws, build_sheet. fold hs.
  set (ws0 := {| sheet_rows := _; merged := []; centered := [] |}).
  destruct (write_groups_layout key_columns hs groups Hk Hn 2 1 ws0)
    as (ws' & nm & nc & E & S & M & MB & C & CB).
  rewrite E. cbn [snd]. rewrite Hc in *.
  split; [apply S; reflexivity|].
  split.
  - rewrite M. simpl. unfold nkeys, last.
    replace (1 + Z.of_nat (List.length processed))
      with (2 + Z.of_nat (List.length processed) - 1) by lia. exact MB.
  - rewrite C. simpl. unfold nkeys, last.
    replace (1 + Z.of_nat (List.length processed))
      with (2 + Z.of_nat (List.length processed) - 1) by lia. exact CB.
Qed.

Lemma group_block_widths (gi : Z) (hs : list string) (g : list string * list Detail) :
  Forall (fun row => List.length row
                     = (1 + List.length (fst g) + List.length hs)%nat)
    (group_block gi hs g).
Proof.
  unfold group_block. destruct (snd g) as [|x l]; constructor.
  - apply sheet_row_width.
  - apply Forall_forall. intros row Hrow. apply in_map_iff in Hrow.
    destruct Hrow as (item & <- & _).
    now rewrite List.length_app, repeat_length, length_map.
Qed.

Lemma group_block_first_cells (gi : Z) (hs : list string)
  (g : list string * list Detail) :
  map (hd VNone) (group_block gi hs g)
  = match snd g with
    | [] => []
    | _ :: items => VInt gi :: repeat VNone (List.length items)
    end.
Proof.
  unfold group_block. destruct (snd g) as [|x l]; [reflexivity|].
  cbn [map sheet_row hd]. f_equal. rewrite map_map.
  induction l as [|y l IH]; [reflexivity|].
  cbn [map List.length repeat]. now rewrite IH.
Qed.

Lemma sheet_blocks_first_cells (hs : list string)
  (groups : list (list string * list Detail)) :
  forall gi, map (hd VNone) (sheet_blocks gi hs groups) = sequence_column gi groups.
Proof.
  induction groups as [|g groups IH]; intros gi; [reflexivity|].
  cbn [sheet_blocks sequence_column].
  now rewrite map_app, group_block_first_cells, IH.
Qed.

Lemma sheet_blocks_widths (n : nat) (hs : list string)
  (groups : list (list string * list Detail)) :
  Forall (fun g => List.length (fst g) = n) groups ->
  forall gi,
    Forall (fun row => List.length row = (1 + n + List.length hs)%nat)
      (sheet_blocks gi hs groups).
Proof.
  intros H. induction H as [|g groups Hg _ IH]; intros gi; [constructor|].
  cbn [sheet_blocks]. apply Forall_app. split; [|apply IH].
  rewrite <- Hg. apply group_block_widths.
Qed.

(** X5.  The sheet handed to [wb.save] has the header row and one row per
    processed row, and every row has one cell for the sequence number, one
    per key column and one per detail column.  Below the header come the
    groups in order: the row of a group's first record is complete; in the
    rows of its other records the merges have emptied the sequence cell
    and the key cells, and only the detail cells hold a value.  So the
    sequence column shows each group number 1, 2, ... once, at the top of
    the group's rows. *)
Theorem sheet_rows_and_sequence (key_columns detail_columns : list string)
  (processed : list Row) :
  let groups :=
    fst (grouping_pass (build_detail detail_columns) key_columns processed) in
  let ws := build_sheet key_columns detail_columns groups in
  let hs := map output_name detail_columns in
  List.length (sheet_rows ws) = S (List.length processed)
  /\ Forall (fun row =>
               List.length row
               = (1 + List.length key_columns + List.length detail_columns)%nat)
       (sheet_rows ws)
  /\ sheet_rows ws
     = (VStr "序号" :: map VStr key_columns ++ map VStr hs)%list
       :: sheet_blocks 1 hs groups
  /\ map (hd VNone) (sheet_rows ws) = VStr "序号" :: sequence_column 1 groups
  /\ build_sheet ["运单号码"] ["备注"]
       [(["A1"], [[("备注", VStr "x")]; [("备注", VStr "y")]]);
        (["B2"], [[("备注", VStr "z")]])]
     = {| sheet_rows := [[VStr "序号"; VStr "运单号码"; VStr "备注"];
                         [VInt 1; VStr "A1"; VStr "x"];
                         [VNone; VNone; VStr "y"];
                         [VInt 2; VStr "B2"; VStr "z"]];
          merged := [(2, 1, 3, 1); (2, 2, 3, 2)];
          centered := [(2, 1); (2, 2); (4, 1); (4, 2)] |}.
Proof.
  intros groups ws hs.
  destruct (build_sheet_layout key_columns detail_columns processed) as (H & _).
  fold groups ws hs in H.
  pose proof (grouped_key_lengths (build_detail detail_columns) key_columns processed)
    as Hk.
  destruct (grouping_keeps_every_row_aux (build_detail detail_columns)
              key_columns processed) as [Hc _].
  fold groups in Hk, Hc.
  split; [|split; [|split; [exact H|split; [|reflexivity]]]].
  - rewrite H. cbn [List.length]. now rewrite sheet_blocks_length, Hc.
  - rewrite H. replace (List.length detail_columns) with (List.length hs)
      by (unfold hs; apply length_map).
    constructor.
    + cbn [List.length]. now rewrite List.length_app, !length_map.
    + now apply sheet_blocks_widths.
  - rewrite H. cbn [map hd]. now rewrite sheet_blocks_first_cells.
Qed.


(** ** Processed rows *)

Lemma normalize_row_columns (td : string -> option string)
  (cols : list string) (cells : list Cell) :
  List.length cells = List.length cols ->
  map fst (normalize_row td cols cells) = cols.
Proof.
  revert cells. induction cols as [|c cols IH]; intros [|x cells] H;
    try discriminate H; [reflexivity|].
  simpl. f_equal. apply IH. now injection H.
Qed.

Lemma normalize_row_get (td : string -> option string)
  (cols : list string) (cells : list Cell) :
  NoDup cols ->
  forall i col c,
    nth_error cols i = Some col -> nth_error cells i = Some c ->
    row_get (normalize_row td cols cells) col = normalize td col c.
Proof.
  intros Hnd. revert cells.
  induction cols as [|a cols IH]; intros cells i col c Hc Hx.
  - destruct i; discriminate Hc.
  - destruct cells as [|x cells]; [destruct i; discriminate Hx|].
    inversion Hnd as [|? ? Hnot Hnd']; subst.
    destruct i as [|i]; simpl in Hc, Hx.
    + injection Hc as ->. injection Hx as ->.
      unfold row_get. simpl. now rewrite String.eqb_refl.
    + unfold row_get. simpl.
      assert (E : String.eqb a col = false).
      { apply String.eqb_neq. intros ->. apply Hnot. now apply (nth_error_In _ i). }
      rewrite E. apply (IH Hnd' cells i col c Hc Hx).
Qed.

(** X7.  For a frame with one cell per column and distinct column names,
    the processed frame has the same number of rows, every processed row
    lists exactly the columns of the header in table order, and looking a
    column up in a processed row gives the normalised text of that row's
    cell in that column (never the fallback of a missing column). *)
Theorem processed_rows_complete (td : string -> option string) (d : DataFrame)
  (Hrect : rectangular d) (Hnd : NoDup (columns d)) :
  List.length (process_frame td d) = List.length (rows d)
  /\ Forall (fun row => map fst row = columns d) (process_frame td d)
  /\ (forall j cells i col c,
        nth_error (rows d) j = Some cells ->
        nth_error (columns d) i = Some col -> nth_error cells i = Some c ->
        exists row,
          nth_error (process_frame td d) j = Some row
          /\ row_get row col = normalize td col c).
Proof.
  unfold process_frame. split; [apply length_map|]. split.
  - apply Forall_forall. intros row Hrow. apply in_map_iff in Hrow.
    destruct Hrow as (cells & <- & Hcells).
    apply normalize_row_columns.
    unfold rectangular in Hrect. rewrite Forall_forall in Hrect. now apply Hrect.
  - intros j cells i col c Hj Hi Hc.
    exists (normalize_row td (columns d) cells). split.
    + now apply map_nth_error.
    + now apply (normalize_row_get td (columns d) cells Hnd i).
Qed.

Lemma processed_rows_complete_witness :
  List.length
    (process_frame no_dates
       {| columns := ["日期"; "备注"];
          rows := [[CStr "45932.0"; CNaN]; [CStr "x"; CStr "1.0"]] |}) = 2%nat.
Proof.
  refine (proj1 (processed_rows_complete no_dates
                   {| columns := ["日期"; "备注"];
                      rows := [[CStr "45932.0"; CNaN]; [CStr "x"; CStr "1.0"]] |}
                   _ _)).
  - repeat constructor.
  - repeat (constructor; [simpl; intuition discriminate|]). constructor.
Defined.

(** ** The repair pass is stable *)

(** X8.  Repairing a repaired text changes nothing: [fix_sci] is
    idempotent on every text. *)
Theorem fix_sci_idempotent (s : string) : fix_sci (fix_sci s) = fix_sci s.
Proof.
  destruct (Str.contains "e+" (Str.lower s)) eqn:E.
  - destruct (int_text_of_float_text s) as [r|] eqn:R.
    + assert (H : fix_sci s = r) by (unfold fix_sci; now rewrite E, R).
      rewrite H. apply plain_fix_sci.
      apply (all_chars_weaken _ _ r digit_or_dash_plain).
      apply integer_text_dashed. now apply (int_text_is_integer s).
    + assert (H : fix_sci s = s) by (unfold fix_sci; now rewrite E, R).
      rewrite H. exact H.
  - assert (H : fix_sci s = s) by (unfold fix_sci; now rewrite E).
    rewrite H. exact H.
Qed.

(** ** Kinds of detail values *)

Lemma scan_digits_nonneg (s : string) :
  forall acc cnt, 0 <= acc ->
    0 <= fst (fst (Str.scan_digits acc cnt s)).
Proof.
  induction s as [|c r IH]; intros acc cnt H; [exact H|].
  cbn [Str.scan_digits].
  destruct (Str.is_digit c) eqn:D.
  - apply IH. pose proof (digit_val_range c D). lia.
  - destruct (Ascii.eqb c "_" && negb (Nat.eqb cnt 0)); [|exact H].
    destruct r as [|c2 r']; [exact H|].
    destruct (Str.is_digit c2) eqn:D2; [|exact H].
    now apply IH.
Qed.

Lemma div_rne_nonneg (a b : Z) : 0 <= a -> 0 < b -> 0 <= Float.div_rne a b.
Proof.
  intros Ha Hb. apply Z.le_trans with (a / b); [|now apply div_rne_floor].
  now apply Z.div_pos.
Qed.

(** A rounded non-negative quotient is a non-negative finite value or the
    positive infinity. *)
Lemma round_nearest_nonneg (n d : Z) :
  0 <= n -> 0 < d ->
  Float.round_nearest false n d = Float.Inf false
  \/ exists m e, Float.round_nearest false n d = Float.Fin m e /\ 0 <= m.
Proof.
  intros Hn Hd. unfold Float.round_nearest.
  destruct (n =? 0); [right; exists 0, 0; split; [reflexivity | lia]|].
  match goal with |- context [if ?c then Float.Inf false else _] => destruct c end;
    [now left|].
  right. eexists _, _. split; [reflexivity|].
  destruct (0 <=? Z.max (Float.ilog2_ratio n d - 52) (-1074)) eqn:Q.
  - apply div_rne_nonneg; [exact Hn|].
    apply Z.mul_pos_pos; [exact Hd|]. apply Z.pow_pos_nonneg; [lia|].
    now apply Z.leb_le.
  - apply div_rne_nonneg; [|exact Hd].
    apply Z.mul_nonneg_nonneg; [exact Hn|]. apply Z.pow_nonneg. lia.
Qed.

Lemma parse_decimal_nonneg (u : string) (f : Float.t) :
  Float.parse_decimal false u = Some f ->
  f = Float.Inf false \/ exists m e, f = Float.Fin m e /\ 0 <= m.
Proof.
  unfold Float.parse_decimal.
  pose proof (scan_digits_nonneg u 0 0%nat (Z.le_refl 0)) as H1.
  destruct (Str.scan_digits 0 0 u) as [[ip ic] r1]. cbn [fst] in H1.
  assert (H2 : forall t, 0 <= fst (fst (match t with
                                        | String "." r => Str.scan_digits 0 0 r
                                        | _ => (0, 0%nat, t)
                                        end))).
  { intros t. destruct t as [|c r]; [simpl; lia|].
    destruct (Ascii.ascii_dec c ".") as [-> | Hne].
    - apply scan_digits_nonneg. lia.
    - ascii_cases c; try (simpl; lia). now elim Hne. }
  specialize (H2 r1).
  destruct (match r1 with String "." r => Str.scan_digits 0 0 r | _ => (0, 0%nat, r1) end)
    as [[fp fc] r2]. cbn [fst] in H2.
  destruct (Nat.eqb (ic + fc) 0); [discriminate|].
  assert (Hm : 0 <= ip * 10 ^ Z.of_nat fc + fp).
  { assert (0 <= 10 ^ Z.of_nat fc) by (apply Z.pow_nonneg; lia). nia. }
  assert (Fin : forall ex g,
            Some (if 0 <=? ex - Z.of_nat fc
                  then Float.round_nearest false
                         ((ip * 10 ^ Z.of_nat fc + fp) * 10 ^ (ex - Z.of_nat fc)) 1
                  else Float.round_nearest false (ip * 10 ^ Z.of_nat fc + fp)
                         (10 ^ (- (ex - Z.of_nat fc)))) = Some g ->
            g = Float.Inf false \/ exists m e, g = Float.Fin m e /\ 0 <= m).
  { intros ex g [= <-].
    destruct (0 <=? ex - Z.of_nat fc) eqn:X.
    - apply round_nearest_nonneg; [|lia].
      apply Z.mul_nonneg_nonneg; [exact Hm|]. apply Z.pow_nonneg. lia.
    - apply round_nearest_nonneg; [exact Hm|].
      apply Z.pow_pos_nonneg; [lia|]. apply Z.leb_gt in X. lia. }
  destruct r2 as [|c r]; [apply Fin|].
  destruct (Ascii.eqb c "e" || Ascii.eqb c "E"); [|discriminate].
  destruct (Str.split_sign r) as [eneg r'].
  destruct (Str.scan_digits 0 0 r') as [[ev ec] r3].
  destruct (negb (Nat.eqb ec 0) && String.eqb r3 ""); [apply Fin | discriminate].
Qed.

(** X9.  The value stored for a detail cell is the unchanged text, a
    non-negative integer, or a float that is never a NaN, never negative
    and never the negative infinity; it is never [None].  Under a monetary
    name a value is never an integer.  For text of ASCII characters and
    CJK ideographs, an integer is read from digits-only text and a float
    from numeric-looking text that has a point or a monetary name. *)
Theorem detail_value_kinds (name val : string) :
  (forall s, coerce name val = VStr s -> s = val)
  /\ coerce name val <> VNone
  /\ (forall z, coerce name val = VInt z ->
        0 <= z /\ str_in name monetary_columns = false)
  /\ (forall f, coerce name val = VFloat f ->
        f = Float.Inf false \/ exists m e, f = Float.Fin m e /\ 0 <= m)
  /\ (ascii_or_cjk_text val = true ->
      forall z, coerce name val = VInt z ->
        Str.isdigit val = true /\ Str.py_int val = Some z)
  /\ (ascii_or_cjk_text val = true ->
      forall f, coerce name val = VFloat f ->
        numeric_looking val = true
        /\ (Str.contains "." val = true \/ str_in name monetary_columns = true)
        /\ Float.of_string val = Some f).
Proof.
  unfold coerce. rewrite numeric_looking_code.
  destruct (numeric_looking val) eqn:N.
  2:{ split; [now intros s [= <-]|]. split; [discriminate|].
      repeat split; intros; discriminate. }
  destruct (float_of_numeric val N) as [f0 F0]. rewrite F0.
  assert (Hf0 : f0 = Float.Inf false \/ exists m e, f0 = Float.Fin m e /\ 0 <= m).
  { destruct (numeric_looking_parts val N) as (H1 & _).
    rewrite (of_string_numeric val H1) in F0. now apply (parse_decimal_nonneg val). }
  destruct (Str.contains "." val) eqn:D.
  - split; [intros s H; discriminate H|]. split; [discriminate|].
    split; [intros z H; discriminate H|].
    split; [now intros f [= <-]|].
    split; [intros _ z H; discriminate H|].
    intros _ f [= <-]. repeat split; auto.
  - pose proof (numeric_no_dot_isdigit val N D) as Hd.
    destruct (py_int_digits val Hd) as (v & _ & Hv & Hp).
    destruct (Str.py_int val) as [z|] eqn:P.
    + assert (z = v).
      { destruct (Nat.leb _ _); [now injection Hp | discriminate Hp]. }
      subst z.
      destruct (str_in name monetary_columns) eqn:M.
      * split; [intros s H; discriminate H|]. split; [discriminate|].
        split; [intros z H; discriminate H|].
        split; [now intros f [= <-]|].
        split; [intros _ z H; discriminate H|].
        intros _ f [= <-]. repeat split; auto.
      * split; [intros s H; discriminate H|]. split; [discriminate|].
        split; [now intros z [= <-]|].
        split; [intros f H; discriminate H|].
        split; [|intros _ f H; discriminate H].
        intros _ z [= <-]. now split.
    + split; [now intros s [= <-]|]. split; [discriminate|].
      repeat split; intros; discriminate.
Qed.

Lemma detail_value_kinds_witness :
  ascii_or_cjk_text "12" = true
  /\ coerce "费用" "12" = VFloat (Float.Fin 6755399441055744 (-49))
  /\ numeric_looking "12" = true
  /\ str_in "费用" monetary_columns = true
  /\ Float.of_string "12" = Some (Float.Fin 6755399441055744 (-49)).
Proof.
  split; [reflexivity|]. split; [reflexivity|].
  destruct (proj2 (proj2 (proj2 (proj2 (proj2 (detail_value_kinds "费用" "12")))))
              eq_refl (Float.Fin 6755399441055744 (-49)) eq_refl)
    as (N & [H | H] & F); [discriminate H|].
  split; [exact N|]. split; [exact H | exact F].
Defined.

(** ** Entries of a detail record *)

Lemma fill_detail_keys (row : Row) (cols : list string) :
  forall d,
    map fst (fill_detail row d cols)
    = fold_left (fun acc k => if existsb (String.eqb k) acc then acc
                              else (acc ++ [k])%list)
        (map output_name cols) (map fst d).
Proof.
  induction cols as [|c cols IH]; intros d; simpl; [reflexivity|].
  rewrite IH, dict_set_keys. f_equal.
  assert (E : dict_mem String.eqb d (output_name c)
              = existsb (String.eqb (output_name c)) (map fst d)).
  { clear. induction d as [|[a x] d IH]; simpl; [reflexivity|].
    now rewrite IH, String.eqb_sym. }
  now rewrite E.
Qed.

(** X10.  A detail record has one entry per distinct output name, in the
    order in which the names first occur among the detail columns, so it
    never has more entries than there are detail columns.  For every
    detail column the record has an entry under the column's output name,
    holding the converted value of a detail column with that output name;
    the empty-text default of the sheet writer is never used. *)
Theorem detail_record_entries (detail_columns : list string) (row : Row)
  (col : string) (Hcol : In col detail_columns) :
  map fst (build_detail detail_columns row)
  = first_seen String.eqb (map output_name detail_columns)
  /\ (List.length (build_detail detail_columns row)
      <= List.length detail_columns)%nat
  /\ exists src,
       In src detail_columns
       /\ output_name src = output_name col
       /\ dict_get String.eqb (build_detail detail_columns row) (output_name col)
          = Some (coerce (output_name col) (row_get row src))
       /\ detail_get (build_detail detail_columns row) (output_name col)
          = coerce (output_name col) (row_get row src).
Proof.
  assert (K : map fst (build_detail detail_columns row)
              = first_seen String.eqb (map output_name detail_columns)).
  { apply (fill_detail_keys row detail_columns []). }
  split; [exact K|]. split.
  - rewrite <- (length_map fst), K, <- (length_map output_name detail_columns).
    generalize (map output_name detail_columns). intros l. unfold first_seen.
    induction l as [|x l IH] using rev_ind; [simpl; lia|].
    rewrite fold_left_snoc, List.length_app. simpl.
    destruct (existsb _ _); [lia|]. rewrite List.length_app. simpl. lia.
  - pose proof (last_source_from_spec detail_columns (output_name col) None) as L.
    change (last_source_from None detail_columns (output_name col))
      with (last_source detail_columns (output_name col)) in L.
    destruct (last_source detail_columns (output_name col)) as [src|] eqn:E.
    + destruct L as [H1 H2]; [discriminate|].
      exists src. destruct H2 as [H2 | H2]; [|discriminate H2].
      repeat split; try assumption.
      * now rewrite build_detail_get, E.
      * unfold detail_get. now rewrite build_detail_get, E.
    + destruct L as [_ H2]; [discriminate|]. now elim (H2 col Hcol).
Qed.

Lemma detail_record_entries_witness :
  In "费用(元)" ["费用(元)"; "备注"]
  /\ map fst (build_detail ["费用(元)"; "备注"] [("费用(元)", "10"); ("备注", "x")])
     = first_seen String.eqb (map output_name ["费用(元)"; "备注"]).
Proof.
  split; [now left|].
  exact (proj1 (detail_record_entries ["费用(元)"; "备注"]
                  [("费用(元)", "10"); ("备注", "x")] "费用(元)" (or_introl eq_refl))).
Defined.

(** ** Numbers handed to [format_excel_date] *)

Lemma round_nearest_whole (neg : bool) (n : Z) :
  0 < n < 2 ^ 53 ->
  exists k, 0 <= k
            /\ Float.round_nearest neg n 1
               = Float.Fin ((if neg then - n else n) * 2 ^ k) (- k).
Proof.
  intros [Hpos Hlt]. unfold Float.round_nearest.
  assert (E0 : (n =? 0) = false) by (apply Z.eqb_neq; lia). rewrite E0.
  rewrite (ilog2_ratio_one n Hpos).
  pose proof (Z.log2_nonneg n) as Hl0.
  assert (Hl : Z.log2 n < 53) by (apply Z.log2_lt_pow2; lia).
  assert (Em : Z.max (Z.log2 n - 52) (-1074) = Z.log2 n - 52) by lia.
  rewrite Em. set (q := Z.log2 n - 52).
  exists (- q). split; [lia|]. rewrite Z.opp_involutive.
  destruct (0 <=? q) eqn:Eq.
  - apply Z.leb_le in Eq. assert (q = 0) by lia.
    replace q with 0 by lia. cbn [Z.opp Z.pow]. rewrite !Z.mul_1_r, div_rne_one.
    assert (F : (2 ^ 1024 <=? n) = false).
    { apply Z.leb_gt. assert (2 ^ 53 < 2 ^ 1024) by (vm_compute; reflexivity). lia. }
    cbn [andb]. change (Z.pow_pos 2 1024) with (2 ^ 1024). now rewrite F.
  - cbn [andb]. rewrite div_rne_one. f_equal. destruct neg; lia.
Qed.

Lemma float_of_int_whole (n : Z) :
  - 2 ^ 53 < n < 2 ^ 53 ->
  exists k, 0 <= k /\ float_of_int n = Float.Fin (n * 2 ^ k) (- k).
Proof.
  intros H. unfold float_of_int.
  destruct (Z.eq_dec n 0) as [-> | Hnz].
  - exists 0. split; [lia | reflexivity].
  - destruct (round_nearest_whole (n <? 0) (Z.abs n)) as (k & Hk & E); [lia|].
    exists k. split; [exact Hk|]. rewrite E. f_equal. f_equal.
    destruct (n <? 0) eqn:S; [apply Z.ltb_lt in S | apply Z.ltb_ge in S]; lia.
Qed.

Lemma timedelta_days_whole_signed (n k : Z) :
  0 <= k ->
  Date.timedelta_days (Float.Fin (n * 2 ^ k) (- k))
  = if Z.abs n <=? Date.max_delta_days then Some n else None.
Proof.
  intros Hk. unfold Date.timedelta_days.
  assert (Hp : 0 < 2 ^ k) by (apply Z.pow_pos_nonneg; lia).
  assert (Q : Z.quot (if 0 <=? - k then n * 2 ^ k * 2 ^ (- k) else n * 2 ^ k)
                     (if 0 <=? - k then 1 else 2 ^ (- - k)) = n
              /\ Z.rem (if 0 <=? - k then n * 2 ^ k * 2 ^ (- k) else n * 2 ^ k)
                       (if 0 <=? - k then 1 else 2 ^ (- - k)) = 0).
  { destruct (0 <=? - k) eqn:E.
    - apply Z.leb_le in E. assert (k = 0) by lia. subst k.
      cbn [Z.opp Z.pow]. rewrite !Z.mul_1_r, Z.quot_1_r, Z.rem_1_r. now split.
    - rewrite Z.opp_involutive. split.
      + apply Z.quot_mul; lia.
      + apply Z.rem_mul; lia. }
  destruct Q as [Q1 Q2]. rewrite Q1, Q2. cbn [Z.eqb].
  unfold Date.us_per_day. rewrite Z.div_mul by lia. reflexivity.
Qed.

Lemma float_of_int_large (n : Z) :
  2 ^ 53 <= Z.abs n -> Date.excel_serial (float_of_int n) = None.
Proof.
  intros Hn. unfold float_of_int.
  set (a := Z.abs n) in *. set (neg := n <? 0).
  assert (P53 : 0 < 2 ^ 53) by (vm_compute; reflexivity).
  assert (Hpos : 0 < a) by lia.
  unfold Float.round_nearest.
  assert (E0 : (a =? 0) = false) by (apply Z.eqb_neq; lia). rewrite E0.
  rewrite (ilog2_ratio_one a Hpos).
  assert (Hl : 53 <= Z.log2 a) by (apply Z.log2_le_pow2; lia).
  destruct (Z.log2_spec a Hpos) as [Hlo _].
  assert (Em : Z.max (Z.log2 a - 52) (-1074) = Z.log2 a - 52) by lia.
  rewrite Em. set (q := Z.log2 a - 52). fold q in Hlo.
  assert (Hq : 1 <= q) by (unfold q; lia).
  assert (Eq : (0 <=? q) = true) by (apply Z.leb_le; lia). rewrite Eq.
  assert (Hp : 0 < 2 ^ q) by (apply Z.pow_pos_nonneg; lia).
  assert (Hp2 : 2 <= 2 ^ q).
  { change 2 with (2 ^ 1) at 1. apply Z.pow_le_mono_r; lia. }
  set (m := Float.div_rne a (1 * 2 ^ q)).
  assert (Hm : 2 ^ 52 <= m).
  { unfold m. rewrite Z.mul_1_l.
    apply Z.le_trans with (a / 2 ^ q); [|now apply div_rne_floor].
    apply Z.div_le_lower_bound; [exact Hp|].
    replace (Z.log2 a) with (q + 52) in Hlo by (unfold q; lia).
    rewrite Z.pow_add_r in Hlo by lia. lia. }
  assert (P52 : 0 < 2 ^ 52) by (vm_compute; reflexivity).
  cbn [andb]. destruct (2 ^ 1024 <=? m * 2 ^ q); [reflexivity|].
  unfold Date.excel_serial, Date.timedelta_days.
  rewrite Eq, Z.quot_1_r, Z.rem_1_r. cbn [Z.eqb].
  unfold Date.us_per_day. rewrite Z.div_mul by lia.
  assert (Hbig : (Z.abs ((if neg then - m else m) * 2 ^ q) <=? Date.max_delta_days)
                 = false).
  { apply Z.leb_gt. unfold Date.max_delta_days.
    assert (999999999 < 2 ^ 52) by (vm_compute; reflexivity).
    rewrite Z.abs_mul. rewrite (Z.abs_eq (2 ^ q)) by lia.
    assert (Z.abs (if neg then - m else m) = m) by (destruct neg; lia). nia. }
  now rewrite Hbig.
Qed.

(** X11.  An [int] handed to [format_excel_date] is taken as a day count
    from 1899-12-30 whatever its size: there is no 10000 threshold as for
    text.  From -328716 (1000-01-01) to 2958465 (9999-12-31) the result is
    that date; below -693593 and above 2958465 the addition overflows and
    the result is the number's own text, as long as the number can be
    printed: from [10 ^ 4300] on in absolute value [str(value)] raises in
    the first test of the function, outside every [try], and the function
    raises.  So the number 5 gives ["1900-01-04"] while the text ["5"]
    stays ["5"]. *)
Theorem int_serial_formatted (td : string -> option string) (n : Z) :
  (-328716 <= n <= 2958465 ->
   format_excel_date_any td (AInt n)
   = Some (Date.strftime (Date.ord2ymd (Date.excel_epoch + n))))
  /\ (n < -693593 \/ 2958465 < n -> Z.abs n < 10 ^ 4300 ->
      format_excel_date_any td (AInt n) = Some (Str.of_Z n))
  /\ (10 ^ 4300 <= Z.abs n -> format_excel_date_any td (AInt n) = None)
  /\ format_excel_date_any td (AInt 5) = Some "1900-01-04"
  /\ format_excel_date_any td (AStr "5") = Some "5"
  /\ format_excel_date_any td (AInt 45932)
     = format_excel_date_any td (AStr "45932")
  /\ format_excel_date_any td (AInt 2958466) = Some "2958466"
  /\ format_excel_date_any td (AInt (10 ^ 4300)) = None
  /\ format_excel_date_any td (AInt (- 10 ^ 4300)) = None.
Proof.
  assert (P53 : 2 ^ 53 = 9007199254740992) by reflexivity.
  assert (Small : - 2 ^ 53 < n < 2 ^ 53 ->
            Date.excel_serial (float_of_int n)
            = if (1 <=? Date.excel_epoch + n) && (Date.excel_epoch + n <=? Date.max_ordinal)
              then Some (Date.ord2ymd (Date.excel_epoch + n)) else None).
  { intros H. destruct (float_of_int_whole n H) as (k & Hk & ->).
    unfold Date.excel_serial. rewrite (timedelta_days_whole_signed n k Hk).
    unfold Date.max_delta_days, Date.excel_epoch, Date.max_ordinal.
    destruct (Z.abs n <=? 999999999) eqn:A; [reflexivity|].
    apply Z.leb_gt in A.
    destruct (1 <=? 693594 + n) eqn:B1; [|reflexivity].
    destruct (693594 + n <=? 3652059) eqn:B2; [|reflexivity].
    apply Z.leb_le in B1, B2. lia. }
  unfold Date.excel_epoch, Date.max_ordinal in Small.
  assert (Limit : Z.of_nat Str.int_max_str_digits = 4300) by reflexivity.
  assert (Big : 10 ^ 7 <= 10 ^ 4300) by (apply Z.pow_le_mono_r; lia).
  change (10 ^ 7) with 10000000 in Big.
  unfold format_excel_date_any, str_of_int. rewrite Limit.
  set (limit := 10 ^ 4300) in *.
  split; [|split; [|split]].
  - intros H.
    assert (L : (Z.abs n <? limit) = true) by (apply Z.ltb_lt; lia). rewrite L.
    rewrite Small by lia.
    assert (B1 : (1 <=? 693594 + n) = true) by (apply Z.leb_le; lia).
    assert (B2 : (693594 + n <=? 3652059) = true) by (apply Z.leb_le; lia).
    now rewrite B1, B2.
  - intros H Hp.
    assert (L : (Z.abs n <? limit) = true) by (apply Z.ltb_lt; lia). rewrite L.
    destruct (Z_lt_le_dec (Z.abs n) (2 ^ 53)) as [Hs | Hl].
    + rewrite Small by lia.
      destruct H as [H | H].
      * assert (B1 : (1 <=? 693594 + n) = false) by (apply Z.leb_gt; lia).
        now rewrite B1.
      * assert (B2 : (693594 + n <=? 3652059) = false) by (apply Z.leb_gt; lia).
        now rewrite B2, andb_false_r.
    + now rewrite (float_of_int_large n Hl).
  - intros H.
    assert (L : (Z.abs n <? limit) = false) by (apply Z.ltb_ge; lia).
    now rewrite L.
  - subst limit. repeat split; vm_compute; reflexivity.
Qed.

Lemma int_serial_formatted_witness :
  format_excel_date_any no_dates (AInt 45658) = Some "2025-01-01".
Proof.
  refine (proj1 (int_serial_formatted no_dates 45658) _). lia.
Defined.

(** ** The window *)

Lemma set_checked_labels (i : nat) (b : bool) (cbs : list (string * bool)) :
  map fst (set_checked i b cbs) = map fst cbs.
Proof.
  revert i. induction cbs as [|cb r IH]; intros [|i]; simpl; try reflexivity.
  now rewrite IH.
Qed.

Lemma dropna_all_rows (d : DataFrame) :
  Forall (fun r => forallb is_nan r = false) (rows (dropna_all d)).
Proof.
  apply Forall_forall. intros r Hr. simpl in Hr. apply filter_In in Hr.
  destruct Hr as [_ Hr]. now apply negb_true_iff.
Qed.

Lemma step_invariant (a : App) (act : Action) :
  app_invariant a -> app_invariant (step a act).
Proof.
  intros H. destruct act as [chosen ef | read | b | i b | name | n]; simpl.
  - unfold select_file. destruct (String.eqb chosen "") eqn:E; [exact H|].
    apply String.eqb_neq in E. unfold load_sheets. simpl.
    unfold app_invariant in *.
    destruct (ef chosen) as [names | msg]; simpl; destruct (df a); simpl; tauto.
  - unfold load_data. destruct (String.eqb (file_path a) "") eqn:E; [exact H|].
    apply String.eqb_neq in E.
    destruct (read _ _ _) as [loaded | msg]; [|exact H].
    unfold app_invariant. simpl. rewrite map_map. simpl. rewrite map_id.
    repeat split; auto. apply Forall_forall. intros r Hr.
    apply filter_In in Hr. destruct Hr as [_ Hr]. now apply negb_true_iff.
  - unfold app_invariant in *. simpl. destruct (df a).
    + rewrite map_map. simpl. exact H.
    + destruct H as [-> H]. now split.
  - unfold app_invariant in *. simpl. destruct (df a).
    + now rewrite set_checked_labels.
    + destruct H as [-> H]. split; [now destruct i | exact H].
  - exact H.
  - exact H.
Qed.

Lemma reachable_invariant (a : App) : reachable a -> app_invariant a.
Proof.
  intros [acts ->]. induction acts as [|act acts IH] using rev_ind.
  - simpl. unfold app_invariant. simpl. now split.
  - rewrite fold_left_snoc. now apply step_invariant.
Qed.

(** X12.  In every state the window can reach: while no table is loaded
    there is no check box and the export button is disabled; once a table
    is loaded there is one check box per column, labelled with the column
    names in table order, no row of the table is entirely missing, a file
    path is set and the export button is enabled. *)
Theorem window_invariant (a : App) (Hreach : reachable a) :
  match df a with
  | Some d =>
      map fst (column_checkboxes a) = columns d
      /\ List.length (column_checkboxes a) = List.length (columns d)
      /\ Forall (fun r => exists c, In c r /\ is_nan c = false) (rows d)
      /\ file_path a <> ""
      /\ btn_process_enabled a = true
  | None => column_checkboxes a = [] /\ btn_process_enabled a = false
  end.
Proof.
  pose proof (reachable_invariant a Hreach) as H. unfold app_invariant in H.
  destruct (df a) as [d|]; [|exact H].
  destruct H as (H1 & H2 & H3 & H4). repeat split; auto.
  - rewrite <- H1. now rewrite length_map.
  - revert H2. apply Forall_impl. intros r Hr.
    induction r as [|c r IH]; [discriminate Hr|].
    simpl in Hr. apply andb_false_iff in Hr. destruct Hr as [Hc | Hr].
    + exists c. split; [now left | exact Hc].
    + destruct (IH Hr) as (c' & Hin & Hc'). exists c'. split; [now right | exact Hc'].
Qed.

Lemma window_invariant_witness :
  let a :=
    fold_left step
      [ActSelectFile "a.xlsx" (fun _ => Ok ["Sheet1"]);
       ActLoadData (fun _ _ _ =>
                      Ok {| columns := ["日期"; "备注"];
                            rows := [[CStr "45932"; CNaN]; [CNaN; CNaN]] |});
       ActSetChecked 1 true]
      initial_app in
  df a = Some {| columns := ["日期"; "备注"]; rows := [[CStr "45932"; CNaN]] |}
  /\ map fst (column_checkboxes a) = ["日期"; "备注"].
Proof.
  intros a. split; [reflexivity|].
  assert (R : reachable a) by (eexists; reflexivity).
  exact (proj1 (window_invariant a R)).
Defined.

Lemma combine_fst_snd {X Y : Type} (l : list (X * Y)) :
  combine (map fst l) (map snd l) = l.
Proof. induction l as [|[x y] l IH]; simpl; [reflexivity | now rewrite IH]. Qed.

Lemma filter_nil_forallb {X : Type} (f : X -> bool) (l : list X) :
  filter f l = [] <-> forallb (fun x => negb (f x)) l = true.
Proof.
  induction l as [|x l IH]; simpl; [easy|].
  destruct (f x); simpl; [easy | exact IH].
Qed.

(** The log of a click, by the key columns. *)
Lemma process_data_warning_iff (td : string -> option string) (w : World)
  (d : DataFrame) (checks : list bool) :
  process_data td w (Some d) checks
  = [EvWarning "请至少选择一列作为合并依据（Key）"]
  <-> fst (split_columns (columns d) checks) = [].
Proof.
  unfold process_data, process_data_io.
  destruct (split_columns (columns d) checks) as [sel det]. cbn [fst].
  destruct (order_key_columns sel) as [|k ks] eqn:E.
  - split; [intros _; now apply order_key_columns_nil | reflexivity].
  - split.
    + unfold try_except.
      destruct (String.eqb (save_file_dialog w) ""); [discriminate|].
      destruct (export_all_log td w d (k :: ks) det (save_file_dialog w))
        as (ws & jp & data & X).
      rewrite X. unfold partial_trace.
      destruct (wb_save_error w), (wb_save_partial w), (makedirs_error w),
        (makedirs_partial w), (open_error w), (json_dump_error w),
        (json_dump_partial w); discriminate.
    + intros ->. discriminate E.
Qed.

(** X13.  A click on the export button in a reachable state does nothing
    while no table is loaded.  With a table loaded, it classifies every
    column once, as selected or as detail, and it ends in the validation
    warning exactly when no check box is checked. *)
Theorem export_click_uses_every_column (td : string -> option string)
  (w : World) (a : App) (Hreach : reachable a) :
  (df a = None -> click_process td w a = [])
  /\ (forall d, df a = Some d ->
        let checks := map snd (column_checkboxes a) in
        split_columns (columns d) checks
        = (map fst (filter snd (column_checkboxes a)),
           map fst (filter (fun cb => negb (snd cb)) (column_checkboxes a)))
        /\ Permutation (fst (split_columns (columns d) checks)
                        ++ snd (split_columns (columns d) checks)) (columns d)
        /\ (click_process td w a
            = [EvWarning "请至少选择一列作为合并依据（Key）"]
            <-> forallb (fun cb => negb (snd cb)) (column_checkboxes a) = true)).
Proof.
  pose proof (reachable_invariant a Hreach) as H. unfold app_invariant in H.
  split.
  - intros E. unfold click_process. now rewrite E.
  - intros d E checks. rewrite E in H. destruct H as (H1 & _).
    assert (S : split_columns (columns d) checks
                = (map fst (filter snd (column_checkboxes a)),
                   map fst (filter (fun cb => negb (snd cb)) (column_checkboxes a)))).
    { rewrite split_columns_filter. unfold checks.
      now rewrite <- H1, combine_fst_snd. }
    split; [exact S|]. split.
    + apply split_columns_perm. unfold checks. now rewrite <- H1, !length_map.
    + unfold click_process. rewrite E. fold checks.
      rewrite process_data_warning_iff, S. cbn [fst].
      rewrite <- filter_nil_forallb. split.
      * intros M. now destruct (filter snd (column_checkboxes a)).
      * now intros ->.
Qed.

Lemma export_click_uses_every_column_witness :
  click_process no_dates (calm_world "out") initial_app = [].
Proof.
  assert (R : reachable initial_app) by (exists []; reflexivity).
  exact (proj1 (export_click_uses_every_column no_dates (calm_world "out")
                  initial_app R) eq_refl).
Defined.

Lemma default_checks_split (cols : list string) :
  split_columns cols (map (fun col => str_in col STANDARD_KEY_COLUMNS) cols)
  = (filter (fun col => str_in col STANDARD_KEY_COLUMNS) cols,
     filter (fun col => negb (str_in col STANDARD_KEY_COLUMNS)) cols).
Proof.
  induction cols as [|c cols IH]; [reflexivity|].
  cbn [map split_columns filter]. rewrite IH.
  now destruct (str_in c STANDARD_KEY_COLUMNS).
Qed.

Lemma default_key_columns (cols : list string) :
  order_key_columns (filter (fun col => str_in col STANDARD_KEY_COLUMNS) cols)
  = filter (fun std_col => str_in std_col cols) STANDARD_KEY_COLUMNS.
Proof.
  unfold order_key_columns. rewrite remaining_keys_filter.
  assert (E : filter (fun col => negb (str_in col STANDARD_KEY_COLUMNS))
                (filter (fun col => str_in col STANDARD_KEY_COLUMNS) cols) = []).
  { induction cols as [|c cols IH]; [reflexivity|]. cbn [filter].
    destruct (str_in c STANDARD_KEY_COLUMNS) eqn:S; [|exact IH].
    cbn [filter]. now rewrite S. }
  rewrite E, app_nil_r. apply filter_ext_in. intros std Hstd.
  destruct (str_in std cols) eqn:S.
  - apply str_in_In. apply filter_In. split; [now apply str_in_In|].
    now apply str_in_In.
  - destruct (str_in std (filter _ cols)) eqn:F; [|reflexivity].
    apply str_in_In, filter_In in F. destruct F as [F _].
    apply str_in_In in F. congruence.
Qed.

(** X14.  A load that succeeds keeps the rows with at least one value, in
    their order, checks exactly the standard key columns, enables the
    export button, previews at most 50 rows and reports the number of
    rows kept.  The key columns of a click made right then are the
    standard key columns present in the table, in the standard order,
    and the detail columns are the other columns in table order.  A load
    that fails, or is asked for without a file, changes nothing. *)
Theorem load_data_defaults (read_excel : string -> string -> Z -> Res DataFrame)
  (a : App) (Hpath : file_path a <> "") :
  (forall loaded,
     read_excel (file_path a) (combo_current a) (spin_header_row a - 1) = Ok loaded ->
     let a' := fst (load_data read_excel a) in
     let d := dropna_all loaded in
     df a' = Some d
     /\ columns d = columns loaded
     /\ rows d = filter (fun r => existsb (fun c => negb (is_nan c)) r) (rows loaded)
     /\ column_checkboxes a'
        = map (fun col => (col, str_in col STANDARD_KEY_COLUMNS)) (columns d)
     /\ btn_process_enabled a' = true
     /\ List.length (snd (table_preview a')) = Nat.min 50 (List.length (rows d))
     /\ snd (load_data read_excel a)
        = [EvInformation
             ("成功加载 " ++ Str.of_Z (Z.of_nat (List.length (rows d))) ++ " 行数据")]
     /\ split_columns (columns d) (map snd (column_checkboxes a'))
        = (filter (fun col => str_in col STANDARD_KEY_COLUMNS) (columns d),
           filter (fun col => negb (str_in col STANDARD_KEY_COLUMNS)) (columns d))
     /\ order_key_columns
          (fst (split_columns (columns d) (map snd (column_checkboxes a'))))
        = filter (fun std_col => str_in std_col (columns d)) STANDARD_KEY_COLUMNS)
  /\ (forall msg,
        read_excel (file_path a) (combo_current a) (spin_header_row a - 1)
        = Raised msg ->
        load_data read_excel a = (a, [EvCritical ("加载数据失败: " ++ msg)])).
Proof.
  assert (E : String.eqb (file_path a) "" = false) by now apply String.eqb_neq.
  split.
  - intros loaded R a' d. subst a' d. unfold load_data. rewrite E, R.
    cbn -[firstn str_in Str.of_Z split_columns order_key_columns String.append].
    assert (S : split_columns (columns loaded)
                  (map snd (map (fun col => (col, str_in col STANDARD_KEY_COLUMNS))
                              (columns loaded)))
                = (filter (fun col => str_in col STANDARD_KEY_COLUMNS) (columns loaded),
                   filter (fun col => negb (str_in col STANDARD_KEY_COLUMNS))
                     (columns loaded))).
    { rewrite map_map. cbn [snd]. apply default_checks_split. }
    split; [reflexivity|]. split; [reflexivity|]. split.
    { apply filter_ext. intros r. induction r as [|c r IH]; [reflexivity|].
      simpl. rewrite negb_andb, IH. reflexivity. }
    split; [reflexivity|]. split; [reflexivity|]. split.
    { rewrite length_map, length_firstn. reflexivity. }
    split; [reflexivity|]. split; [exact S|].
    rewrite S. cbn [fst]. apply default_key_columns.
  - intros msg R. unfold load_data. now rewrite E, R.
Qed.

Lemma load_data_defaults_witness :
  let a := fst (select_file "a.xlsx" (fun _ => Ok ["Sheet1"]) initial_app) in
  load_data (fun _ _ _ => Raised "No such file") a
  = (a, [EvCritical ("加载数据失败: " ++ "No such file")]).
Proof.
  intros a.
  refine (proj2 (load_data_defaults (fun _ _ _ => Raised "No such file") a _)
            "No such file" eq_refl).
  discriminate.
Defined.

Lemma split_columns_const (cbs : list (string * bool)) (b : bool) :
  split_columns (map fst cbs) (map (fun _ => b) cbs)
  = if b then (map fst cbs, []) else ([], map fst cbs).
Proof.
  induction cbs as [|cb l IH]; [now destruct b|].
  cbn [map split_columns]. rewrite IH. now destruct b.
Qed.

(** X15.  With a table loaded, "uncheck all" followed by a click on the
    export button always ends in the validation warning, and "check all"
    makes every column a selected column, leaving no detail column. *)
Theorem toggle_all_selection (td : string -> option string) (w : World)
  (a : App) (d : DataFrame) (Hreach : reachable a) (Hdf : df a = Some d) :
  click_process td w (toggle_all false a)
  = [EvWarning "请至少选择一列作为合并依据（Key）"]
  /\ split_columns (columns d) (map snd (column_checkboxes (toggle_all true a)))
     = (columns d, [])
  /\ df (toggle_all true a) = df a
  /\ df (toggle_all false a) = df a.
Proof.
  pose proof (reachable_invariant a Hreach) as H. unfold app_invariant in H.
  rewrite Hdf in H. destruct H as (H1 & _).
  assert (S : forall b,
            split_columns (columns d)
              (map snd (column_checkboxes (toggle_all b a)))
            = if b then (columns d, []) else ([], columns d)).
  { intros b. cbn [toggle_all column_checkboxes]. rewrite map_map. cbn [snd].
    rewrite <- H1. apply split_columns_const. }
  repeat split.
  - unfold click_process. replace (df (toggle_all false a)) with (Some d) by now simpl.
    apply process_data_warning_iff. now rewrite (S false).
  - exact (S true).
Qed.

Lemma toggle_all_selection_witness :
  let a :=
    fold_left step
      [ActSelectFile "a.xlsx" (fun _ => Ok ["Sheet1"]);
       ActLoadData (fun _ _ _ =>
                      Ok {| columns := ["日期"; "备注"];
                            rows := [[CStr "45932"; CStr "x"]] |})]
      initial_app in
  click_process no_dates (calm_world "out") (toggle_all false a)
  = [EvWarning "请至少选择一列作为合并依据（Key）"].
Proof.
  intros a.
  assert (R : reachable a) by (eexists; reflexivity).
  exact (proj1 (toggle_all_selection no_dates (calm_world "out") a
                  {| columns := ["日期"; "备注"];
                     rows := [[CStr "45932"; CStr "x"]] |} R eq_refl)).
Defined.

(** X16.  Choosing another file and then failing to load it leaves the
    previous table in place: the path shown is the new file's, but the
    table, the check boxes and the enabled export button are those of the
    file loaded before, so a click on the export button exports the old
    table.  A cancelled file dialog changes nothing at all. *)
Theorem failed_load_keeps_old_table (td : string -> option string) (w : World)
  (a : App) (chosen : string)
  (excel_file : string -> Res (list string))
  (read_excel : string -> string -> Z -> Res DataFrame) (msg : string)
  (Hchosen : chosen <> "")
  (Hfail : forall sheet header, read_excel chosen sheet header = Raised msg) :
  let a1 := fst (select_file chosen excel_file a) in
  let a2 := fst (load_data read_excel a1) in
  file_path a2 = chosen
  /\ df a2 = df a
  /\ column_checkboxes a2 = column_checkboxes a
  /\ btn_process_enabled a2 = btn_process_enabled a
  /\ snd (load_data read_excel a1) = [EvCritical ("加载数据失败: " ++ msg)]
  /\ click_process td w a2 = click_process td w a
  /\ select_file "" excel_file a = (a, []).
Proof.
  intros a1 a2.
  assert (E : String.eqb chosen "" = false) by now apply String.eqb_neq.
  assert (P : file_path a1 = chosen /\ df a1 = df a
              /\ column_checkboxes a1 = column_checkboxes a
              /\ btn_process_enabled a1 = btn_process_enabled a).
  { unfold a1, select_file, load_sheets. rewrite E. simpl.
    destruct (excel_file chosen); simpl; auto. }
  destruct P as (P1 & P2 & P3 & P4).
  assert (L : load_data read_excel a1 = (a1, [EvCritical ("加载数据失败: " ++ msg)])).
  { unfold load_data. rewrite P1, E, Hfail. reflexivity. }
  unfold a2. rewrite L. cbn [fst snd].
  repeat split; auto.
  unfold click_process. now rewrite P2, P3.
Qed.

Lemma failed_load_keeps_old_table_witness :
  let a :=
    fold_left step
      [ActSelectFile "a.xlsx" (fun _ => Ok ["Sheet1"]);
       ActLoadData (fun _ _ _ =>
                      Ok {| columns := ["日期"; "备注"];
                            rows := [[CStr "45932"; CStr "x"]] |})]
      initial_app in
  let a2 :=
    fst (load_data (fun _ _ _ => Raised "bad file")
           (fst (select_file "b.xlsx" (fun _ => Raised "bad file") a))) in
  file_path a2 = "b.xlsx" /\ df a2 = df a.
Proof.
  intros a a2.
  destruct (failed_load_keeps_old_table no_dates (calm_world "out") a "b.xlsx"
              (fun _ => Raised "bad file") (fun _ _ _ => Raised "bad file")
              "bad file" ltac:(discriminate) (fun _ _ => eq_refl))
    as (H1 & H2 & _).
  split; [exact H1 | exact H2].
Defined.
